(** * SmartHireAI: the rate-limited call envelope and the chunk merge

    A shallow embedding of the two generation-consuming agents
    ([agents/resume_parser_agent.py] and
    [SmartHireAI/agents/job_role_agent.py]), of the two workflows of
    [SmartHireAI/SmartHireAI/agents/orchestration_graph.py] that call
    them, and of the string handling of
    [SmartHireAI/SmartHireAI/utils/file_handler.py] and
    [utils/db_manager.py].

    Conventions of the embedding:
    - Python values ([dict], [list], [str], numbers, [None]) are the
      inductive type [pyval]; a [dict] is an association list in insertion
      order, as [json.dumps] and iteration see it.
    - [datetime] and [timedelta] values are integers counting
      microseconds, the resolution of the [datetime] module.
    - Python's [float] is a rational extended with nan and the two
      infinities; the two zeros are one.  The products and sums of floats,
      the quotient of two [int]s and the float of an [int] are rounded to
      the binary format ([Double]).  The ratio of [difflib] alone is kept
      as the exact quotient, which decides [ratio() > 0.8] as the floats
      do for sequences of fewer than 2^50 characters
      ([threshold_test_is_exact]).
    - The messages of the exceptions that the operations on objects raise
      are those of CPython 3.11.
    - A [str] is a Rocq [string]; its characters are the code points
      0..255.
    - Effects (the wall clock, [time.sleep], [random.uniform] and the
      generation service) are threaded through a state-and-exception
      monad over [World]; what the outside world answers is read from an
      [Env]. *)

From Stdlib Require Import ZArith QArith Qround Qpower Lqa.
From Stdlib Require Import Ascii String DecimalString List Bool Lia.
From Stdlib Require Import OrderedTypeEx.
From stdpp Require Import base option list sorting strings gmap.

Local Open Scope string_scope.
Local Open Scope list_scope.
Local Open Scope Z_scope.
Import ListNotations.

(** ** Exceptions *)

Inductive exn_class :=
  | ValueError
  | JSONDecodeError      (* json.JSONDecodeError, a subclass of ValueError *)
  | TypeError
  | AttributeError
  | KeyError
  | OverflowError
  | OtherError.          (* any other subclass of Exception *)

(** An exception: its class and what [str(e)] gives. *)
Record exn := Exn { exn_cls : exn_class; exn_str : string }.

Definition exn_class_eqb (a b : exn_class) : bool :=
  match a, b with
  | ValueError, ValueError | JSONDecodeError, JSONDecodeError
  | TypeError, TypeError | AttributeError, AttributeError
  | KeyError, KeyError | OverflowError, OverflowError
  | OtherError, OtherError => true
  | _, _ => false
  end.

(** [isinstance(e, cls)] for the handlers of the source. *)
Definition is_JSONDecodeError (e : exn) : bool :=
  exn_class_eqb (exn_cls e) JSONDecodeError.

Definition is_ValueError_or_TypeError (e : exn) : bool :=
  match exn_cls e with
  | ValueError | JSONDecodeError | TypeError => true
  | _ => false
  end.

Inductive result (A : Type) :=
  | Return (a : A)
  | Raise (e : exn).
Arguments Return {A} a.
Arguments Raise {A} e.

(** ** Time *)

(** [timedelta(seconds=n)] in microseconds. *)
Definition seconds (n : Z) : Z := n * 1000000.

(** ** RateLimiter *)

Module RateLimiter.

Record t := Make {
  max_requests : Z;
  time_window : Z;          (* in seconds *)
  requests : list Z         (* datetimes of the recorded requests *)
}.

(** [RateLimiter(max_requests=2, time_window=60)] *)
Definition init (max_requests time_window : Z) : t :=
  Make max_requests time_window [].

Definition with_requests (self : t) (rs : list Z) : t :=
  Make (max_requests self) (time_window self) rs.

(** [min(self.requests)]; [None] stands for the [ValueError] of an empty
    argument. *)
Definition py_min (l : list Z) : option Z :=
  match l with
  | [] => None
  | x :: xs => Some (fold_left Z.min xs x)
  end.

(** What one call of [wait_if_needed] asks of the outside world. *)
Inductive waited :=
  | NoSleep
  | Sleep (usec : Z).      (* time.sleep(wait_time + jitter) *)

(** [wait_if_needed], for a call that reads [now] from the clock and
    would draw [jitter] from [random.uniform(0.1, 2.0)].  The result is
    the limiter after the call and what the call did: the sleep it
    requested, or the exception of [min] on an empty list.  The value
    appended last is [now], the clock reading taken on entry. *)
Definition wait_if_needed (now jitter : Z) (self : t) : t * result waited :=
  let kept :=
    List.filter (fun req_time => now - req_time <? seconds (time_window self))
                (requests self) in
  if max_requests self <=? Z.of_nat (List.length kept) then
    match py_min kept with
    | None =>
        (with_requests self kept,
         Raise (Exn ValueError "min() arg is an empty sequence"))
    | Some oldest_request =>
        let wait_time := oldest_request + seconds (time_window self) - now in
        if 0 <? wait_time then
          (with_requests self (kept ++ [now]), Return (Sleep (wait_time + jitter)))
        else
          (with_requests self (kept ++ [now]), Return NoSleep)
    end
  else
    (with_requests self (kept ++ [now]), Return NoSleep).

(** A caller that calls [wait_if_needed] again and again: before each
    call it idles for [gap] microseconds, and a sleep lasts exactly as
    long as requested.  The result is the clock, the limiter, and the
    clock reading at which each call returned (when the caller issues its
    request), oldest first. *)
Fixpoint acquire_all (schedule : list (Z * Z)) (clock : Z) (self : t)
    (returned : list Z) : Z * t * list Z :=
  match schedule with
  | [] => (clock, self, returned)
  | (gap, jitter) :: rest =>
      let now := clock + gap in
      match wait_if_needed now jitter self with
      | (self', Return (Sleep d)) =>
          acquire_all rest (now + d) self' (returned ++ [now + d])
      | (self', Return NoSleep) =>
          acquire_all rest now self' (returned ++ [now])
      | (self', Raise _) => (now, self', returned)
      end
  end.

(** The number of timestamps of [ts] inside the window
    [[start, start + W)]. *)
Definition in_window (W start : Z) (ts : list Z) : nat :=
  List.length (List.filter (fun t => (start <=? t) && (t <? start + W)) ts).

End RateLimiter.

(** ** Strings *)

Module Str.

(** [c.isspace()] for the code points below 256. *)
Definition is_space (c : ascii) : bool :=
  let n := N_of_ascii c in
  (((9 <=? n) && (n <=? 13)) || ((28 <=? n) && (n <=? 32))
   || (n =? 133) || (n =? 160))%N.

Fixpoint lstrip (s : string) : string :=
  match s with
  | String c s' => if is_space c then lstrip s' else s
  | EmptyString => EmptyString
  end.

(** [rstrip] keeps a character when it is not a space or when something
    is kept after it. *)
Fixpoint rstrip (s : string) : string :=
  match s with
  | String c s' =>
      match rstrip s' with
      | EmptyString => if is_space c then EmptyString else String c EmptyString
      | kept => String c kept
      end
  | EmptyString => EmptyString
  end.

(** [s.strip()] *)
Definition strip (s : string) : string := rstrip (lstrip s).

(** [c.lower()] for the code points below 256: the letters A-Z and the
    accented capitals U+00C0..U+00DE (U+00D7, the multiplication sign,
    is not a letter). *)
Definition lower_char (c : ascii) : ascii :=
  let n := N_of_ascii c in
  if (((65 <=? n) && (n <=? 90))
      || ((192 <=? n) && (n <=? 222) && negb (n =? 215)))%N
  then ascii_of_N (n + 32) else c.

(** [s.lower()] *)
Fixpoint lower (s : string) : string :=
  match s with
  | String c s' => String (lower_char c) (lower s')
  | EmptyString => EmptyString
  end.

(** [needle in hay] *)
Fixpoint contains (needle hay : string) : bool :=
  String.prefix needle hay
  || match hay with
     | String _ hay' => contains needle hay'
     | EmptyString => false
     end.

(** [not s or not s.strip()] *)
Definition blank (s : string) : bool :=
  match s with
  | EmptyString => true
  | _ => match strip s with EmptyString => true | _ => false end
  end.

(** [s.split()]: the maximal runs of characters that are not spaces;
    [cur] holds the run being read, last character first. *)
Fixpoint split_ws (s : string) (cur : list ascii) : list string :=
  let word := string_of_list_ascii (rev cur) in
  match s with
  | EmptyString => match cur with [] => [] | _ => [word] end
  | String c s' =>
      if is_space c
      then match cur with
           | [] => split_ws s' []
           | _ => word :: split_ws s' []
           end
      else split_ws s' (c :: cur)
  end.

Fixpoint all_space (s : string) : bool :=
  match s with
  | String c s' => is_space c && all_space s'
  | EmptyString => true
  end.

(** No character of [s] is a space. *)
Fixpoint no_space (s : string) : bool :=
  match s with
  | String c s' => negb (is_space c) && no_space s'
  | EmptyString => true
  end.

(** [c * n] *)
Fixpoint replicate (n : nat) (c : ascii) : string :=
  match n with
  | O => EmptyString
  | S n' => String c (replicate n' c)
  end.

End Str.

(** ** Python values *)

Inductive pyfloat :=
  | FNan
  | FInf (negative : bool)
  | FFin (q : Q).

#[warnings="-register-all"]
Inductive pyval :=
  | PNone
  | PBool (b : bool)
  | PInt (z : Z)
  | PFloat (f : pyfloat)
  | PStr (s : string)
  | PList (l : list pyval)
  | PDict (d : list (string * pyval)).

(** ** Floating point *)

(** Python's [float] is the binary64 format of IEEE 754: 53 significant
    bits, the least positive value 2^-1074, every value below 2^1024, and
    every result rounded to the nearest representable value, to the one
    with the even significand when two are equally near. *)
Module Double.

Definition precision : Z := 53.
Definition emin : Z := -1074.
Definition emax : Z := 1024.

Definition pow2 (e : Z) : Q := (2 ^ e)%Q.

(** The integer part of the binary logarithm of a positive [q]: the
    difference of the bit lengths of numerator and denominator, or one
    less. *)
Definition ilog2 (q : Q) : Z :=
  let k := Z.log2 (Qnum q) - Z.log2 (Zpos (Qden q)) in
  if Qle_bool (pow2 k) q then k else k - 1.

(** The nearest integer, the even one of two equally near. *)
Definition round_half_even (q : Q) : Z :=
  let n := Qfloor q in
  match (q - inject_Z n ?= 1 # 2)%Q with
  | Lt => n
  | Eq => if Z.even n then n else n + 1
  | Gt => n + 1
  end.

(** The exponent of the unit in the last place at a positive [q]: 52
    binary places below its leading bit, and never below [emin]. *)
Definition ulp_exponent (q : Q) : Z :=
  Z.max (ilog2 q - (precision - 1)) emin.

(** The multiple of the unit in the last place nearest to a positive
    [q]. *)
Definition nearest (q : Q) : Q :=
  let e := ulp_exponent q in
  (inject_Z (round_half_even (q / pow2 e)) * pow2 e)%Q.

(** The float that a real result [q] is rounded to: an infinity when the
    nearest value is 2^1024 or beyond. *)
Definition round (q : Q) : pyfloat :=
  match (q ?= 0)%Q with
  | Eq => FFin 0
  | Gt =>
      let r := nearest q in
      if Qle_bool (pow2 emax) r then FInf false else FFin (Qred r)
  | Lt =>
      let r := nearest (- q) in
      if Qle_bool (pow2 emax) r then FInf true else FFin (Qred (- r))
  end.

(** The value of a float literal such as [0.4]. *)
Definition literal (q : Q) : pyfloat := round q.

(** [x * y] *)
Definition mul (x y : pyfloat) : pyfloat :=
  match x, y with
  | FNan, _ | _, FNan => FNan
  | FFin p, FFin q => round (p * q)
  | FInf s, FInf s' => FInf (xorb s s')
  | FInf s, FFin q | FFin q, FInf s =>
      match (q ?= 0)%Q with
      | Eq => FNan
      | Gt => FInf s
      | Lt => FInf (negb s)
      end
  end.

(** [x + y] *)
Definition add (x y : pyfloat) : pyfloat :=
  match x, y with
  | FNan, _ | _, FNan => FNan
  | FInf s, FInf s' => if Bool.eqb s s' then FInf s else FNan
  | FInf s, _ | _, FInf s => FInf s
  | FFin p, FFin q => round (p + q)
  end.

End Double.

Module Py.

(** [type(v).__name__] *)
Definition type_name (v : pyval) : string :=
  match v with
  | PNone => "NoneType"
  | PBool _ => "bool"
  | PInt _ => "int"
  | PFloat _ => "float"
  | PStr _ => "str"
  | PList _ => "list"
  | PDict _ => "dict"
  end.

(** [a < b] on floats; every comparison with nan is false. *)
Definition flt (a b : pyfloat) : bool :=
  match a, b with
  | FNan, _ | _, FNan => false
  | FInf true, FInf true => false
  | FInf true, _ => true
  | _, FInf true => false
  | FInf false, _ => false
  | _, FInf false => true
  | FFin x, FFin y => negb (Qle_bool y x)
  end.

(** [min(a, b)] and [max(a, b)]: the first argument unless the second
    is strictly smaller (larger). *)
Definition min (a b : pyfloat) : pyfloat := if flt b a then b else a.
Definition max (a b : pyfloat) : pyfloat := if flt a b then b else a.

(** Truth value of an object ([bool(x)]). *)
Definition truthy (v : pyval) : bool :=
  match v with
  | PNone => false
  | PBool b => b
  | PInt z => negb (z =? 0)
  | PFloat (FFin q) => negb (Qeq_bool q 0)
  | PFloat _ => true
  | PStr s => negb (String.eqb s "")
  | PList l => match l with [] => false | _ => true end
  | PDict d => match d with [] => false | _ => true end
  end.

Definition is_dict (v : pyval) : bool :=
  match v with PDict _ => true | _ => false end.
Definition is_list (v : pyval) : bool :=
  match v with PList _ => true | _ => false end.
Definition is_str (v : pyval) : bool :=
  match v with PStr _ => true | _ => false end.
(** [isinstance(v, (str, int, float))]; [bool] is a subclass of [int]. *)
Definition is_str_int_float (v : pyval) : bool :=
  match v with PStr _ | PInt _ | PFloat _ | PBool _ => true | _ => false end.

(** [d.get(k)] / [d[k]] on the entries of a dict. *)
Fixpoint lookup (k : string) (d : list (string * pyval)) : option pyval :=
  match d with
  | [] => None
  | (k', v) :: d' => if String.eqb k k' then Some v else lookup k d'
  end.

Definition has_key (k : string) (d : list (string * pyval)) : bool :=
  match lookup k d with Some _ => true | None => false end.

(** [d[k] = v]: an existing key keeps its position, a new one goes
    last. *)
Fixpoint store (k : string) (v : pyval) (d : list (string * pyval))
    : list (string * pyval) :=
  match d with
  | [] => [(k, v)]
  | (k', v') :: d' =>
      if String.eqb k k' then (k, v) :: d' else (k', v') :: store k v d'
  end.

(** [d.get(k, default)] *)
Definition get_default (k : string) (default : pyval)
    (d : list (string * pyval)) : pyval :=
  match lookup k d with Some v => v | None => default end.

End Py.

(** ** difflib.SequenceMatcher *)

(** [SequenceMatcher(None, a, b).ratio()] of Python's standard library
    ([Lib/difflib.py]), which [_merge_chunk_data] calls on two lowercased
    strings.  With [isjunk=None] the junk set is empty, so the two
    junk-extending loops of [find_longest_match] never run; [autojunk] is
    left at its default [True]. *)
Module Difflib.

Local Open Scope nat_scope.

(** [for i, elt in enumerate(b): b2j.setdefault(elt, []).append(i)] *)
Fixpoint index_b (b : list ascii) (i : nat) (b2j : gmap ascii (list nat))
    : gmap ascii (list nat) :=
  match b with
  | [] => b2j
  | elt :: b' =>
      index_b b' (S i) (<[elt := default [] (b2j !! elt) ++ [i]]> b2j)
  end.

(** [__chain_b]: the index of [b], without the popular elements when
    [b] has 200 elements or more. *)
Definition chain_b (b : list ascii) : gmap ascii (list nat) :=
  let b2j := index_b b 0 ∅ in
  let n := length b in
  if 200 <=? n then
    let ntest := n / 100 + 1 in
    filter (λ kv : ascii * list nat, ¬ (ntest < length kv.2)) b2j
  else b2j.

(** A match [(besti, bestj, bestsize)]. *)
Definition block : Type := nat * nat * nat.

(** [j2lenget(j-1, 0)] *)
Definition j2lenget_pred (j2len : gmap nat nat) (j : nat) : nat :=
  match j with
  | 0 => 0
  | S j' => default 0 (j2len !! j')
  end.

(** The inner loop [for j in b2j.get(a[i], nothing)] of
    [find_longest_match]; [i + 1 - k] is [i-k+1]. *)
Fixpoint scan_row (js : list nat) (blo bhi i : nat)
    (j2len newj2len : gmap nat nat) (best : block) : gmap nat nat * block :=
  match js with
  | [] => (newj2len, best)
  | j :: js' =>
      if j <? blo then scan_row js' blo bhi i j2len newj2len best
      else if bhi <=? j then (newj2len, best)
      else
        let k := j2lenget_pred j2len j + 1 in
        let newj2len := <[j := k]> newj2len in
        let best := if best.2 <? k then (i + 1 - k, j + 1 - k, k) else best in
        scan_row js' blo bhi i j2len newj2len best
  end.

(** The outer loop [for i in range(alo, ahi)], over the list of its
    indices. *)
Fixpoint scan_rows (b2j : gmap ascii (list nat)) (a : list ascii)
    (blo bhi : nat) (rows : list nat) (j2len : gmap nat nat) (best : block)
    : block :=
  match rows with
  | [] => best
  | i :: rows' =>
      let js := default [] (a !! i ≫= λ elt, b2j !! elt) in
      let '(newj2len, best) := scan_row js blo bhi i j2len ∅ best in
      scan_rows b2j a blo bhi rows' newj2len best
  end.

(** [while besti > alo and bestj > blo and a[besti-1] == b[bestj-1]] *)
Fixpoint extend_left (a b : list ascii) (alo blo besti bestj bestsize : nat)
    : block :=
  match besti, bestj with
  | S i', S j' =>
      if (alo <? besti) && (blo <? bestj)
         && bool_decide (a !! i' = b !! j')
      then extend_left a b alo blo i' j' (S bestsize)
      else (besti, bestj, bestsize)
  | _, _ => (besti, bestj, bestsize)
  end.

(** [while besti+bestsize < ahi and bestj+bestsize < bhi and
    a[besti+bestsize] == b[bestj+bestsize]]; the loop runs at most
    [ahi - (besti+bestsize)] times, which is the [fuel] it is given. *)
Fixpoint extend_right (fuel : nat) (a b : list ascii)
    (ahi bhi besti bestj bestsize : nat) : block :=
  match fuel with
  | 0 => (besti, bestj, bestsize)
  | S fuel' =>
      if (besti + bestsize <? ahi) && (bestj + bestsize <? bhi)
         && bool_decide (a !! (besti + bestsize) = b !! (bestj + bestsize))
      then extend_right fuel' a b ahi bhi besti bestj (S bestsize)
      else (besti, bestj, bestsize)
  end.

Definition find_longest_match (b2j : gmap ascii (list nat))
    (a b : list ascii) (alo ahi blo bhi : nat) : block :=
  let '(besti, bestj, bestsize) :=
    scan_rows b2j a blo bhi (seq alo (ahi - alo)) ∅ (alo, blo, 0) in
  let '(besti, bestj, bestsize) :=
    extend_left a b alo blo besti bestj bestsize in
  extend_right (ahi - (besti + bestsize)) a b ahi bhi besti bestj bestsize.

(** The [while queue] loop of [get_matching_blocks].  The queue is kept
    with its last element first, so [queue.pop()] takes the head and
    [queue.append] conses.  [None] is a loop cut short by [fuel]. *)
Fixpoint matching_loop (fuel : nat) (b2j : gmap ascii (list nat))
    (a b : list ascii) (queue : list (nat * nat * nat * nat))
    (matching_blocks : list block) : option (list block) :=
  match queue with
  | [] => Some matching_blocks
  | (alo, ahi, blo, bhi) :: queue =>
      match fuel with
      | 0 => None
      | S fuel' =>
          let '(i, j, k) := find_longest_match b2j a b alo ahi blo bhi in
          if k =? 0 then matching_loop fuel' b2j a b queue matching_blocks
          else
            let queue :=
              if (alo <? i) && (blo <? j)
              then (alo, i, blo, j) :: queue else queue in
            let queue :=
              if (i + k <? ahi) && (j + k <? bhi)
              then (i + k, ahi, j + k, bhi) :: queue else queue in
            matching_loop fuel' b2j a b queue (matching_blocks ++ [(i, j, k)])
      end
  end.

(** [get_matching_blocks], before the blocks are sorted and adjacent
    ones are joined (neither changes the sum of the sizes, which is all
    that [ratio] reads).  Every pass of the loop takes one range off the
    queue and puts back at most two that together are shorter by the
    matched block, so [2 * len(a) + 1] passes empty the queue. *)
Definition get_matching_blocks (a b : list ascii) : option (list block) :=
  matching_loop (2 * length a + 1) (chain_b b) a b
                [(0, length a, 0, length b)] [].

(** [sum(triple[-1] for triple in self.get_matching_blocks())] *)
Definition matches (a b : list ascii) : nat :=
  match get_matching_blocks a b with
  | Some blocks => foldr (λ x acc, x.2 + acc) 0 blocks
  | None => 0
  end.

(** [_calculate_ratio(matches, length)], as the exact rational. *)
Definition calculate_ratio (matches length : nat) : Q :=
  match length with
  | 0 => 1%Q
  | S _ => Qmake (2 * Z.of_nat matches) (Pos.of_nat length)
  end.

(** [SequenceMatcher(None, a, b).ratio()] *)
Definition ratio (a b : string) : Q :=
  let a := list_ascii_of_string a in
  let b := list_ascii_of_string b in
  calculate_ratio (matches a b) (length a + length b).

End Difflib.

(** ** langchain's RecursiveCharacterTextSplitter *)

(** [RecursiveCharacterTextSplitter(chunk_size, chunk_overlap).split_text]
    of the langchain library, which [parse_resume] calls to cut the
    resume into chunks.  The other settings are the library's defaults:
    separators ["\n\n", "\n", " ", ""], taken literally, each kept at the
    start of the piece that follows it, [len] as the length function, and
    every chunk stripped of surrounding whitespace. *)
Module TextSplitter.

Definition default_separators : list string :=
  [String "010" (String "010" EmptyString); String "010" EmptyString;
   " "; ""].

Fixpoint rev_string (acc : list ascii) (tail : string) : string :=
  match acc with
  | [] => tail
  | c :: acc' => rev_string acc' (String c tail)
  end.

(** [re.split(separator, text)] for a literal, non-empty separator: the
    pieces between its occurrences, found from left to right.  [skip]
    counts the characters of an occurrence still to pass over and [cur]
    holds the piece being read, last character first. *)
Fixpoint split_on (separator text : string) (skip : nat)
    (cur : list ascii) : list string :=
  match text with
  | EmptyString => [rev_string cur EmptyString]
  | String c rest =>
      match skip with
      | S k => split_on separator rest k cur
      | O =>
          if String.prefix separator text
          then rev_string cur EmptyString
               :: split_on separator rest (String.length separator - 1) []
          else split_on separator rest 0 (c :: cur)
      end
  end.

(** [_split_text_with_regex(text, separator, keep_separator=True)]:
    without a separator the characters of the text; with one, the first
    piece and then every other piece with the separator in front; empty
    strings are dropped. *)
Definition split_text_with_regex (text separator : string) : list string :=
  let splits :=
    match separator with
    | EmptyString =>
        map (fun c => String c EmptyString) (list_ascii_of_string text)
    | _ =>
        match split_on separator text 0 [] with
        | [] => []
        | first :: others =>
            first :: map (fun s => String.append separator s) others
        end
    end in
  List.filter (fun s => negb (String.eqb s "")) splits.

Definition len (s : string) : Z := Z.of_nat (String.length s).

(** [_join_docs(docs, separator)]: [None] for a text that is empty once
    stripped. *)
Definition join_docs (separator : string) (docs : list string)
    : option string :=
  let text := Str.strip (String.concat separator docs) in
  if String.eqb text "" then None else Some text.

Section Merge.

(** [_merge_splits] reads of a split only its length, so the loop is
    written for splits of any type [A] and collects each document as
    the list of the splits joined in it. *)
Context {A : Type} (length_function : A -> Z).
Context (chunk_size chunk_overlap separator_len : Z).

Definition sep_if (b : bool) : Z := if b then separator_len else 0.

Definition nonempty (l : list A) : bool :=
  match l with [] => false | _ => true end.

Definition several (l : list A) : bool :=
  match l with _ :: _ :: _ => true | _ => false end.

(** [while total > chunk_overlap or (total + _len + sep > chunk_size
    and total > 0): total -= ...; current_doc = current_doc[1:]] *)
Fixpoint pop_front (current_doc : list A) (total _len : Z)
    : list A * Z :=
  match current_doc with
  | [] => ([], total)
  | first :: rest =>
      if (chunk_overlap <? total)
         || ((chunk_size <? total + _len + sep_if (nonempty current_doc))
             && (0 <? total))
      then pop_front rest
             (total - (length_function first + sep_if (several current_doc)))
             _len
      else (current_doc, total)
  end.

(** The loop [for d in splits] of [_merge_splits], from the state
    [(docs, current_doc, total)]; the document in progress is added
    at the end. *)
Fixpoint merge_loop (splits : list A) (docs : list (list A))
    (current_doc : list A) (total : Z) : list (list A) :=
  match splits with
  | [] => docs ++ [current_doc]
  | d :: splits' =>
      let _len := length_function d in
      let '(docs, current_doc, total) :=
        if chunk_size <? total + _len + sep_if (nonempty current_doc)
        then
          if nonempty current_doc
          then
            let '(current_doc', total') := pop_front current_doc total _len in
            (docs ++ [current_doc], current_doc', total')
          else (docs, current_doc, total)
        else (docs, current_doc, total) in
      let current_doc := current_doc ++ [d] in
      let total := total + _len + sep_if (several current_doc) in
      merge_loop splits' docs current_doc total
  end.

Definition merge_pieces (splits : list A) : list (list A) :=
  merge_loop splits [] [] 0.

End Merge.

(** [_merge_splits(splits, separator)] *)
Definition merge_splits (chunk_size chunk_overlap : Z)
    (splits : list string) (separator : string) : list string :=
  omap (join_docs separator)
       (merge_pieces len chunk_size chunk_overlap (len separator) splits).

(** The loop over [splits] of [_split_text]: short pieces are collected
    in [_good_splits] and merged, a long piece is split further with
    the separators that remain ([recurse]) or kept whole when none
    remains.  With [keep_separator=True] the pieces are merged with the
    empty separator. *)
Fixpoint split_loop (chunk_size chunk_overlap : Z)
    (recurse : option (string -> list string))
    (splits : list string) (good_splits : list string) : list string :=
  match splits with
  | [] =>
      match good_splits with
      | [] => []
      | _ => merge_splits chunk_size chunk_overlap good_splits ""
      end
  | s :: splits' =>
      if len s <? chunk_size
      then split_loop chunk_size chunk_overlap recurse splits'
                      (good_splits ++ [s])
      else
        let merged :=
          match good_splits with
          | [] => []
          | _ => merge_splits chunk_size chunk_overlap good_splits ""
          end in
        let other_info :=
          match recurse with
          | None => [s]
          | Some split_further => split_further s
          end in
        merged ++ other_info
        ++ split_loop chunk_size chunk_overlap recurse splits' []
  end.

(** [_split_text(text, separators)]: the first separator that is empty
    or occurs in the text is used, and the ones after it are left for
    the pieces that are still too long; when no separator occurs the
    last one is used. *)
Fixpoint split_text_with (chunk_size chunk_overlap : Z)
    (separators : list string) (text : string) : list string :=
  match separators with
  | [] => []
  | _s :: rest =>
      if String.eqb _s ""
      then split_loop chunk_size chunk_overlap None
                      (split_text_with_regex text _s) []
      else if Str.contains _s text
      then
        let recurse :=
          match rest with
          | [] => None
          | _ => Some (split_text_with chunk_size chunk_overlap rest)
          end in
        split_loop chunk_size chunk_overlap recurse
                   (split_text_with_regex text _s) []
      else
        match rest with
        | [] => split_loop chunk_size chunk_overlap None
                           (split_text_with_regex text _s) []
        | _ => split_text_with chunk_size chunk_overlap rest text
        end
  end.

(** [split_text(text)] *)
Definition split_text (chunk_size chunk_overlap : Z) (text : string)
    : list string :=
  split_text_with chunk_size chunk_overlap default_separators text.

End TextSplitter.

(** ** The outside world *)

(** What is sent to [model.generate_content].  The prompt texts are long
    templates; a prompt is identified by the values substituted in it. *)
Inductive prompt :=
  | ChunkPrompt (chunk : string) (chunk_index total_chunks : nat)
                (temperature : Q)
  | FitScorePrompt (job_details parsed_resume : pyval)
  | JobDetailsPrompt (title salary : pyval).

Inductive event :=
  | Slept (usec : Z)              (* time.sleep *)
  | Generated (p : prompt).       (* model.generate_content *)

(** Everything the agents read from outside the repository. *)
Record Env := {
  (** The [n]-th call of [model.generate_content]: the text of the
      response, or the exception raised by the call or by reading
      [response.text]. *)
  generate_content : nat -> result string;
  (** How long the [n]-th call of [generate_content] takes. *)
  latency : nat -> Z;
  (** The [n]-th draw of [random.uniform(0.1, 2.0)], in microseconds. *)
  random_uniform : nat -> Z;
  (** [config.GEMINI_API_KEY], read from the process environment. *)
  GEMINI_API_KEY : option string;
  (** [json.loads] and [json.dumps]. *)
  json_loads : string -> result pyval;
  json_dumps : pyval -> string;
  (** [str(x)] for an [x] that is not a [str]. *)
  py_repr : pyval -> string;
  (** [float(s)] for a [str]; raises [ValueError]. *)
  float_of_str : string -> result pyfloat;
  (** Lines 265-293 of [parse_resume]: the response text stripped, taken
      out of its code fence, with [None] and trailing commas repaired, and
      read by [json.loads] (or, failing that, its outermost braces are);
      raises [json.JSONDecodeError]. *)
  extract_json : string -> result pyval;
  (** [_preprocess_resume_text]: regular-expression rewriting of a
      [str]. *)
  preprocess_resume_text : string -> string;
  (** [JobRoleAgent._parse_unstructured_response(text, title, salary)]:
      line-by-line text heuristics; it catches its own exceptions and
      returns a mapping or [None]. *)
  parse_unstructured_response : string -> pyval -> pyval -> pyval;
  (** The order in which [list(s)] enumerates a [set] of strings, given
      here in sorted order. *)
  list_of_set : list string -> list string
}.

(** The mutable state of a run. *)
Record World := {
  clock : Z;                   (* datetime.now(), microseconds *)
  limiter : RateLimiter.t;     (* the rate limiter of the running method *)
  calls : nat;                 (* calls of generate_content so far *)
  draws : nat;                 (* draws of random.uniform so far *)
  trace : list event           (* what happened, oldest first *)
}.

Definition M (A : Type) : Type := World -> result A * World.

Definition ret {A} (a : A) : M A := fun w => (Return a, w).
Definition raise {A} (e : exn) : M A := fun w => (Raise e, w).
Definition bind {A B} (m : M A) (k : A -> M B) : M B :=
  fun w => match m w with
           | (Return a, w') => k a w'
           | (Raise e, w') => (Raise e, w')
           end.
Definition lift {A} (r : result A) : M A := fun w => (r, w).

(** [try: m  except Exception as e: h e] *)
Definition try_except {A} (m : M A) (h : exn -> M A) : M A :=
  fun w => match m w with
           | (Return a, w') => (Return a, w')
           | (Raise e, w') => h e w'
           end.

(** [try: m  except cls as e: h e], for the classes accepted by [p]. *)
Definition try_except_if {A} (p : exn -> bool) (m : M A) (h : exn -> M A)
    : M A :=
  try_except m (fun e => if p e then h e else raise e).

Definition rbind {A B} (r : result A) (k : A -> result B) : result B :=
  match r with
  | Return a => k a
  | Raise e => Raise e
  end.

Declare Scope monad_scope.
Delimit Scope monad_scope with monad.
Notation "'do' x <- m ; k" := (bind m (fun x => k))
  (at level 10, x name, m at level 100, k at level 200) : monad_scope.
Notation "m ;; k" := (bind m (fun _ => k))
  (at level 100, k at level 200, right associativity) : monad_scope.
Notation "'let?' x := r 'in' k" := (rbind r (fun x => k))
  (at level 10, x name, r at level 100, k at level 200).

(** What a [while] loop ended with. *)
Inductive loop_exit (A : Type) :=
  | Broke (a : A)        (* left by [break], with the value bound in the body *)
  | Ended                (* the condition became false *)
  | OutOfFuel.
Arguments Broke {A} a.
Arguments Ended {A}.
Arguments OutOfFuel {A}.

(** How one pass of a [for] loop ends. *)
Inductive control := Break | Continue.

Section Agents.

Context (env : Env).

Local Open Scope monad_scope.

(** [time.sleep(d)]: the clock advances by the time asked for. *)
Definition sleep (d : Z) : M unit := fun w =>
  (Return tt,
   {| clock := clock w + d; limiter := limiter w; calls := calls w;
      draws := draws w; trace := trace w ++ [Slept d] |}).

(** [self.model.generate_content(prompt, ...)] followed by a read of
    [response.text]. *)
Definition generate (p : prompt) : M string := fun w =>
  (generate_content env (calls w),
   {| clock := clock w + latency env (calls w); limiter := limiter w;
      calls := S (calls w); draws := draws w;
      trace := trace w ++ [Generated p] |}).

(** [rate_limiter = RateLimiter(max_requests=2, time_window=60)] *)
Definition new_rate_limiter (max_requests time_window : Z) : M unit :=
  fun w =>
    (Return tt,
     {| clock := clock w;
        limiter := RateLimiter.init max_requests time_window;
        calls := calls w; draws := draws w; trace := trace w |}).

(** [rate_limiter.wait_if_needed()] on the limiter of the world. *)
Definition wait_if_needed : M unit := fun w =>
  match RateLimiter.wait_if_needed
          (clock w) (random_uniform env (draws w)) (limiter w) with
  | (rl, Return (RateLimiter.Sleep d)) =>
      (Return tt,
       {| clock := clock w + d; limiter := rl; calls := calls w;
          draws := S (draws w); trace := trace w ++ [Slept d] |})
  | (rl, Return RateLimiter.NoSleep) =>
      (Return tt,
       {| clock := clock w; limiter := rl; calls := calls w;
          draws := draws w; trace := trace w |})
  | (rl, Raise e) =>
      (Raise e,
       {| clock := clock w; limiter := rl; calls := calls w;
          draws := draws w; trace := trace w |})
  end.

(** *** Operations on objects *)

(** [str(v)] *)
Definition py_str (v : pyval) : string :=
  match v with
  | PStr s => s
  | _ => py_repr env v
  end.

Definition type_error {A} (msg : string) : result A :=
  Raise (Exn TypeError msg).

(** [AttributeError] for a method that the type of [v] does not have. *)
Definition no_attribute {A} (v : pyval) (name : string) : result A :=
  Raise (Exn AttributeError
           ("'" +:+ Py.type_name v +:+ "' object has no attribute '"
            +:+ name +:+ "'")).

(** [v.get(k, default)]; only a [dict] has the method. *)
Definition py_get (v : pyval) (k : string) (default : pyval)
    : result pyval :=
  match v with
  | PDict d => Return (Py.get_default k default d)
  | _ => no_attribute v "get"
  end.

(** [k in v] for a string [k] *)
Definition py_in (k : string) (v : pyval) : result bool :=
  match v with
  | PDict d => Return (Py.has_key k d)
  | PList l =>
      Return (existsb (fun x => match x with
                                | PStr s => String.eqb s k
                                | _ => false
                                end) l)
  | PStr s => Return (Str.contains k s)
  | _ => type_error ("argument of type '" +:+ Py.type_name v
                     +:+ "' is not iterable")
  end.

(** [v[k]] for a string [k].  [str] of a [KeyError] is the [repr] of
    the key, which for the keys of the source (letters and underscores)
    is the key between single quotes. *)
Definition py_getitem (v : pyval) (k : string) : result pyval :=
  match v with
  | PDict d =>
      match Py.lookup k d with
      | Some x => Return x
      | None => Raise (Exn KeyError ("'" +:+ k +:+ "'"))
      end
  | PList _ => type_error "list indices must be integers or slices, not str"
  | PStr _ => type_error "string indices must be integers, not 'str'"
  | _ => type_error ("'" +:+ Py.type_name v
                     +:+ "' object is not subscriptable")
  end.

(** [v[k] = x] for a string [k]; the result is the object after the
    assignment. *)
Definition py_setitem (v : pyval) (k : string) (x : pyval)
    : result pyval :=
  match v with
  | PDict d => Return (PDict (Py.store k x d))
  | PList _ => type_error "list indices must be integers or slices, not str"
  | _ => type_error ("'" +:+ Py.type_name v
                     +:+ "' object does not support item assignment")
  end.

(** [for x in v]: the elements of a list, the characters of a string,
    the keys of a dict. *)
Definition py_iter (v : pyval) : result (list pyval) :=
  match v with
  | PList l => Return l
  | PStr s =>
      Return (map (fun c => PStr (String c EmptyString))
                  (list_ascii_of_string s))
  | PDict d => Return (map (fun kv => PStr (fst kv)) d)
  | _ => type_error ("'" +:+ Py.type_name v +:+ "' object is not iterable")
  end.

(** [len(v)] *)
Definition py_len (v : pyval) : result Z :=
  match v with
  | PList l => Return (Z.of_nat (List.length l))
  | PStr s => Return (Z.of_nat (String.length s))
  | PDict d => Return (Z.of_nat (List.length d))
  | _ => type_error ("object of type '" +:+ Py.type_name v
                     +:+ "' has no len()")
  end.

(** The float of an [int]: the nearest one, and none when that is 2**1024
    or beyond, which is so from 2**1024 - 2**970 on. *)
Definition float_of_int (z : Z) : result pyfloat :=
  match Double.round (inject_Z z) with
  | FInf _ => Raise (Exn OverflowError "int too large to convert to float")
  | x => Return x
  end.

(** [float(v)] *)
Definition py_float (v : pyval) : result pyfloat :=
  match v with
  | PFloat f => Return f
  | PInt z => float_of_int z
  | PBool b => Return (FFin (if b then 1 else 0)%Q)
  | PStr s => float_of_str env s
  | _ => type_error ("float() argument must be a string or a real number, not '"
                     +:+ Py.type_name v +:+ "'")
  end.

(** [v > 100] *)
Definition py_gt_100 (v : pyval) : result bool :=
  match v with
  | PFloat f => Return (Py.flt (FFin 100) f)
  | PInt z => Return (100 <? z)
  | PBool _ => Return false
  | _ => type_error ("'>' not supported between instances of '"
                     +:+ Py.type_name v +:+ "' and 'int'")
  end.

(** [c * v] for a float [c]: an [int] or a [bool] is converted first. *)
Definition py_scale (c : pyfloat) (v : pyval) : result pyfloat :=
  match v with
  | PFloat f => Return (Double.mul c f)
  | PInt z =>
      let? x := float_of_int z in
      Return (Double.mul c x)
  | PBool b => Return (Double.mul c (FFin (if b then 1 else 0)))
  | PStr _ | PList _ =>
      type_error "can't multiply sequence by non-int of type 'float'"
  | _ => type_error ("unsupported operand type(s) for *: 'float' and '"
                     +:+ Py.type_name v +:+ "'")
  end.

(** *** _validate_chunk_info *)

(** [[str(r).strip() for r in items if r and str(r).strip()]] *)
Definition strip_nonempty (items : list pyval) : list pyval :=
  map (fun r => PStr (Str.strip (py_str r)))
      (List.filter (fun r => Py.truthy r
                             && Py.truthy (PStr (Str.strip (py_str r))))
                   items).

(** [str(d.get(k, '')).strip()] *)
Definition stripped_field (d : list (string * pyval)) (k : string)
    : string :=
  Str.strip (py_str (Py.get_default k (PStr "") d)).

Definition clean_education_entry (edu : pyval) : option pyval :=
  match edu with
  | PDict d =>
      let degree := stripped_field d "degree" in
      let institution := stripped_field d "institution" in
      let year := stripped_field d "year" in
      if Py.truthy (PStr degree) || Py.truthy (PStr institution)
      then Some (PDict [("degree", PStr degree);
                        ("institution", PStr institution);
                        ("year", PStr year)])
      else None
  | _ => None
  end.

Definition clean_skill_entry (skill : pyval) : option pyval :=
  if Py.truthy skill && Py.is_str_int_float skill then
    let cleaned_skill := Str.strip (py_str skill) in
    if Py.truthy (PStr cleaned_skill) then Some (PStr cleaned_skill)
    else None
  else None.

(** The list stored under [k] when [k in d and isinstance(d[k], list)],
    cleaned; the empty list otherwise. *)
Definition cleaned_sublist (d : list (string * pyval)) (k : string)
    : list pyval :=
  match Py.lookup k d with
  | Some (PList l) => strip_nonempty l
  | _ => []
  end.

Definition clean_experience_entry (exp : pyval) : option pyval :=
  match exp with
  | PDict d =>
      let title := stripped_field d "title" in
      let company := stripped_field d "company" in
      let duration := stripped_field d "duration" in
      let responsibilities := cleaned_sublist d "responsibilities" in
      if Py.truthy (PStr title) || Py.truthy (PStr company)
      then Some (PDict [("title", PStr title);
                        ("company", PStr company);
                        ("duration", PStr duration);
                        ("responsibilities", PList responsibilities)])
      else None
  | _ => None
  end.

Definition clean_project_entry (proj : pyval) : option pyval :=
  match proj with
  | PDict d =>
      let name := stripped_field d "name" in
      let description := stripped_field d "description" in
      let technologies := cleaned_sublist d "technologies" in
      if Py.truthy (PStr name) || Py.truthy (PStr description)
      then Some (PDict [("name", PStr name);
                        ("description", PStr description);
                        ("technologies", PList technologies)])
      else None
  | _ => None
  end.

(** One of the four cleaning loops: the entries kept, in order. *)
Definition clean_entries (clean : pyval -> option pyval)
    (entries : list pyval) : list pyval :=
  omap clean entries.

Definition section_keys : list string :=
  ["education"; "skills"; "experience"; "projects"].

(** [if key not in chunk_info: chunk_info[key] = []
     elif not isinstance(chunk_info[key], list): chunk_info[key] = []] *)
Definition ensure_list (d : list (string * pyval)) (key : string)
    : list (string * pyval) :=
  match Py.lookup key d with
  | Some (PList _) => d
  | _ => Py.store key (PList []) d
  end.

(** The list under [key] of a dict that went through [ensure_list]. *)
Definition section_of (d : list (string * pyval)) (key : string)
    : list pyval :=
  match Py.lookup key d with
  | Some (PList l) => l
  | _ => []
  end.

(** [_validate_chunk_info(chunk_info)]: the object [chunk_info] after
    the call, which rewrites it in place, and the value returned. *)
Definition validate_chunk_info (chunk_info : pyval) : pyval * bool :=
  match chunk_info with
  | PDict d =>
      let d := fold_left ensure_list section_keys d in
      let cleaned_education :=
        clean_entries clean_education_entry (section_of d "education") in
      let d := Py.store "education" (PList cleaned_education) d in
      let cleaned_skills :=
        clean_entries clean_skill_entry (section_of d "skills") in
      let d := Py.store "skills" (PList cleaned_skills) d in
      let cleaned_experience :=
        clean_entries clean_experience_entry (section_of d "experience") in
      let d := Py.store "experience" (PList cleaned_experience) d in
      let cleaned_projects :=
        clean_entries clean_project_entry (section_of d "projects") in
      let d := Py.store "projects" (PList cleaned_projects) d in
      (* valid_items_found is set whenever an entry is appended to one
         of the four cleaned lists *)
      let valid_items_found :=
        Py.truthy (PList cleaned_education)
        || Py.truthy (PList cleaned_skills)
        || Py.truthy (PList cleaned_experience)
        || Py.truthy (PList cleaned_projects) in
      (PDict d, valid_items_found)
  | _ => (chunk_info, false)
  end.

(** *** _merge_chunk_data *)

(** The threshold of the duplicate test, the literal [0.8].  The test
    [similarity > 0.8] is decided on the exact ratio [2*M/T]: the double
    nearest to 4/5 is the literal itself, and a ratio above 4/5 whose
    denominator [T] is below [2^50] is rounded to a double above it, so
    the two tests agree on any pair of strings that fits in memory. *)
Definition similarity_threshold : Q := 8 # 10.

(** [json.dumps(item) if isinstance(item, dict) else item] *)
Definition comparable (item : pyval) : pyval :=
  match item with
  | PDict _ => PStr (json_dumps env item)
  | _ => item
  end.

(** [v.lower()]; only a [str] has the method. *)
Definition py_lower (v : pyval) : result string :=
  match v with
  | PStr s => Return (Str.lower s)
  | _ => no_attribute v "lower"
  end.

(** [SequenceMatcher(None, new_str.lower(), existing_str.lower()).ratio()] *)
Definition similarity (new_str existing_str : pyval) : result Q :=
  let? a := py_lower new_str in
  let? b := py_lower existing_str in
  Return (Difflib.ratio a b).

(** The inner loop over [existing_items]: whether it ends with
    [should_add = False]. *)
Fixpoint is_duplicate (new_str : pyval) (existing_items : list pyval)
    : result bool :=
  match existing_items with
  | [] => Return false
  | existing_item :: rest =>
      let existing_str := comparable existing_item in
      let? similarity := similarity new_str existing_str in
      if negb (Qle_bool similarity similarity_threshold)   (* similarity > 0.8 *)
      then Return true
      else is_duplicate new_str rest
  end.

(** [_merge_chunk_data(existing_items, new_items)]: the list
    [existing_items] after the call, which appends to it in place, and
    whether the call returned or raised. *)
Fixpoint merge_chunk_data (existing_items new_items : list pyval)
    : list pyval * result unit :=
  match new_items with
  | [] => (existing_items, Return tt)
  | new_item :: rest =>
      let new_str := comparable new_item in
      match is_duplicate new_str existing_items with
      | Raise e => (existing_items, Raise e)
      | Return true => merge_chunk_data existing_items rest
      | Return false => merge_chunk_data (existing_items ++ [new_item]) rest
      end
  end.

(** *** _clean_combined_info *)

(** [all(k in d for k in keys)] *)
Definition has_keys (keys : list string) (d : list (string * pyval))
    : bool :=
  forallb (fun k => Py.has_key k d) keys.

(** [str(d[k]).strip()] for a key that is present *)
Definition stripped_item (d : list (string * pyval)) (k : string)
    : pyval :=
  PStr (Str.strip (py_str (Py.get_default k PNone d))).

(** [[str(r).strip() for r in v if r and isinstance(r, str)]] *)
Definition strip_strs (v : pyval) : result (list pyval) :=
  let? items := py_iter v in
  Return (map (fun r => PStr (Str.strip (py_str r)))
              (List.filter (fun r => Py.truthy r && Py.is_str r) items)).

Fixpoint clean_education (entries : list pyval) : list pyval :=
  match entries with
  | [] => []
  | edu :: rest =>
      match edu with
      | PDict d =>
          if has_keys ["degree"; "institution"; "year"] d
          then PDict [("degree", stripped_item d "degree");
                      ("institution", stripped_item d "institution");
                      ("year", stripped_item d "year")]
               :: clean_education rest
          else clean_education rest
      | _ => clean_education rest
      end
  end.

(** Insertion into a sorted list without repetitions. *)
Fixpoint insert_sorted (s : string) (l : list string) : list string :=
  match l with
  | [] => [s]
  | x :: l' =>
      match String.compare s x with
      | Lt => s :: l
      | Eq => l
      | Gt => x :: insert_sorted s l'
      end
  end.

(** [sorted(list(set(l)))] *)
Definition sorted_set (l : list string) : list string :=
  fold_right insert_sorted [] l.

(** The strings added to [skills_set]. *)
Definition skill_strings (entries : list pyval) : list string :=
  omap (fun skill => match skill with
                     | PStr s => if Py.truthy skill
                                 then Some (Str.strip s) else None
                     | _ => None
                     end) entries.

Definition clean_skills (entries : list pyval) : list pyval :=
  map PStr (sorted_set (skill_strings entries)).

Fixpoint clean_experience (entries : list pyval)
    : result (list pyval) :=
  match entries with
  | [] => Return []
  | exp :: rest =>
      match exp with
      | PDict d =>
          if has_keys ["title"; "company"; "duration"; "responsibilities"] d
          then
            let? responsibilities :=
              strip_strs (Py.get_default "responsibilities" PNone d) in
            let cleaned_exp :=
              PDict [("title", stripped_item d "title");
                     ("company", stripped_item d "company");
                     ("duration", stripped_item d "duration");
                     ("responsibilities", PList responsibilities)] in
            let? cleaned := clean_experience rest in
            Return (if Py.truthy (PList responsibilities)
                    then cleaned_exp :: cleaned else cleaned)
          else clean_experience rest
      | _ => clean_experience rest
      end
  end.

Fixpoint clean_projects (entries : list pyval) : result (list pyval) :=
  match entries with
  | [] => Return []
  | proj :: rest =>
      match proj with
      | PDict d =>
          if has_keys ["name"; "description"; "technologies"] d
          then
            let? technologies :=
              strip_strs (Py.get_default "technologies" PNone d) in
            let cleaned_proj :=
              PDict [("name", stripped_item d "name");
                     ("description", stripped_item d "description");
                     ("technologies", PList technologies)] in
            let? cleaned := clean_projects rest in
            Return (if Py.truthy (PList technologies)
                    then cleaned_proj :: cleaned else cleaned)
          else clean_projects rest
      | _ => clean_projects rest
      end
  end.

(** The accumulator of [parse_resume]: the dict [combined_info] with
    its four lists. *)
Definition accumulator (education skills experience projects : list pyval)
    : list (string * pyval) :=
  [("education", PList education); ("skills", PList skills);
   ("experience", PList experience); ("projects", PList projects)].

(** [for x in combined_info.get(key, [])] *)
Definition entries_of (combined_info : list (string * pyval))
    (key : string) : result (list pyval) :=
  py_iter (Py.get_default key (PList []) combined_info).

(** [_clean_combined_info(combined_info)] *)
Definition clean_combined_info (combined_info : list (string * pyval))
    : result (list (string * pyval)) :=
  let? education := entries_of combined_info "education" in
  let cleaned_education := clean_education education in
  let? skills := entries_of combined_info "skills" in
  let cleaned_skills := clean_skills skills in
  let? experience := entries_of combined_info "experience" in
  let? cleaned_experience := clean_experience experience in
  let? projects := entries_of combined_info "projects" in
  let? cleaned_projects := clean_projects projects in
  Return (accumulator cleaned_education cleaned_skills
                      cleaned_experience cleaned_projects).

(** *** _is_valid_result *)

Definition placeholder_education : pyval :=
  PDict [("degree", PStr "Not Specified");
         ("institution", PStr "Not Specified");
         ("year", PStr "Not Specified")].

Definition placeholder_skill : pyval := PStr "General Skills".

Definition placeholder_experience : pyval :=
  PDict [("title", PStr "Not Specified");
         ("company", PStr "Not Specified");
         ("duration", PStr "Not Specified");
         ("responsibilities", PList [PStr "Not Specified"])].

Definition placeholder_project : pyval :=
  PDict [("name", PStr "Not Specified");
         ("description", PStr "Not Specified");
         ("technologies", PList [PStr "Not Specified"])].

(** [if key not in cleaned_info or not cleaned_info[key]:
       cleaned_info[key] = [placeholder]] *)
Definition fill_section (key : string) (placeholder : pyval)
    (cleaned_info : list (string * pyval)) : list (string * pyval) :=
  match Py.lookup key cleaned_info with
  | Some v =>
      if Py.truthy v then cleaned_info
      else Py.store key (PList [placeholder]) cleaned_info
  | None => Py.store key (PList [placeholder]) cleaned_info
  end.

(** The four substitutions, on the dict the local name [cleaned_info]
    is bound to. *)
Definition fill_sections (cleaned_info : list (string * pyval))
    : list (string * pyval) :=
  fill_section "projects" placeholder_project
    (fill_section "experience" placeholder_experience
       (fill_section "skills" placeholder_skill
          (fill_section "education" placeholder_education cleaned_info))).

(** [_is_valid_result(cleaned_info)]: the caller's dict after the call,
    and the value returned.  An empty dict is falsy: the local name is
    then rebound to a fresh [{}] and the caller's dict stays as it
    was. *)
Definition is_valid_result (cleaned_info : list (string * pyval))
    : list (string * pyval) * bool :=
  if Py.truthy (PDict cleaned_info)
  then (fill_sections cleaned_info, true)
  else (cleaned_info, true).

(** Finalization: [cleaned_info = self._clean_combined_info(combined_info)]
    followed by [self._is_valid_result(cleaned_info)]. *)
Definition finalize (combined_info : list (string * pyval))
    : result (list (string * pyval)) :=
  let? cleaned_info := clean_combined_info combined_info in
  Return (fst (is_valid_result cleaned_info)).

(** *** The retry loop *)

Definition max_retries : Z := 3.

(** The decimal numeral of [f"{n}"]. *)
Definition string_of_Z (n : Z) : string :=
  DecimalString.NilZero.string_of_int (Z.to_int n).

(** [ValueError(f"Failed to get response after {max_retries} retries")] *)
Definition retries_exhausted : exn :=
  Exn ValueError
      ("Failed to get response after " +:+ string_of_Z max_retries
       +:+ " retries").

(** The cooldown [time.sleep(35)]. *)
Definition cooldown : Z := seconds 35.

(** [[
    while retry_count < max_retries:
        try:
            <attempt>
            break
        except Exception as api_error:
            retry_count += 1
            if "429" in str(api_error) and retry_count < max_retries:
                time.sleep(35)
                continue
            elif retry_count == max_retries:
                raise ValueError(f"Failed to get response after {max_retries} retries")
            else:
                raise
    ]]
    as it stands in [generate_job_details] and in [calculate_fit_score],
    which differ in the attempt. *)
Fixpoint retry_loop {A} (fuel : nat) (attempt : M A) (retry_count : Z)
    : M (loop_exit A) :=
  if retry_count <? max_retries then
    match fuel with
    | O => ret OutOfFuel
    | S fuel' =>
        try_except
          (do a <- attempt; ret (Broke a))
          (fun api_error =>
             let retry_count := retry_count + 1 in
             if Str.contains "429" (exn_str api_error)
                && (retry_count <? max_retries)
             then sleep cooldown ;; retry_loop fuel' attempt retry_count
             else if retry_count =? max_retries
             then raise retries_exhausted
             else raise api_error)
    end
  else ret Ended.

(** The loop from [retry_count = 0], and the read of the variable the
    attempt binds: it is unbound when the loop ends without [break].  The
    message of that [UnboundLocalError] names the variable, [scores] in
    one method and [response] in the other, and is cut short here; the
    loop never ends that way ([retry_loop_breaks_or_raises]). *)
Definition with_retries {A} (attempt : M A) : M A :=
  do exit <- retry_loop (Z.to_nat max_retries) attempt 0;
  match exit with
  | Broke a => ret a
  | Ended | OutOfFuel =>
      raise (Exn OtherError "cannot access local variable")
  end.

(** *** calculate_fit_score *)

Definition score_fields : list string :=
  ["skill_match_score"; "experience_relevance_score";
   "education_alignment_score"; "overall_fit_score"].

Definition required_fields : list string := score_fields ++ ["reasoning"].

(** The mapping returned by four of the five exits. *)
Definition flat_scores (score : Q) (reasoning : string) : pyval :=
  PDict [("skill_match_score", PFloat (FFin score));
         ("experience_relevance_score", PFloat (FFin score));
         ("education_alignment_score", PFloat (FFin score));
         ("overall_fit_score", PFloat (FFin score));
         ("reasoning", PStr reasoning)].

Definition minimal_scores : pyval :=
  flat_scores 5 "Resume parsing failed or insufficient information provided".

(** [max(0.0, min(100.0, x))] *)
Definition clamp (x : pyfloat) : pyfloat :=
  Py.max (FFin 0) (Py.min (FFin 100) x).

(** The body of [for field in required_fields]. *)
Definition normalize_field (scores : pyval) (field : string)
    : result pyval :=
  let? present := py_in field scores in
  if negb present then
    py_setitem scores field
      (if String.eqb field "reasoning"
       then PStr "Score calculation incomplete"
       else PFloat (FFin 15))
  else if negb (String.eqb field "reasoning") then
    match (let? raw := py_getitem scores field in
           let? x := py_float raw in
           let? scores := py_setitem scores field (PFloat x) in
           py_setitem scores field (PFloat (clamp x))) with
    | Return scores => Return scores
    | Raise e =>
        if is_ValueError_or_TypeError e
        then py_setitem scores field (PFloat (FFin 15))
        else Raise e
    end
  else Return scores.

Fixpoint normalize_fields (scores : pyval) (fields : list string)
    : result pyval :=
  match fields with
  | [] => Return scores
  | field :: rest =>
      let? scores := normalize_field scores field in
      normalize_fields scores rest
  end.

(** [0.4 * scores['skill_match_score'] + 0.4 * scores['experience_relevance_score']
     + 0.2 * scores['education_alignment_score']] *)
Definition weighted_average (scores : pyval) : result pyfloat :=
  let? skill := py_getitem scores "skill_match_score" in
  let? a := py_scale (Double.literal (4 # 10)) skill in
  let? experience := py_getitem scores "experience_relevance_score" in
  let? b := py_scale (Double.literal (4 # 10)) experience in
  let? education := py_getitem scores "education_alignment_score" in
  let? c := py_scale (Double.literal (2 # 10)) education in
  Return (Double.add (Double.add a b) c).

(** "Validate and normalize scores" and "Calculate weighted average if
    not provided". *)
Definition normalize_scores (scores : pyval) : result pyval :=
  let? scores := normalize_fields scores required_fields in
  let? overall := py_getitem scores "overall_fit_score" in
  let? recompute :=
    (if negb (Py.truthy overall) then Return true else py_gt_100 overall) in
  if recompute then
    let? average := weighted_average scores in
    py_setitem scores "overall_fit_score" (PFloat average)
  else Return scores.

(** One attempt of the scoring loop. *)
Definition score_attempt (p : prompt) : M pyval :=
  wait_if_needed ;;
  do text <- generate p;
  lift (json_loads env text).

(** [calculate_fit_score(parsed_resume, job_details)] *)
Definition calculate_fit_score (parsed_resume job_details : pyval)
    : M pyval :=
  try_except
    (do skills <- lift (py_get parsed_resume "skills" PNone);
     do skip <-
       (if negb (Py.truthy skills)
        then do experience <- lift (py_get parsed_resume "experience" PNone);
             ret (negb (Py.truthy experience))
        else ret false);
     if skip then ret minimal_scores
     else
       try_except
         (do scores <- with_retries
                         (score_attempt
                            (FitScorePrompt job_details parsed_resume));
          lift (normalize_scores scores))
         (fun e =>
            if is_JSONDecodeError e
            then ret (flat_scores 15
                        ("Score parsing failed: " +:+ exn_str e))
            else ret (flat_scores 10
                        ("Score calculation error: " +:+ exn_str e))))
    (fun e => ret (flat_scores 5 ("Fatal scoring error: " +:+ exn_str e))).

(** *** generate_job_details *)

Definition job_fields : list string :=
  ["description"; "responsibilities"; "required_skills"; "qualifications"].

(** One attempt of the generation loop. *)
Definition job_attempt (p : prompt) : M string :=
  wait_if_needed ;;
  do text <- generate p;
  if negb (Py.truthy (PStr text))
  then raise (Exn ValueError "Empty response from Gemini AI")
  else ret text.

(** The body of [for field in required_fields]. *)
Definition check_job_field (job_details : pyval) (field : string)
    : result unit :=
  let? present := py_in field job_details in
  if negb present
  then Raise (Exn ValueError ("Missing required field: " +:+ field))
  else if String.eqb field "description" then Return tt
  else
    let? value := py_getitem job_details field in
    if negb (Py.is_list value)
    then Raise (Exn ValueError
                  ("Field '" +:+ field +:+ "' must be a non-empty array"))
    else
      let? n := py_len value in
      if n <? 1
      then Raise (Exn ValueError
                    ("Field '" +:+ field +:+ "' must be a non-empty array"))
      else Return tt.

Fixpoint check_job_fields (job_details : pyval) (fields : list string)
    : result unit :=
  match fields with
  | [] => Return tt
  | field :: rest =>
      let? _ := check_job_field job_details field in
      check_job_fields job_details rest
  end.

(** The mapping returned when anything in the body raised. *)
Definition job_error (e : exn) : pyval :=
  PDict [("status", PStr "error");
         ("error", PStr ("Error generating job details: " +:+ exn_str e))].

(** The body of the [try] of [generate_job_details]. *)
Definition job_body (title salary : pyval) : M pyval :=
  match GEMINI_API_KEY env with
  | None | Some EmptyString =>
      raise (Exn ValueError
               "Gemini API key is not configured. Please check your .env file.")
  | Some _ =>
      new_rate_limiter 2 60 ;;
      do text <- with_retries (job_attempt (JobDetailsPrompt title salary));
      try_except_if is_JSONDecodeError
        (do job_details <- lift (json_loads env text);
         lift (check_job_fields job_details job_fields) ;;
         ret job_details)
        (fun _ =>
           let structured_response :=
             parse_unstructured_response env text title salary in
           if negb (Py.truthy structured_response)
           then raise (Exn ValueError
                         "Failed to parse response into required structure")
           else ret structured_response)
  end.

(** [generate_job_details(title, salary)] *)
Definition generate_job_details (title salary : pyval) : M pyval :=
  try_except (job_body title salary) (fun e => ret (job_error e)).

(** *** parse_resume *)

Definition chunk_size : Z := 1000.
Definition chunk_overlap : Z := 100.

(** [self.text_splitter.split_text(resume_text)] *)
Definition split_resume (resume_text : string) : list string :=
  TextSplitter.split_text chunk_size chunk_overlap resume_text.

Definition temperatures : list Q := [3 # 10; 5 # 10; 7 # 10].

(** [sum(len(chunk_info[k]) for k in chunk_info)], evaluated for the
    "Found: ... items" message. *)
Definition count_items (chunk_info : pyval) : result Z :=
  let? keys := py_iter chunk_info in
  fold_left (fun acc k =>
               let? total := acc in
               let? v := py_getitem chunk_info (py_str k) in
               let? n := py_len v in
               Return (total + n))
            keys (Return 0).

(** One pass of the temperature loop: how it ends and the value of
    [chunk_info] after it.  [chunk_info] is assigned when the response
    is read as JSON and rewritten by the validation; an exception raised
    after that leaves it assigned. *)
Definition chunk_attempt (p : prompt) (chunk_info : pyval)
    : M (control * pyval) :=
  try_except
    (wait_if_needed ;;
     do response <-
       try_except
         (do text <- generate p;
          ret (if Py.truthy (PStr text) then Some text else None))
         (fun api_error =>
            if Str.contains "429" (exn_str api_error)
            then sleep cooldown ;; ret None
            else raise api_error);
     match response with
     | None => ret (Continue, chunk_info)
     | Some text =>
         match extract_json env text with
         | Raise je =>
             if is_JSONDecodeError je
             then ret (Continue, chunk_info)
             else raise je
         | Return parsed =>
             let '(chunk_info, valid) := validate_chunk_info parsed in
             if valid then
               match count_items chunk_info with
               | Return _ => ret (Break, chunk_info)
               | Raise _ => ret (Continue, chunk_info)
               end
             else ret (Continue, chunk_info)
         end
     end)
    (fun _ => ret (Continue, chunk_info)).

(** [for temp in temperatures] *)
Fixpoint try_temperatures (chunk : string) (i total : nat)
    (temps : list Q) (chunk_info : pyval) : M pyval :=
  match temps with
  | [] => ret chunk_info
  | temp :: rest =>
      do out <- chunk_attempt (ChunkPrompt chunk i total temp) chunk_info;
      match out with
      | (Break, chunk_info) => ret chunk_info
      | (Continue, chunk_info) =>
          try_temperatures chunk i total rest chunk_info
      end
  end.

(** [[
    for key in combined_info:
        if key in chunk_info and isinstance(chunk_info[key], list):
            self._merge_chunk_data(combined_info[key], chunk_info[key])
    ]] *)
Fixpoint merge_sections (keys : list string)
    (combined_info : list (string * pyval)) (chunk_info : pyval)
    : result (list (string * pyval)) :=
  match keys with
  | [] => Return combined_info
  | key :: rest =>
      let? present := py_in key chunk_info in
      let? combined_info :=
        (if present then
           let? new_items := py_getitem chunk_info key in
           match new_items with
           | PList new_items =>
               match merge_chunk_data (section_of combined_info key)
                                      new_items with
               | (merged, Return _) =>
                   Return (Py.store key (PList merged) combined_info)
               | (_, Raise e) => Raise e
               end
           | _ => Return combined_info
           end
         else Return combined_info) in
      merge_sections rest combined_info chunk_info
  end.

(** [for i, chunk in enumerate(chunks)] *)
Fixpoint process_chunks (chunks : list string) (i total : nat)
    (combined_info : list (string * pyval))
    : M (list (string * pyval)) :=
  match chunks with
  | [] => ret combined_info
  | chunk :: rest =>
      do chunk_info <- try_temperatures chunk i total temperatures PNone;
      do combined_info <-
        (if Py.truthy chunk_info
         then lift (merge_sections section_keys combined_info chunk_info)
         else ret combined_info);
      process_chunks rest (S i) total combined_info
  end.

Definition common_skills : list string :=
  ["agile"; "analysis"; "c++"; "communication"; "database"; "design";
   "development"; "java"; "javascript"; "leadership"; "management";
   "programming"; "project"; "python"; "research"; "sql"; "team";
   "testing"; "web"].

(** [words.intersection(common_skills)], in sorted order *)
Definition found_skills (resume_text : string) : list string :=
  let words := Str.split_ws (Str.lower resume_text) [] in
  List.filter (fun skill => existsb (String.eqb skill) words) common_skills.

(** "Extract any text-based skills if we don't have many" *)
Definition extend_skills (resume_text : string)
    (cleaned_info : list (string * pyval)) : result (list (string * pyval)) :=
  let? skills := py_getitem (PDict cleaned_info) "skills" in
  let? n := py_len skills in
  if n <? 3 then
    match found_skills resume_text, skills with
    | [], _ => Return cleaned_info
    | found, PList l =>
        Return (Py.store "skills"
                         (PList (l ++ map PStr (list_of_set env found)))
                         cleaned_info)
    | _, _ => no_attribute skills "extend"
    end
  else Return cleaned_info.

(** The mapping returned when anything in the body raised. *)
Definition parsing_failure (e : exn) : pyval :=
  PDict [("education", PList []); ("skills", PList []);
         ("experience", PList []); ("projects", PList []);
         ("parsing_error", PStr (exn_str e))].

(** The body of the [try] of [parse_resume]. *)
Definition parse_body (resume_text : string) : M pyval :=
  let resume_text := preprocess_resume_text env resume_text in
  let chunks := split_resume resume_text in
  do combined_info <-
    process_chunks chunks 0 (List.length chunks) (accumulator [] [] [] []);
  do cleaned_info <- lift (finalize combined_info);
  do cleaned_info <- lift (extend_skills resume_text cleaned_info);
  ret (PDict cleaned_info).

(** [parse_resume(resume_text)] for a [str] *)
Definition parse_resume (resume_text : string) : M pyval :=
  if Str.blank resume_text
  then raise (Exn ValueError "Resume text is empty or invalid")
  else try_except (parse_body resume_text)
                  (fun e => ret (parsing_failure e)).

End Agents.

(** ** The retry wrapper as the specification words it *)

Section RetrySpec.

Context {A : Type} (attempt : M A).

Local Open Scope monad_scope.

Definition rate_exceeded (e : exn) : bool := Str.contains "429" (exn_str e).

(** "Attempt the call; on a rate-exceeded signal sleep the cooldown and
    retry; on any other failure propagate immediately; after the fixed
    number of attempts with no success fail with the retries-exhausted
    error." *)
Fixpoint retry_as_claimed (attempts_left : nat) : M A :=
  match attempts_left with
  | O => raise retries_exhausted
  | S n =>
      try_except attempt
        (fun e =>
           if rate_exceeded e then
             match n with
             | O => raise retries_exhausted
             | S _ => sleep cooldown ;; retry_as_claimed n
             end
           else raise e)
  end.

(** The same wrapper with the last attempt singled out: whatever fails
    there, the error is the retries-exhausted one. *)
Fixpoint retry_amended (attempts_left : nat) : M A :=
  match attempts_left with
  | O => raise (Exn OtherError "cannot access local variable")
  | S n =>
      try_except attempt
        (fun e =>
           match n with
           | O => raise retries_exhausted
           | S _ =>
               if rate_exceeded e
               then sleep cooldown ;; retry_amended n
               else raise e
           end)
  end.

End RetrySpec.

(** ** Concrete worlds *)

(** The clock at zero and an empty limiter for two requests a minute. *)
Definition fresh_world : World :=
  {| clock := 0; limiter := RateLimiter.init 2 60; calls := 0; draws := 0;
     trace := [] |}.

Definition decode_error : exn :=
  Exn JSONDecodeError "Expecting value: line 1 column 1 (char 0)".

(** An environment in which the generation service answers the calls with
    the [outcomes] listed (and is unavailable afterwards) and every
    response text is read as the JSON value [decoded]. *)
Definition scripted_env (outcomes : list (result string))
    (decoded : result pyval) : Env :=
  {| generate_content :=
       fun n => nth n outcomes (Raise (Exn OtherError "503 Service Unavailable"));
     latency := fun _ => 250000;
     random_uniform := fun _ => 100000;
     GEMINI_API_KEY := Some "test-key";
     json_loads := fun _ => decoded;
     json_dumps := fun _ => "{}";
     py_repr := fun _ => "None";
     float_of_str := fun _ => Raise (Exn ValueError "could not convert string to float");
     extract_json := fun _ => decoded;
     preprocess_resume_text := Str.strip;
     parse_unstructured_response := fun _ _ _ => PNone;
     list_of_set := fun l => l |}.

Definition rate_limited : result string :=
  Raise (Exn OtherError "429 Resource has been exhausted (e.g. check quota).").

Definition server_error : exn :=
  Exn OtherError "500 An internal error has occurred.".

(** A text of 2500 characters with one space in it. *)
Definition two_long_words : string :=
  Str.replicate 1249 "a" +:+ " " +:+ Str.replicate 1250 "a".

(** A text of 2500 characters without a separator. *)
Definition one_long_word : string := Str.replicate 2500 "a".

(** ** Vocabulary of the statements *)

(** The string of one character. *)
Definition single (c : ascii) : string := String c EmptyString.

(** The field [field] of the mapping [d] is a float between 0 and 100. *)
Definition score_ok (d : list (string * pyval)) (field : string) : Prop :=
  exists q, Py.lookup field d = Some (PFloat (FFin q)) /\ (0 <= q <= 100)%Q.

(** A run that returned a mapping whose four scores are in range. *)
Definition scores_returned (r : result pyval * World) : Prop :=
  exists d w', r = (Return (PDict d), w') /\ Forall (score_ok d) score_fields.

(** The entry [v], when it is a dict with the key [k], has a list under
    [k]: what [_validate_chunk_info] leaves under [responsibilities] and
    [technologies]. *)
Definition list_field (k : string) (v : pyval) : bool :=
  match v with
  | PDict d =>
      match Py.lookup k d with
      | Some (PList _) | None => true
      | Some _ => false
      end
  | _ => true
  end.

(** An entry that [_merge_chunk_data] can compare: a [str] or a [dict]. *)
Definition mergeable (v : pyval) : bool := Py.is_str v || Py.is_dict v.

(** The lowercased serialized form of an entry that is compared. *)
Definition normalized (env : Env) (item : pyval) : string :=
  match comparable env item with
  | PStr s => Str.lower s
  | _ => EmptyString
  end.

(** The similarity ratio of two entries. *)
Definition ratio_of (env : Env) (new_item existing_item : pyval) : Q :=
  Difflib.ratio (normalized env new_item) (normalized env existing_item).

(** An entry as [_validate_chunk_info] leaves it: a string or a dict,
    with a list under [responsibilities] and [technologies] when it has
    these keys. *)
Definition entry_ok (v : pyval) : bool :=
  mergeable v && list_field "responsibilities" v
  && list_field "technologies" v.

(** The four sections of a dict hold lists of such entries. *)
Definition sections_ok (d : list (string * pyval)) : Prop :=
  Forall (fun key => exists l, Py.lookup key d = Some (PList l)
                               /\ forallb entry_ok l = true)
         section_keys.

(** A value of [chunk_info] that is harmless to merge. *)
Definition chunk_ok (chunk_info : pyval) : Prop :=
  match chunk_info with
  | PDict d => sections_ok d
  | _ => True
  end.

(** ** Quantities used in the proofs about difflib *)

Section DifflibGhost.
Local Open Scope nat_scope.
Context (b2j : gmap ascii (list nat)) (s : list ascii).

(** The indices of [b] that the inner loop of [find_longest_match] visits
    in row [x]: [b2j.get(s[x], nothing)]. *)
Definition row_of (x : nat) : list nat :=
  default [] (s !! x ≫= λ elt, b2j !! elt).

(** The value that the loop stores in [newj2len[y]] in row [x] when both
    ranges start at 0: the length of the run of visited cells that ends
    at [(x, y)], and 0 for a cell that is not visited. *)
Fixpoint run (x y : nat) : nat :=
  if bool_decide (y ∈ row_of x)
  then S (match x, y with
          | S x', S y' => run x' y'
          | _, _ => 0
          end)
  else 0.

(** [m] indexes the first [i] elements of [s]. *)
Definition indexed (i : nat) (m : gmap ascii (list nat)) : Prop :=
  ∀ c, StronglySorted lt (default [] (m !! c))
       ∧ ∀ x, x ∈ default [] (m !! c) ↔ x < i ∧ s !! x = Some c.

(** [j2len] is the row before row [i]. *)
Definition prev_ok (i : nat) (j2len : gmap nat nat) : Prop :=
  ∀ y, default 0 (j2len !! y)
       = match i with S i' => run i' y | 0 => 0 end.

(** The best match found so far in row [i], after the cells [done] of
    the row: it lies on the diagonal and is at least as long as every
    diagonal run seen. *)
Definition best_ok (i : nat) (done : list nat) (best : Difflib.block) : Prop :=
  ∃ bi bk, best = (bi, bi, bk) ∧ bi + bk ≤ S i
           ∧ (∀ x, x < i → run x x ≤ bk)
           ∧ (i ∈ done → run i i ≤ bk).
End DifflibGhost.

(** The work left in the queue of [get_matching_blocks]: two units for
    each element of [a] still to be matched and one for each range. *)
Definition queue_weight (queue : list (nat * nat * nat * nat)) : nat :=
  foldr (λ q acc, 2 * (q.1.1.2 - q.1.1.1) + 1 + acc)%nat 0%nat queue.

(** ** Vocabulary of the further properties *)

(** The state between two calls of a caller that only moves forward in
    time: at most [max_requests + 1] timestamps are recorded, and when
    there are that many, one of them has left the window. *)
Definition limiter_bounded (clock : Z) (self : RateLimiter.t) : Prop :=
  Z.of_nat (List.length (RateLimiter.requests self))
  <= RateLimiter.max_requests self + 1
  /\ (Z.of_nat (List.length (RateLimiter.requests self))
      = RateLimiter.max_requests self + 1 ->
      exists t, In t (RateLimiter.requests self)
                /\ t + seconds (RateLimiter.time_window self) <= clock).

(** [m] makes at most [n] calls of [generate_content], whatever the
    state it starts in and however it ends. *)
Definition calls_within {A} (n : nat) (m : M A) : Prop :=
  forall w, (calls w <= calls (snd (m w)) <= calls w + n)%nat.

(** [section or [placeholder]]: what [_is_valid_result] leaves under a
    key. *)
Definition or_placeholder (placeholder : pyval) (section : list pyval)
    : list pyval :=
  match section with
  | [] => [placeholder]
  | _ => section
  end.

(** A mapping as a successful [parse_resume] returns it: exactly the four
    sections, in this order, none of them empty. *)
Definition parsed_shape (v : pyval) : Prop :=
  exists education skills experience projects,
    v = PDict (accumulator education skills experience projects)
    /\ education <> [] /\ skills <> [] /\ experience <> [] /\ projects <> [].

(** No call of the model gives a response that can be used: the call
    raises, the text is empty, or the text cannot be decoded. *)
Definition no_usable_response (env : Env) : Prop :=
  forall n,
    match generate_content env n with
    | Raise _ => True
    | Return text =>
        text = ""
        \/ exists e, extract_json env text = Raise e
                     /\ is_JSONDecodeError e = true
    end.

(** Every response that is decoded is a JSON object. *)
Definition decodes_objects_only (env : Env) : Prop :=
  forall text v, extract_json env text = Return v -> Py.is_dict v = true.

(** A value of [chunk_info] between two attempts: still [None], or a
    dict. *)
Definition none_or_dict (chunk_info : pyval) : bool :=
  match chunk_info with
  | PNone | PDict _ => true
  | _ => false
  end.

(** The entries that [_validate_chunk_info] keeps: every string field is
    present and stripped, and an identifying field is not empty. *)
Definition kept_education (entry : pyval) : Prop :=
  exists degree institution year,
    entry = PDict [("degree", PStr degree); ("institution", PStr institution);
                   ("year", PStr year)]
    /\ (degree <> "" \/ institution <> "").

Definition kept_skill (entry : pyval) : Prop :=
  exists skill, entry = PStr skill /\ skill <> "" /\ Str.strip skill = skill.

Definition nonempty_strings (items : list pyval) : Prop :=
  Forall (fun item => exists s, item = PStr s /\ s <> "") items.

Definition kept_experience (entry : pyval) : Prop :=
  exists title company duration responsibilities,
    entry = PDict [("title", PStr title); ("company", PStr company);
                   ("duration", PStr duration);
                   ("responsibilities", PList responsibilities)]
    /\ (title <> "" \/ company <> "")
    /\ nonempty_strings responsibilities.

Definition kept_project (entry : pyval) : Prop :=
  exists name description technologies,
    entry = PDict [("name", PStr name); ("description", PStr description);
                   ("technologies", PList technologies)]
    /\ (name <> "" \/ description <> "")
    /\ nonempty_strings technologies.

(** No entry of the list is a near-duplicate of an entry before it: its
    ratio to each earlier entry is at most the threshold. *)
Definition no_near_duplicates (env : Env) (items : list pyval) : Prop :=
  ForallOrdPairs
    (fun earlier later =>
       (ratio_of env later earlier <= similarity_threshold)%Q)
    items.

(** ** enhance_score_with_embeddings *)

(** [set(text.lower().split())] *)
Definition word_set (text : string) : gset string :=
  list_to_set (Str.split_ws (Str.lower text) []).

(** [enhance_score_with_embeddings(resume_text, job_description)] for two
    [str] arguments.  The quotient of the two lengths is the float nearest
    to it, and so is its product with 100.  When both sets are empty the
    division raises [ZeroDivisionError] and the handler returns the
    integer 0. *)
Definition enhance_score_with_embeddings (resume_text job_description : string)
    : pyval :=
  let resume_words := word_set resume_text in
  let job_words := word_set job_description in
  let common_words := resume_words ∩ job_words in
  match Nat.max (size resume_words) (size job_words) with
  | O => PInt 0
  | S n =>
      let similarity :=
        Double.round (Z.of_nat (size common_words) # Pos.of_succ_nat n) in
      PFloat (Double.mul similarity (FFin 100))
  end.

(** ** FileHandler *)

Definition dot : ascii := "."%char.

(** [filename.rsplit('.', 1)[1]] when ['.' in filename]: what follows the
    last dot. *)
Fixpoint after_last_dot (filename : string) : option string :=
  match filename with
  | EmptyString => None
  | String c rest =>
      match after_last_dot rest with
      | Some extension => Some extension
      | None => if Ascii.eqb c dot then Some rest else None
      end
  end.

(** [config.ALLOWED_RESUME_EXTENSIONS] *)
Definition ALLOWED_RESUME_EXTENSIONS : list string := ["pdf"; "docx"].

(** [allowed_file(filename)] *)
Definition allowed_file (filename : string) : bool :=
  match after_last_dot filename with
  | Some extension =>
      existsb (String.eqb (Str.lower extension)) ALLOWED_RESUME_EXTENSIONS
  | None => false
  end.

(** [s.endswith(suffix)] *)
Fixpoint endswith (suffix s : string) : bool :=
  String.eqb s suffix
  || match s with
     | String _ rest => endswith suffix rest
     | EmptyString => false
     end.

(** The two readers of [extract_resume_text]. *)
Inductive reader := PdfReader | DocxReader.

(** The dispatch of [extract_resume_text(filepath)]: the reader the path
    is handed to, or [None] when the function returns [None] without
    reading. *)
Definition resume_reader (filepath : string) : option reader :=
  if endswith ".pdf" (Str.lower filepath) then Some PdfReader
  else if endswith ".docx" (Str.lower filepath) then Some DocxReader
  else None.

(** [extract_resume_text(filepath)], with [extract_text_from_pdf] and
    [extract_text_from_docx] (which read the file and return its text or
    [None]) as parameters. *)
Definition extract_resume_text
    (extract_text_from_pdf extract_text_from_docx : string -> pyval)
    (filepath : string) : pyval :=
  match resume_reader filepath with
  | Some PdfReader => extract_text_from_pdf filepath
  | Some DocxReader => extract_text_from_docx filepath
  | None => PNone
  end.

(** Whether [s] contains a dot. *)
Fixpoint has_dot (s : string) : bool :=
  match s with
  | EmptyString => false
  | String c rest => Ascii.eqb c dot || has_dot rest
  end.

(** ** DatabaseManager: the list fields of a job *)

Definition newline : ascii := "010"%char.

(** The strings of [items], whose first item has the index [i]; or the
    first item that is not a [str], with its index. *)
Fixpoint strings_of (items : list pyval) (i : Z)
    : list string + Z * pyval :=
  match items with
  | [] => inl []
  | PStr s :: rest =>
      match strings_of rest (i + 1) with
      | inl strs => inl (s :: strs)
      | inr other => inr other
      end
  | item :: _ => inr (i, item)
  end.

(** [create_job]: [if isinstance(x, list): x = '\n'.join(x)], the value
    stored in the job document for one of [responsibilities],
    [required_skills] and [qualifications]. *)
Definition join_section (x : pyval) : result pyval :=
  match x with
  | PList items =>
      match strings_of items 0 with
      | inl strs => Return (PStr (String.concat (String newline "") strs))
      | inr (i, item) =>
          type_error ("sequence item " +:+ string_of_Z i
                      +:+ ": expected str instance, " +:+ Py.type_name item
                      +:+ " found")
      end
  | _ => Return x
  end.

(** [s.split('\n')] *)
Fixpoint split_lines (s : string) : list string :=
  match s with
  | EmptyString => [EmptyString]
  | String c rest =>
      if Ascii.eqb c newline then EmptyString :: split_lines rest
      else match split_lines rest with
           | line :: lines => String c line :: lines
           | [] => [String c EmptyString]
           end
  end.

(** [_format_job_dict]: [job.get(k, '').split('\n') if job.get(k) else []]
    for the value [stored] under [k]. *)
Definition split_section (stored : pyval) : result pyval :=
  if Py.truthy stored then
    match stored with
    | PStr s => Return (PList (map PStr (split_lines s)))
    | _ => no_attribute stored "split"
    end
  else Return (PList []).

(** Whether [s] contains a newline. *)
Fixpoint has_newline (s : string) : bool :=
  match s with
  | EmptyString => false
  | String c rest => Ascii.eqb c newline || has_newline rest
  end.

(** ** OrchestrationGraph *)

(** What the orchestration asks of the database and of the mail agent.
    [DatabaseManager.get_job] and [update_application_score] catch their
    own exceptions and return [None]; [create_job] re-raises. *)
Record Services := {
  get_job : pyval -> pyval;
  create_job : pyval -> pyval -> pyval -> pyval -> pyval -> pyval
               -> result pyval;
  update_application_score : pyval -> pyval -> string -> pyval -> pyval;
  send_selection_email : pyval -> pyval -> pyval -> result pyval;
  send_rejection_email : pyval -> pyval -> pyval -> result pyval
}.

(** The calls made on the database and on the mail agent. *)
Inductive office_event :=
  | JobRead (job_id : pyval)
  | JobCreated (title salary description responsibilities required_skills
                qualifications : pyval)
  | ScoreStored (application_id fit_score : pyval) (status : string)
                (detailed_scores : pyval)
  | SelectionMailed (candidate_name email job_title : pyval)
  | RejectionMailed (candidate_name email job_title : pyval).

(** The state of a workflow: the world of the agents and the journal of
    the calls made, oldest first. *)
Record Desk := { agents : World; journal : list office_event }.

Definition O (A : Type) : Type := Desk -> result A * Desk.

Definition oret {A} (a : A) : O A := fun s => (Return a, s).
Definition obind {A B} (m : O A) (k : A -> O B) : O B :=
  fun s => match m s with
           | (Return a, s') => k a s'
           | (Raise e, s') => (Raise e, s')
           end.
Definition olift {A} (r : result A) : O A := fun s => (r, s).

(** [try: m  except Exception as e: h e] *)
Definition otry {A} (m : O A) (h : exn -> O A) : O A :=
  fun s => match m s with
           | (Return a, s') => (Return a, s')
           | (Raise e, s') => h e s'
           end.

(** A method of one of the agents. *)
Definition from_agent {A} (m : M A) : O A :=
  fun s => let '(r, w) := m (agents s) in
           (r, {| agents := w; journal := journal s |}).

(** A call recorded in the journal. *)
Definition record {A} (ev : office_event) (r : result A) : O A :=
  fun s => (r, {| agents := agents s; journal := journal s ++ [ev] |}).

Declare Scope office_scope.
Delimit Scope office_scope with office.
Notation "'do' x <- m ; k" := (obind m (fun x => k))
  (at level 10, x name, m at level 100, k at level 200) : office_scope.
Notation "m ;; k" := (obind m (fun _ => k))
  (at level 100, k at level 200, right associativity) : office_scope.

(** [isinstance(e, ValueError)] *)
Definition is_ValueError (e : exn) : bool :=
  match exn_cls e with
  | ValueError | JSONDecodeError => true
  | _ => false
  end.

(** [v >= n] for an integer literal [n] *)
Definition py_ge (v : pyval) (n : Z) : result bool :=
  match v with
  | PFloat (FFin q) => Return (Qle_bool (inject_Z n) q)
  | PFloat (FInf negative) => Return (negb negative)
  | PFloat FNan => Return false
  | PInt z => Return (n <=? z)
  | PBool b => Return (n <=? (if b then 1 else 0))
  | _ => type_error ("'>=' not supported between instances of '"
                     +:+ Py.type_name v +:+ "' and 'int'")
  end.

(** [{'status': 'error', 'error': msg}] *)
Definition error_result (msg : pyval) : pyval :=
  PDict [("status", PStr "error"); ("error", msg)].

Section Orchestration.

Context (env : Env) (services : Services).

Local Open Scope office_scope.

(** [self.db.get_job(job_id)] *)
Definition read_job (job_id : pyval) : O pyval :=
  record (JobRead job_id) (Return (get_job services job_id)).

(** The four fields handed on from a mapping. *)
Definition four_fields (source : pyval) : result (pyval * pyval * pyval * pyval) :=
  let? description := py_getitem source "description" in
  let? responsibilities := py_getitem source "responsibilities" in
  let? required_skills := py_getitem source "required_skills" in
  let? qualifications := py_getitem source "qualifications" in
  Return (description, responsibilities, required_skills, qualifications).

(** [process_job_creation(title, salary)] *)
Definition process_job_creation (title salary : pyval) : O pyval :=
  otry
    (do job_details <- from_agent (generate_job_details env title salary);
     do proceed <-
       (if Py.truthy job_details
        then do present <- olift (py_in "status" job_details);
             oret (negb present)
        else oret false);
     if proceed then
       otry
         (do fields <- olift (four_fields job_details);
          let '(description, responsibilities, required_skills,
                qualifications) := fields in
          do job <- record (JobCreated title salary description
                              responsibilities required_skills qualifications)
                           (create_job services title salary description
                              responsibilities required_skills qualifications);
          do job_id <- olift (py_getitem job "id");
          oret (PDict [("status", PStr "success"); ("job_id", job_id);
                       ("job_details", job_details)]))
         (fun e =>
            oret (error_result
                    (PStr ("Failed to save job details: " +:+ exn_str e))))
     else
       do error_msg <-
         (if Py.truthy job_details
          then olift (py_get job_details "error"
                             (PStr "Failed to generate job details"))
          else oret (PStr "No response from job generator"));
       oret (error_result error_msg))
    (fun e => oret (error_result (PStr (exn_str e)))).

(** [[section for section in required_sections
      if not parsed_resume.get(section)]] *)
Fixpoint missing_sections (parsed_resume : pyval) (sections : list string)
    : result (list string) :=
  match sections with
  | [] => Return []
  | section :: rest =>
      let? value := py_get parsed_resume section PNone in
      let? missing := missing_sections parsed_resume rest in
      Return (if Py.truthy value then missing else section :: missing)
  end.

(** [all(key in scores for key in required_scores)] *)
Fixpoint has_all_scores (scores : pyval) (keys : list string) : result bool :=
  match keys with
  | [] => Return true
  | key :: rest =>
      let? present := py_in key scores in
      if present then has_all_scores scores rest else Return false
  end.

(** ['selected' if (overall_score >= 70 and skill_match >= 60) else
    'rejected'] *)
Definition decide_status (overall_score skill_match : pyval)
    : result string :=
  let? high := py_ge overall_score 70 in
  if high then
    let? skilled := py_ge skill_match 60 in
    Return (if skilled then "selected" else "rejected")
  else Return "rejected".

Definition success_result (scores : pyval) (status : string)
    (parsed_resume : pyval) : list (string * pyval) :=
  [("status", PStr "success"); ("scores", scores);
   ("application_status", PStr status); ("parsed_resume", parsed_resume)].

(** The notification and what is returned after it. *)
Definition notify (status : string) (application job scores parsed_resume : pyval)
    : O pyval :=
  otry
    (do candidate_name <- olift (py_getitem application "full_name");
     do email <- olift (py_getitem application "email");
     do job_title <- olift (py_getitem job "title");
     (if String.eqb status "selected"
      then record (SelectionMailed candidate_name email job_title)
                  (send_selection_email services candidate_name email job_title)
      else record (RejectionMailed candidate_name email job_title)
                  (send_rejection_email services candidate_name email job_title)) ;;
     oret (PDict (success_result scores status parsed_resume)))
    (fun _ =>
       oret (PDict (success_result scores status parsed_resume
                    ++ [("warning",
                         PStr "Application processed but notification email failed")]))).

(** The scoring part, from [job_details = {...}] on. *)
Definition score_and_store (application_id job parsed_resume : pyval)
    : O pyval :=
  otry
    (do fields <- olift (four_fields job);
     let '(description, responsibilities, required_skills, qualifications) :=
       fields in
     let job_details :=
       PDict [("description", description);
              ("responsibilities", responsibilities);
              ("required_skills", required_skills);
              ("qualifications", qualifications)] in
     do scores <- from_agent (calculate_fit_score env parsed_resume job_details);
     if negb (Py.truthy scores)
     then oret (error_result (PStr "Failed to calculate fit score"))
     else
       do complete <- olift (has_all_scores scores score_fields);
       if negb complete
       then oret (error_result (PStr "Incomplete scoring results"))
       else
         otry
           (do overall_score <- olift (py_getitem scores "overall_fit_score");
            do skill_match <- olift (py_getitem scores "skill_match_score");
            do status <- olift (decide_status overall_score skill_match);
            do application <-
              record (ScoreStored application_id overall_score status scores)
                     (Return (update_application_score services application_id
                                overall_score status scores));
            if negb (Py.truthy application)
            then oret (error_result
                         (PStr "Failed to update application with scores"))
            else notify status application job scores parsed_resume)
           (fun e =>
              oret (error_result
                      (PStr ("Failed to update application: "
                             +:+ exn_str e)))))
    (fun e =>
       oret (error_result (PStr ("Error during scoring: " +:+ exn_str e)))).

(** The parsing part: an error mapping to return at once, or the parsed
    resume. *)
Definition parse_and_check (resume_text : string) : O (pyval + pyval) :=
  otry
    (do parsed_resume <- from_agent (parse_resume env resume_text);
     if negb (Py.truthy parsed_resume)
     then oret (inl (error_result
                       (PStr "Resume parsing returned no valid information")))
     else
       do missing <-
         olift (missing_sections parsed_resume
                                 ["education"; "skills"; "experience"]);
       match missing with
       | [] => oret (inr parsed_resume)
       | _ =>
           oret (inl (error_result
                        (PStr ("Resume parsing incomplete. Missing sections: "
                               +:+ String.concat ", " missing))))
       end)
    (fun e =>
       if is_ValueError e
       then oret (inl (error_result
                         (PStr ("Resume parsing failed: " +:+ exn_str e))))
       else oret (inl (error_result
                         (PStr ("Unexpected error during resume parsing: "
                                +:+ exn_str e))))).

(** [process_application_submission(application_id, resume_text, job_id)]
    for a [str] as [resume_text] *)
Definition process_application_submission (application_id : pyval)
    (resume_text : string) (job_id : pyval) : O pyval :=
  otry
    (if Str.blank resume_text
     then oret (error_result (PStr "Resume text is empty or invalid"))
     else
       do job <- read_job job_id;
       if negb (Py.truthy job)
       then oret (error_result (PStr ("Job not found: " +:+ py_str env job_id)))
       else
         do checked <- parse_and_check resume_text;
         match checked with
         | inl failure => oret failure
         | inr parsed_resume => score_and_store application_id job parsed_resume
         end)
    (fun e =>
       oret (error_result
               (PStr ("Unexpected error in application processing: "
                      +:+ exn_str e)))).

End Orchestration.

(** What a run of the scoring part that reports success has done. *)
Definition decided (application_id : pyval) (r : list (string * pyval))
    (s' : Desk) : Prop :=
  exists d o k status,
    Py.lookup "scores" r = Some (PDict d)
    /\ Py.lookup "overall_fit_score" d = Some (PFloat (FFin o))
    /\ Py.lookup "skill_match_score" d = Some (PFloat (FFin k))
    /\ (0 <= o <= 100)%Q /\ (0 <= k <= 100)%Q
    /\ Py.lookup "application_status" r = Some (PStr status)
    /\ status = (if Qle_bool 70 o && Qle_bool 60 k
                 then "selected" else "rejected")
    /\ In (ScoreStored application_id (PFloat (FFin o)) status (PDict d))
          (journal s').

(** ** A concrete office *)

Definition demo_job : pyval :=
  PDict [("id", PStr "job-1"); ("title", PStr "Professor");
         ("description", PStr "Teaching and research");
         ("responsibilities", PList [PStr "Teach courses"]);
         ("required_skills", PList [PStr "Python"]);
         ("qualifications", PList [PStr "PhD"])].

Definition demo_application : pyval :=
  PDict [("id", PStr "app-1"); ("full_name", PStr "Ada");
         ("email", PStr "ada@example.org")].

(** A database that holds [demo_job] and [demo_application] and a mail
    agent that sends. *)
Definition demo_services : Services :=
  {| get_job := fun _ => demo_job;
     create_job := fun _ _ _ _ _ _ => Return demo_job;
     update_application_score := fun _ _ _ _ => demo_application;
     send_selection_email := fun _ _ _ => Return (PBool true);
     send_rejection_email := fun _ _ _ => Return (PBool true) |}.

Definition empty_desk : Desk := {| agents := fresh_world; journal := [] |}.

(** The model is unreachable: every call raises. *)
Definition service_down (env : Env) : Prop :=
  forall n, exists e, generate_content env n = Raise e.

(** * Properties *)

(** ** Tactics *)

(** Comparisons of the loop counter with closed numerals. *)
Ltac fold_counters :=
  repeat match goal with
         | |- context [Z.ltb ?a ?b] =>
             let v := eval cbv in (Z.ltb a b) in
             match v with
             | true => change (Z.ltb a b) with true
             | false => change (Z.ltb a b) with false
             end
         | |- context [Z.eqb ?a ?b] =>
             let v := eval cbv in (Z.eqb a b) in
             match v with
             | true => change (Z.eqb a b) with true
             | false => change (Z.eqb a b) with false
             end
         end.

Ltac retry_norm :=
  repeat (progress (cbn; unfold max_retries, with_retries, try_except, bind,
                    ret, raise, sleep, rate_exceeded; fold_counters;
                    rewrite ?andb_true_r, ?andb_false_r)).

(** Case analysis on what each attempt does and on the "429" test. *)
Ltac retry_cases attempt :=
  retry_norm;
  repeat (match goal with
          | |- context [attempt ?x] => destruct (attempt x) as [[?|?] ?]
          | |- context [Str.contains ?a ?b] => destruct (Str.contains a b)
          end; retry_norm).

(** ** Dictionaries and the state monad *)

Section PyFacts.

Lemma lookup_store_eq k v d : Py.lookup k (Py.store k v d) = Some v.
Proof.
  induction d as [|[k' v'] d IH]; cbn.
  - now rewrite String.eqb_refl.
  - destruct (String.eqb k k') eqn:E; cbn; rewrite ?E, ?String.eqb_refl; auto.
Qed.

Lemma lookup_store_ne k k' v d :
  k <> k' -> Py.lookup k' (Py.store k v d) = Py.lookup k' d.
Proof.
  intros Hne. induction d as [|[k0 v0] d IH]; cbn.
  - destruct (String.eqb_spec k' k); congruence.
  - destruct (String.eqb_spec k k0) as [->|Hk]; cbn.
    + destruct (String.eqb_spec k' k0); congruence.
    + destruct (String.eqb_spec k' k0); auto.
Qed.

End PyFacts.

Lemma bind_returns {A B} (m : M A) (k : A -> M B) w v w' :
  bind m k w = (Return v, w') ->
  exists a w1, m w = (Return a, w1) /\ k a w1 = (Return v, w').
Proof.
  unfold bind. destruct (m w) as [[a|e] w1]; [eauto|discriminate].
Qed.

(** ** The rate limiter *)

(** A call that finds the limiter at capacity sleeps and then records the
    clock reading it took on entry: the two timestamps it waited for and
    the new one lie in one window. *)
Lemma at_capacity_records_a_third (t1 t2 now jitter : Z) :
  t1 <= t2 <= now ->
  now - t1 < seconds 60 ->
  RateLimiter.wait_if_needed now jitter (RateLimiter.Make 2 60 [t1; t2])
  = (RateLimiter.Make 2 60 [t1; t2; now],
     Return (RateLimiter.Sleep (t1 + seconds 60 - now + jitter)))
  /\ RateLimiter.in_window (seconds 60) t1 [t1; t2; now] = 3%nat.
Proof.
  intros [H12 H2n] Hwin. unfold seconds in *. split.
  - unfold RateLimiter.wait_if_needed, seconds. cbn.
    replace (now - t1 <? 60 * 1000000) with true
      by (symmetry; apply Z.ltb_lt; lia).
    replace (now - t2 <? 60 * 1000000) with true
      by (symmetry; apply Z.ltb_lt; lia).
    cbn. rewrite Z.min_l by lia.
    replace (0 <? t1 + 60 * 1000000 - now) with true
      by (symmetry; apply Z.ltb_lt; lia).
    reflexivity.
  - unfold RateLimiter.in_window. cbn.
    repeat match goal with
           | |- context [(?a <=? ?b)] =>
               replace (a <=? b) with true by (symmetry; apply Z.leb_le; lia)
           | |- context [(?a <? ?b)] =>
               replace (a <? b) with true by (symmetry; apply Z.ltb_lt; lia)
           end.
    reflexivity.
Qed.

(** C1 (the code departs from the claim). Three calls of [wait_if_needed]
    at 0 s, 1 s and 2 s on a limiter for 2 requests per 60 s leave the
    three timestamps 0 s, 1 s, 2 s recorded: the window that starts at 0
    holds 3 of them, because the third call records the clock reading it
    took before it slept.  Two more calls right after show the requests
    themselves: the third, fourth and fifth call return at 60.1 s, 61.1 s
    and 62.1 s, three requests within one window. *)
Theorem rate_limiter_records_three_in_one_window :
  let jitter := 100000 in
  let limiter := RateLimiter.init 2 60 in
  (let '(_, self, _) :=
     RateLimiter.acquire_all
       [(0, jitter); (seconds 1, jitter); (seconds 1, jitter)] 0 limiter [] in
   RateLimiter.requests self = [0; seconds 1; seconds 2]
   /\ RateLimiter.in_window (seconds 60) 0 (RateLimiter.requests self) = 3%nat)
  /\ (let '(_, _, returned) :=
        RateLimiter.acquire_all
          [(0, jitter); (seconds 1, jitter); (seconds 1, jitter);
           (jitter, jitter); (jitter, jitter)] 0 limiter [] in
      returned = [0; seconds 1; 60100000; 61100000; 62100000]
      /\ RateLimiter.in_window (seconds 60) 60100000 returned = 3%nat).
Proof. vm_compute. repeat split; reflexivity. Qed.

(** ** The retry wrapper *)

Section RetryFacts.

Context {A : Type} (attempt : M A).

(** Three units of fuel are enough: from [retry_count = 0] the loop is
    always left by [break] or by an exception. *)
Lemma retry_loop_breaks_or_raises (w : World) :
  forall a w', retry_loop 3 attempt 0 w = (Return a, w') ->
               exists x, a = Broke x.
Proof.
  intros a w'.
  retry_cases attempt; intros H; inversion H; eauto.
Qed.

End RetryFacts.

(** C2, as amended. The loop of [generate_job_details] and
    [calculate_fit_score] makes at most three attempts.  A failure of the
    first or second attempt that carries "429" is followed by the 35 s
    cooldown and another attempt of the same call; any other failure of
    the first or second attempt is raised unchanged; a failure of the
    third attempt, of whatever kind, is replaced by the error
    "Failed to get response after 3 retries". *)
Theorem with_retries_amended {A : Type} (attempt : M A) (w : World) :
  with_retries attempt w = retry_amended attempt 3 w.
Proof.
  unfold with_retries, max_retries. change (Z.to_nat 3) with 3%nat.
  retry_cases attempt; reflexivity.
Qed.

(** C2, the claim as worded fails: with the first two calls answered by
    "429" and the third by a "500" error, the third failure is not a rate
    signal, yet it is not propagated: the wrapper raises the
    retries-exhausted error in its place. *)
Lemma third_failure_is_not_propagated :
  let env := scripted_env [rate_limited; rate_limited; Raise server_error]
                          (Raise decode_error) in
  let attempt := job_attempt env (JobDetailsPrompt (PStr "Professor") (PInt 90000)) in
  generate_content env 2 = Raise server_error
  /\ rate_exceeded server_error = false
  /\ fst (retry_as_claimed attempt 3 fresh_world) = Raise server_error
  /\ fst (with_retries attempt fresh_world) = Raise retries_exhausted
  /\ fst (with_retries attempt fresh_world)
     <> fst (retry_as_claimed attempt 3 fresh_world).
Proof. vm_compute. repeat split; try reflexivity. discriminate. Qed.

(** ** Rounding *)

Lemma Qle_bool_false x y : Qle_bool x y = false -> (y < x)%Q.
Proof.
  intros H. apply Qnot_le_lt. intros Hle. apply Qle_bool_iff in Hle. congruence.
Qed.

Section DoubleFacts.

Local Open Scope Q_scope.

Lemma pow2_pos e : 0 < Double.pow2 e.
Proof. apply Qpower_0_lt. reflexivity. Qed.

Lemma pow2_add a b : Double.pow2 (a + b) == Double.pow2 a * Double.pow2 b.
Proof. apply Qpower_plus. discriminate. Qed.

Lemma pow2_le a b : (a <= b)%Z -> Double.pow2 a <= Double.pow2 b.
Proof. intros Hab. apply Qpower_le_compat_l; [exact Hab|discriminate]. Qed.

Lemma pow2_Z n : (0 <= n)%Z -> Double.pow2 n == inject_Z (2 ^ n).
Proof. intros Hn. symmetry. exact (Zpower_Qpower 2 n Hn). Qed.

Lemma pow2_split a b :
  Double.pow2 a == Double.pow2 (a - b) * Double.pow2 b.
Proof.
  rewrite <- pow2_add. replace (a - b + b)%Z with a by lia. reflexivity.
Qed.

(** [ilog2] brackets a positive number between two powers of two. *)
Lemma ilog2_spec q :
  0 < q ->
  Double.pow2 (Double.ilog2 q) <= q < Double.pow2 (Double.ilog2 q + 1).
Proof.
  destruct q as [n d]. intros Hq.
  assert (Hn : (0 < n)%Z) by (unfold Qlt in Hq; cbn in Hq; lia).
  unfold Double.ilog2. cbn [Qnum Qden].
  set (a := Z.log2 n). set (b := Z.log2 (Zpos d)).
  destruct (Z.log2_spec n Hn) as [Ha1 Ha2]. fold a in Ha1, Ha2.
  destruct (Z.log2_spec (Zpos d) eq_refl) as [Hb1 Hb2]. fold b in Hb1, Hb2.
  assert (Ha0 : (0 <= a)%Z) by apply Z.log2_nonneg.
  assert (Hb0 : (0 <= b)%Z) by apply Z.log2_nonneg.
  assert (Hq' : inject_Z n == (n # d) * inject_Z (Zpos d)).
  { unfold Qeq, Qmult, inject_Z. cbn. lia. }
  assert (HA1 : Double.pow2 a <= inject_Z n).
  { rewrite pow2_Z by exact Ha0. rewrite <- Zle_Qle. exact Ha1. }
  assert (HA2 : inject_Z n < Double.pow2 (a + 1)).
  { rewrite pow2_Z by lia. rewrite <- Zlt_Qlt.
    replace (a + 1)%Z with (Z.succ a) by lia. exact Ha2. }
  assert (HB1 : Double.pow2 b <= inject_Z (Zpos d)).
  { rewrite pow2_Z by exact Hb0. rewrite <- Zle_Qle. exact Hb1. }
  assert (HB2 : inject_Z (Zpos d) < Double.pow2 (b + 1)).
  { rewrite pow2_Z by lia. rewrite <- Zlt_Qlt.
    replace (b + 1)%Z with (Z.succ b) by lia. exact Hb2. }
  pose proof (pow2_pos b) as Hpb. pose proof (pow2_pos (b + 1)) as Hpb1.
  assert (Hup : (n # d) < Double.pow2 (a - b + 1)).
  { apply Qnot_le_lt. intros Hle.
    assert (H : Double.pow2 (a - b + 1) * Double.pow2 b
                <= (n # d) * inject_Z (Zpos d)).
    { apply Qle_trans with ((n # d) * Double.pow2 b).
      - apply Qmult_le_compat_r; [exact Hle|apply Qlt_le_weak, Hpb].
      - rewrite (Qmult_comm (n # d)), (Qmult_comm (n # d)).
        apply Qmult_le_compat_r; [exact HB1|apply Qlt_le_weak, Hq]. }
    replace (a - b + 1)%Z with (a + 1 - b)%Z in H by lia.
    rewrite <- pow2_split, <- Hq' in H. apply (Qlt_not_le _ _ HA2 H). }
  assert (Hlow : Double.pow2 (a - b - 1) <= (n # d)).
  { apply Qnot_lt_le. intros Hlt.
    assert (H : (n # d) * inject_Z (Zpos d)
                < Double.pow2 (a - b - 1) * Double.pow2 (b + 1)).
    { apply Qle_lt_trans with ((n # d) * Double.pow2 (b + 1)).
      - rewrite (Qmult_comm (n # d)), (Qmult_comm (n # d)).
        apply Qmult_le_compat_r; apply Qlt_le_weak; assumption.
      - apply Qmult_lt_compat_r; [exact Hpb1|exact Hlt]. }
    replace (a - b - 1)%Z with (a - (b + 1))%Z in H by lia.
    rewrite <- pow2_split, <- Hq' in H. apply (Qlt_not_le _ _ H HA1). }
  destruct (Qle_bool (Double.pow2 (a - b)) (n # d)) eqn:Hk.
  - apply Qle_bool_iff in Hk. split; [exact Hk|exact Hup].
  - split; [exact Hlow|].
    replace (a - b - 1 + 1)%Z with (a - b)%Z by lia.
    apply Qle_bool_false, Hk.
Qed.

Lemma ilog2_unique q k :
  Double.pow2 k <= q < Double.pow2 (k + 1) -> Double.ilog2 q = k.
Proof.
  intros [Hk1 Hk2].
  assert (Hq : 0 < q)
    by (eapply Qlt_le_trans; [apply (pow2_pos k)|exact Hk1]).
  destruct (ilog2_spec q Hq) as [H1 H2].
  destruct (Z.lt_trichotomy (Double.ilog2 q) k) as [Hlt|[Heq|Hgt]].
  - exfalso.
    pose proof (pow2_le (Double.ilog2 q + 1) k ltac:(lia)) as H.
    apply (Qlt_irrefl q). eapply Qlt_le_trans; [exact H2|].
    eapply Qle_trans; eauto.
  - exact Heq.
  - exfalso.
    pose proof (pow2_le (k + 1) (Double.ilog2 q) ltac:(lia)) as H.
    apply (Qlt_irrefl q). eapply Qlt_le_trans; [exact Hk2|].
    eapply Qle_trans; eauto.
Qed.

Lemma ilog2_mono x y :
  0 < x -> x <= y -> (Double.ilog2 x <= Double.ilog2 y)%Z.
Proof.
  intros Hx Hxy.
  assert (Hy : 0 < y) by (eapply Qlt_le_trans; eauto).
  destruct (ilog2_spec x Hx) as [Hx1 _].
  destruct (ilog2_spec y Hy) as [_ Hy2].
  destruct (Z_le_gt_dec (Double.ilog2 x) (Double.ilog2 y)) as [Hle|Hgt];
    [exact Hle|].
  exfalso.
  pose proof (pow2_le (Double.ilog2 y + 1) (Double.ilog2 x) ltac:(lia)) as H.
  apply (Qlt_irrefl y). eapply Qlt_le_trans; [exact Hy2|].
  eapply Qle_trans; [exact H|]. eapply Qle_trans; eauto.
Qed.

Lemma ilog2_comp x y : 0 < x -> x == y -> Double.ilog2 x = Double.ilog2 y.
Proof.
  intros Hx Hxy. symmetry. apply ilog2_unique. rewrite <- Hxy.
  apply ilog2_spec, Hx.
Qed.

Lemma round_half_even_cases q :
  Double.round_half_even q = Qfloor q
  \/ Double.round_half_even q = (Qfloor q + 1)%Z.
Proof.
  unfold Double.round_half_even.
  destruct (q - inject_Z (Qfloor q) ?= 1 # 2);
    [destruct (Z.even (Qfloor q))|..]; auto.
Qed.

Lemma round_half_even_mono x y :
  x <= y -> (Double.round_half_even x <= Double.round_half_even y)%Z.
Proof.
  intros Hxy. pose proof (Qfloor_resp_le x y Hxy) as Hfl.
  destruct (Z.eq_dec (Qfloor x) (Qfloor y)) as [Heq|Hne].
  - unfold Double.round_half_even. rewrite <- Heq.
    destruct (Qcompare_spec (x - inject_Z (Qfloor x)) (1 # 2)) as [Hx|Hx|Hx];
      destruct (Qcompare_spec (y - inject_Z (Qfloor x)) (1 # 2))
        as [Hy|Hy|Hy];
      try destruct (Z.even (Qfloor x)); try lia; exfalso; lra.
  - destruct (round_half_even_cases x) as [-> | ->],
             (round_half_even_cases y) as [-> | ->]; lia.
Qed.

Lemma round_half_even_Z n : Double.round_half_even (inject_Z n) = n.
Proof.
  unfold Double.round_half_even. rewrite Qfloor_Z.
  destruct (Qcompare_spec (inject_Z n - inject_Z n) (1 # 2)) as [H|H|H];
    [exfalso; lra|reflexivity|exfalso; lra].
Qed.

Lemma round_half_even_comp x y :
  x == y -> Double.round_half_even x = Double.round_half_even y.
Proof.
  intros Hxy. unfold Double.round_half_even.
  rewrite (Qfloor_comp x y Hxy).
  assert (E : x - inject_Z (Qfloor y) == y - inject_Z (Qfloor y))
    by (rewrite Hxy; reflexivity).
  rewrite (Qcompare_comp _ _ E _ _ (Qeq_refl (1 # 2))). reflexivity.
Qed.

Lemma ulp_exponent_mono x y :
  0 < x -> x <= y -> (Double.ulp_exponent x <= Double.ulp_exponent y)%Z.
Proof.
  intros Hx Hxy. unfold Double.ulp_exponent.
  pose proof (ilog2_mono x y Hx Hxy). lia.
Qed.

Lemma Qdiv_le_pow2 x e k :
  x <= Double.pow2 k -> x / Double.pow2 e <= Double.pow2 (k - e).
Proof.
  intros Hx. apply Qle_shift_div_r; [apply pow2_pos|].
  rewrite <- pow2_split. exact Hx.
Qed.

Lemma Qdiv_ge_pow2 x e k :
  Double.pow2 k <= x -> Double.pow2 (k - e) <= x / Double.pow2 e.
Proof.
  intros Hx. apply Qle_shift_div_l; [apply pow2_pos|].
  rewrite <- pow2_split. exact Hx.
Qed.

Lemma nearest_nonneg x : 0 <= x -> 0 <= Double.nearest x.
Proof.
  intros Hx. unfold Double.nearest.
  pose proof (pow2_pos (Double.ulp_exponent x)) as He.
  apply Qmult_le_0_compat; [|apply Qlt_le_weak, He].
  change 0 with (inject_Z 0). rewrite <- Zle_Qle.
  rewrite <- (round_half_even_Z 0). apply round_half_even_mono.
  apply Qle_shift_div_l; [exact He|].
  change (inject_Z 0) with 0. rewrite Qmult_0_l. exact Hx.
Qed.

(** Rounding to the nearest multiple of the unit in the last place is
    monotone.  With the same unit this is the monotonicity of
    [round_half_even]; with a smaller unit for [x] than for [y], the
    power of two at the leading bit of [y] is a multiple of both units
    and lies between the two results. *)
Lemma nearest_mono x y :
  0 < x -> x <= y -> Double.nearest x <= Double.nearest y.
Proof.
  intros Hx Hxy.
  assert (Hy : 0 < y) by (eapply Qlt_le_trans; eauto).
  pose proof (ulp_exponent_mono x y Hx Hxy) as He.
  unfold Double.nearest.
  set (ex := Double.ulp_exponent x) in *.
  set (ey := Double.ulp_exponent y) in *.
  pose proof (pow2_pos ex) as Hpx. pose proof (pow2_pos ey) as Hpy.
  destruct (Z.eq_dec ex ey) as [Heq|Hne].
  - rewrite <- Heq. apply Qmult_le_compat_r; [|apply Qlt_le_weak, Hpx].
    rewrite <- Zle_Qle. apply round_half_even_mono.
    apply Qmult_le_compat_r; [exact Hxy|].
    apply Qlt_le_weak, Qinv_lt_0_compat, Hpx.
  - assert (Hlt : (ex < ey)%Z) by lia.
    assert (Hey : ey = (Double.ilog2 y - (Double.precision - 1))%Z).
    { subst ex ey. unfold Double.ulp_exponent in *. lia. }
    assert (Hex : (Double.ilog2 x - (Double.precision - 1) <= ex)%Z).
    { subst ex. unfold Double.ulp_exponent. lia. }
    destruct (ilog2_spec x Hx) as [_ Hx2].
    destruct (ilog2_spec y Hy) as [Hy1 _].
    set (ly := Double.ilog2 y) in *.
    apply Qle_trans with (Double.pow2 ly).
    + assert (Hxl : x <= Double.pow2 ly).
      { apply Qlt_le_weak. eapply Qlt_le_trans; [exact Hx2|].
        apply pow2_le. lia. }
      assert (Hk : (0 <= ly - ex)%Z) by (unfold Double.precision in *; lia).
      assert (Hr : (Double.round_half_even (x / Double.pow2 ex)
                    <= 2 ^ (ly - ex))%Z).
      { rewrite <- (round_half_even_Z (2 ^ (ly - ex))).
        apply round_half_even_mono.
        rewrite <- pow2_Z by exact Hk. apply Qdiv_le_pow2, Hxl. }
      rewrite Zle_Qle in Hr. rewrite <- pow2_Z in Hr by exact Hk.
      rewrite (pow2_split ly ex).
      apply Qmult_le_compat_r; [exact Hr|apply Qlt_le_weak, Hpx].
    + assert (Hk : (0 <= ly - ey)%Z) by (unfold Double.precision in *; lia).
      assert (Hr : (2 ^ (ly - ey)
                    <= Double.round_half_even (y / Double.pow2 ey))%Z).
      { rewrite <- (round_half_even_Z (2 ^ (ly - ey))) at 1.
        apply round_half_even_mono.
        rewrite <- pow2_Z by exact Hk. apply Qdiv_ge_pow2, Hy1. }
      rewrite Zle_Qle in Hr. rewrite <- pow2_Z in Hr by exact Hk.
      rewrite (pow2_split ly ey).
      apply Qmult_le_compat_r; [exact Hr|apply Qlt_le_weak, Hpy].
Qed.

Lemma nearest_comp x y :
  0 < x -> x == y -> Double.nearest x == Double.nearest y.
Proof.
  intros Hx Hxy. unfold Double.nearest, Double.ulp_exponent.
  rewrite (ilog2_comp x y Hx Hxy).
  set (e := Double.pow2 _).
  rewrite (round_half_even_comp (x / e) (y / e)); [reflexivity|].
  rewrite Hxy. reflexivity.
Qed.

Lemma overflow_comp x y :
  x == y ->
  Qle_bool (Double.pow2 Double.emax) x = Qle_bool (Double.pow2 Double.emax) y.
Proof.
  intros Hxy. apply eq_true_iff_eq. rewrite !Qle_bool_iff, Hxy. reflexivity.
Qed.

Lemma round_pos x :
  0 < x ->
  Double.round x
  = if Qle_bool (Double.pow2 Double.emax) (Double.nearest x)
    then FInf false else FFin (Qred (Double.nearest x)).
Proof.
  intros Hx. unfold Double.round.
  apply Qgt_alt in Hx. rewrite Hx. reflexivity.
Qed.

(** The float depends on the value of the rational only, not on the
    fraction that stands for it. *)
Lemma round_comp x y : x == y -> Double.round x = Double.round y.
Proof.
  intros Hxy. unfold Double.round.
  rewrite (Qcompare_comp x y Hxy 0 0 (Qeq_refl 0)).
  destruct (Qcompare_spec y 0) as [H0|Hneg|Hpos]; [reflexivity|..].
  - assert (Hx : 0 < - x) by (rewrite Hxy; lra).
    assert (E : - x == - y) by (rewrite Hxy; reflexivity).
    pose proof (nearest_comp _ _ Hx E) as En.
    rewrite (overflow_comp _ _ En).
    destruct (Qle_bool (Double.pow2 Double.emax) (Double.nearest (- y)));
      [reflexivity|].
    f_equal. apply Qred_complete. rewrite En. reflexivity.
  - assert (Hx : 0 < x) by (rewrite Hxy; exact Hpos).
    pose proof (nearest_comp _ _ Hx Hxy) as En.
    rewrite (overflow_comp _ _ En).
    destruct (Qle_bool (Double.pow2 Double.emax) (Double.nearest y));
      [reflexivity|].
    f_equal. apply Qred_complete. exact En.
Qed.

(** Rounding is monotone: below a value that rounds to the float [d], a
    value that is not negative rounds to a float between 0 and [d]. *)
Lemma round_le x y d :
  0 <= x <= y -> Double.round y = FFin d ->
  exists r, Double.round x = FFin r /\ 0 <= r <= d.
Proof.
  intros [Hx Hxy] Hy.
  assert (Hd : 0 <= y) by lra.
  destruct (Qlt_le_dec 0 y) as [Hy0|Hy0].
  - rewrite (round_pos y Hy0) in Hy.
    destruct (Qle_bool (Double.pow2 Double.emax) (Double.nearest y))
      eqn:Hover; [discriminate|].
    injection Hy as <-. apply Qle_bool_false in Hover.
    destruct (Qlt_le_dec 0 x) as [Hx0|Hx0].
    + pose proof (nearest_mono x y Hx0 Hxy) as Hm.
      rewrite (round_pos x Hx0).
      destruct (Qle_bool (Double.pow2 Double.emax) (Double.nearest x))
        eqn:Hoverx.
      * exfalso. apply Qle_bool_iff in Hoverx. lra.
      * eexists. split; [reflexivity|]. rewrite !Qred_correct.
        split; [apply nearest_nonneg, Hx|exact Hm].
    + assert (E : x == 0) by lra.
      rewrite (round_comp x 0 E). exists 0. split; [reflexivity|].
      rewrite Qred_correct. split; [lra|apply nearest_nonneg, Hd].
  - assert (Ey : y == 0) by lra. assert (Ex : x == 0) by lra.
    rewrite (round_comp y 0 Ey) in Hy. rewrite (round_comp x 0 Ex).
    injection Hy as <-. exists 0. split; [reflexivity|].
    split; apply Qle_refl.
Qed.

(** The product of a float between 0 and 100 with a constant that is
    not negative is at most what the constant gives with 100. *)
Lemma mul_score_in_range c s bound :
  0 <= c -> 0 <= s <= 100 -> Double.round (c * 100) = FFin bound ->
  exists r, Double.mul (FFin c) (FFin s) = FFin r /\ 0 <= r <= bound.
Proof.
  intros Hc [Hs0 Hs100] Hb. cbn [Double.mul].
  apply (round_le (c * s) (c * 100) bound); [|exact Hb].
  split; [apply Qmult_le_0_compat; assumption|].
  rewrite (Qmult_comm c s), (Qmult_comm c 100).
  apply Qmult_le_compat_r; assumption.
Qed.

Lemma add_in_range p q bound_p bound_q bound :
  0 <= p <= bound_p -> 0 <= q <= bound_q ->
  Double.round (bound_p + bound_q) = FFin bound ->
  exists r, Double.add (FFin p) (FFin q) = FFin r /\ 0 <= r <= bound.
Proof.
  intros Hp Hq Hb. cbn [Double.add].
  apply (round_le (p + q) (bound_p + bound_q) bound); [lra|exact Hb].
Qed.

(** The literals [0.4] and [0.2]. *)
Lemma literal_0_4 :
  Double.literal (4 # 10) = FFin (3602879701896397 # 9007199254740992).
Proof. vm_compute. reflexivity. Qed.

Lemma literal_0_2 :
  Double.literal (2 # 10) = FFin (3602879701896397 # 18014398509481984).
Proof. vm_compute. reflexivity. Qed.

End DoubleFacts.

(** The products and sums of [calculate_fit_score] are rounded: for the
    scores 1, 98 and 84 the weighted average is 56.400000000000006, the
    float 1984398585810125 / 2^45, and not 282/5. *)
Example weighted_average_is_rounded :
  weighted_average
    (PDict [("skill_match_score", PFloat (FFin 1));
            ("experience_relevance_score", PFloat (FFin 98));
            ("education_alignment_score", PFloat (FFin 84))])
  = Return (FFin (1984398585810125 # 35184372088832))
  /\ ~ (1984398585810125 # 35184372088832 == 282 # 5)%Q
  /\ weighted_average
       (PDict [("skill_match_score", PFloat (FFin 80));
               ("experience_relevance_score", PFloat (FFin 60));
               ("education_alignment_score", PFloat (FFin 40))])
     = Return (FFin 64).
Proof.
  split; [vm_compute; reflexivity|].
  split; [discriminate|vm_compute; reflexivity].
Qed.

(** [float] of an [int]: integers up to 2^53 are floats; above, the
    nearest float is taken, the even one of two; from 2^1024 - 2^970 on
    the conversion raises. *)
Example float_of_int_rounds :
  float_of_int (2 ^ 53) = Return (FFin (inject_Z (2 ^ 53)))
  /\ float_of_int (2 ^ 53 + 1) = Return (FFin (inject_Z (2 ^ 53)))
  /\ float_of_int (2 ^ 53 + 3) = Return (FFin (inject_Z (2 ^ 53 + 4)))
  /\ float_of_int (2 ^ 1024 - 2 ^ 970 - 1)
     = Return (FFin (inject_Z (2 ^ 1024 - 2 ^ 971)))
  /\ float_of_int (2 ^ 1024 - 2 ^ 970)
     = Raise (Exn OverflowError "int too large to convert to float")
  /\ float_of_int (- 2 ^ 1024)
     = Raise (Exn OverflowError "int too large to convert to float").
Proof. repeat split; vm_compute; reflexivity. Qed.

Section RatioTest.

Local Open Scope Q_scope.

(** [_merge_chunk_data] tests [ratio() > 0.8] on two floats: the ratio
    [2.0 * matches / length] rounded, and the literal.  For sequences of
    fewer than 2^50 characters together this is the test of the exact
    quotient against 4/5. *)
Lemma threshold_test_is_exact (matches length : nat) :
  (2 * matches <= length)%nat ->
  (Z.of_nat length < 2 ^ 50)%Z ->
  Py.flt (Double.literal (8 # 10))
         (Double.round (Difflib.calculate_ratio matches length))
  = negb (Qle_bool (Difflib.calculate_ratio matches length)
                   similarity_threshold).
Proof.
  intros Hle Hlen.
  assert (Hlit : Double.literal (8 # 10)
                 = FFin (3602879701896397 # 4503599627370496))
    by (vm_compute; reflexivity).
  rewrite Hlit. unfold similarity_threshold.
  set (ratio := Difflib.calculate_ratio matches length).
  assert (Hratio : 0 <= ratio <= 1).
  { unfold ratio, Difflib.calculate_ratio. destruct length as [|n]; [lra|].
    assert (Hpos : (Z.pos (Pos.of_nat (S n)) = Z.of_nat (S n))%Z).
    { rewrite <- positive_nat_Z, Nat2Pos.id by discriminate. reflexivity. }
    unfold Qle. cbn [Qnum Qden]. rewrite Hpos. lia. }
  destruct (round_le ratio 1 1) as (r & Hr & Hr01);
    [exact Hratio|reflexivity|].
  rewrite Hr. cbn [Py.flt]. f_equal.
  destruct (Qle_bool ratio (8 # 10)) eqn:Hcmp.
  - apply Qle_bool_iff in Hcmp. apply Qle_bool_iff.
    destruct (round_le ratio (8 # 10) (3602879701896397 # 4503599627370496))
      as (r' & Hr' & Hle'); [lra|vm_compute; reflexivity|].
    rewrite Hr in Hr'. injection Hr' as <-. lra.
  - apply Qle_bool_false in Hcmp. apply not_true_is_false. intros Hrle.
    apply Qle_bool_iff in Hrle.
    assert (Hnext : 7205759403792795 # 9007199254740992 <= ratio).
    { unfold ratio, Difflib.calculate_ratio in *. destruct length as [|n].
      - unfold Qle. cbn. lia.
      - unfold Qlt in Hcmp. unfold Qle. cbn [Qnum Qden] in *.
        assert (Hpos : (Z.pos (Pos.of_nat (S n)) = Z.of_nat (S n))%Z).
        { rewrite <- positive_nat_Z, Nat2Pos.id by discriminate. reflexivity. }
        rewrite Hpos in *. lia. }
    destruct (round_le (7205759403792795 # 9007199254740992) ratio r)
      as (r' & Hr' & Hle');
      [split; [unfold Qle; cbn; lia|exact Hnext]|exact Hr|].
    assert (Hr'' : Double.round (7205759403792795 # 9007199254740992)
                   = FFin (7205759403792795 # 9007199254740992))
      by (vm_compute; reflexivity).
    rewrite Hr'' in Hr'. injection Hr' as <-.
    assert (3602879701896397 # 4503599627370496
            < 7205759403792795 # 9007199254740992) by (unfold Qlt; cbn; lia).
    lra.
Qed.

End RatioTest.

(** ** The fit score *)

Lemma clamp_in_range x : exists q, clamp x = FFin q /\ (0 <= q <= 100)%Q.
Proof.
  destruct x as [|[|]|q].
  - exists 100%Q. split; [reflexivity|lra].
  - exists 0%Q. split; [reflexivity|lra].
  - exists 100%Q. split; [reflexivity|lra].
  - unfold clamp, Py.min, Py.max. cbn.
    destruct (Qle_bool 100 q) eqn:E1; cbn.
    + exists 100%Q. split; [reflexivity|lra].
    + apply Qle_bool_false in E1.
      destruct (Qle_bool q 0) eqn:E2; cbn.
      * exists 0%Q. split; [reflexivity|lra].
      * apply Qle_bool_false in E2. exists q. split; [reflexivity|lra].
Qed.

Section FieldNormalization.

Context (env : Env).

Lemma normalize_field_returns scores field v :
  field <> "reasoning" ->
  normalize_field env scores field = Return v ->
  exists d d', scores = PDict d /\ v = PDict d'
    /\ score_ok d' field
    /\ (forall g, g <> field -> Py.lookup g d' = Py.lookup g d).
Proof.
  intros Hf. unfold normalize_field.
  apply String.eqb_neq in Hf as Hfb. rewrite Hfb. cbn [negb].
  destruct scores as [| | | | s | l | d]; cbn; try discriminate.
  - (* str *)
    destruct (Str.contains field s); cbn; discriminate.
  - (* list *)
    destruct (existsb _ l); cbn; discriminate.
  - (* dict *)
    unfold Py.has_key.
    destruct (Py.lookup field d) as [raw|] eqn:Hl; cbn.
    + destruct (py_float env raw) as [x|e] eqn:Hx; cbn.
      * intros [= <-]. exists d. eexists. split; [reflexivity|]. split; [reflexivity|].
        destruct (clamp_in_range x) as (q & Hq & Hr).
        split.
        -- exists q. now rewrite lookup_store_eq, Hq.
        -- intros g Hg. rewrite !lookup_store_ne by congruence. reflexivity.
      * destruct (is_ValueError_or_TypeError e); [|discriminate].
        intros [= <-]. exists d. eexists. split; [reflexivity|]. split; [reflexivity|].
        split.
        -- exists 15%Q. rewrite lookup_store_eq. split; [reflexivity|lra].
        -- intros g Hg. now rewrite lookup_store_ne by congruence.
    + intros [= <-]. exists d. eexists. split; [reflexivity|]. split; [reflexivity|].
      split.
      * exists 15%Q. rewrite lookup_store_eq. split; [reflexivity|lra].
      * intros g Hg. now rewrite lookup_store_ne by congruence.
Qed.

Lemma normalize_reasoning_returns d v :
  normalize_field env (PDict d) "reasoning" = Return v ->
  exists d', v = PDict d'
    /\ (forall g, g <> "reasoning" -> Py.lookup g d' = Py.lookup g d).
Proof.
  unfold normalize_field. cbn. unfold Py.has_key.
  destruct (Py.lookup "reasoning" d); cbn; intros [= <-]; eexists; split;
    try reflexivity; intros g Hg; rewrite ?lookup_store_ne by congruence; reflexivity.
Qed.

End FieldNormalization.

Section ScoreNormalization.

Context (env : Env).

Lemma score_ok_transport d d' f field :
  score_ok d field -> f <> field ->
  (forall g, g <> f -> Py.lookup g d' = Py.lookup g d) ->
  score_ok d' field.
Proof.
  intros (q & Hq & Hr) Hne Hsame. exists q. split; [|exact Hr].
  rewrite Hsame by congruence. exact Hq.
Qed.

Lemma weighted_average_in_range d :
  score_ok d "skill_match_score" ->
  score_ok d "experience_relevance_score" ->
  score_ok d "education_alignment_score" ->
  exists q, weighted_average (PDict d) = Return (FFin q) /\ (0 <= q <= 100)%Q.
Proof.
  intros (a & Ha & Hra) (b & Hb & Hrb) (c & Hc & Hrc).
  unfold weighted_average. cbn [py_getitem rbind]. rewrite Ha, Hb, Hc.
  rewrite literal_0_4, literal_0_2. cbn [py_scale rbind].
  destruct (mul_score_in_range (3602879701896397 # 9007199254740992) a 40)
    as (x & -> & Hx); [discriminate|exact Hra|vm_compute; reflexivity|].
  destruct (mul_score_in_range (3602879701896397 # 9007199254740992) b 40)
    as (y & -> & Hy); [discriminate|exact Hrb|vm_compute; reflexivity|].
  destruct (mul_score_in_range (3602879701896397 # 18014398509481984) c 20)
    as (z & -> & Hz); [discriminate|exact Hrc|vm_compute; reflexivity|].
  destruct (add_in_range x y 40 40 80 Hx Hy) as (xy & -> & Hxy);
    [vm_compute; reflexivity|].
  destruct (add_in_range xy z 80 20 100 Hxy Hz) as (q & -> & Hq);
    [vm_compute; reflexivity|].
  exists q. split; [reflexivity|exact Hq].
Qed.

Lemma normalize_scores_in_range scores v :
  normalize_scores env scores = Return v ->
  exists d, v = PDict d /\ Forall (score_ok d) score_fields.
Proof.
  unfold normalize_scores, required_fields, score_fields. cbn [app normalize_fields].
  destruct (normalize_field env scores "skill_match_score") as [s1|] eqn:H1;
    cbn [rbind]; [|discriminate].
  apply normalize_field_returns in H1 as (d0 & d1 & -> & -> & Hs1 & _); [|discriminate].
  destruct (normalize_field env (PDict d1) "experience_relevance_score") as [s2|] eqn:H2;
    cbn [rbind]; [|discriminate].
  apply normalize_field_returns in H2 as (? & d2 & [= <-] & -> & Hs2 & Hk2); [|discriminate].
  destruct (normalize_field env (PDict d2) "education_alignment_score") as [s3|] eqn:H3;
    cbn [rbind]; [|discriminate].
  apply normalize_field_returns in H3 as (? & d3 & [= <-] & -> & Hs3 & Hk3); [|discriminate].
  destruct (normalize_field env (PDict d3) "overall_fit_score") as [s4|] eqn:H4;
    cbn [rbind]; [|discriminate].
  apply normalize_field_returns in H4 as (? & d4 & [= <-] & -> & Hs4 & Hk4); [|discriminate].
  destruct (normalize_field env (PDict d4) "reasoning") as [s5|] eqn:H5;
    cbn [rbind]; [|discriminate].
  apply normalize_reasoning_returns in H5 as (d5 & -> & Hk5).
  assert (Hskill : score_ok d5 "skill_match_score").
  { (eapply score_ok_transport; [ | |exact Hk5]; [|discriminate]).
    (eapply score_ok_transport; [ | |exact Hk4]; [|discriminate]).
    (eapply score_ok_transport; [ | |exact Hk3]; [|discriminate]).
    (eapply score_ok_transport; [ | |exact Hk2]; [|discriminate]). exact Hs1. }
  assert (Hexp : score_ok d5 "experience_relevance_score").
  { (eapply score_ok_transport; [ | |exact Hk5]; [|discriminate]).
    (eapply score_ok_transport; [ | |exact Hk4]; [|discriminate]).
    (eapply score_ok_transport; [ | |exact Hk3]; [|discriminate]). exact Hs2. }
  assert (Hedu : score_ok d5 "education_alignment_score").
  { (eapply score_ok_transport; [ | |exact Hk5]; [|discriminate]).
    (eapply score_ok_transport; [ | |exact Hk4]; [|discriminate]). exact Hs3. }
  assert (Hall : score_ok d5 "overall_fit_score").
  { (eapply score_ok_transport; [ | |exact Hk5]; [|discriminate]). exact Hs4. }
  destruct Hall as (o & Ho & Hro).
  cbn [py_getitem]. rewrite Ho. cbn [rbind].
  assert (Hkeep : (Return (PDict d5) : result pyval) = Return v ->
                  exists d, v = PDict d /\ Forall (score_ok d)
                    ["skill_match_score"; "experience_relevance_score";
                     "education_alignment_score"; "overall_fit_score"]).
  { intros [= <-]. exists d5. split; [reflexivity|].
    repeat constructor; auto. exists o. auto. }
  assert (Hnew : (let? average := weighted_average (PDict d5) in
                  py_setitem (PDict d5) "overall_fit_score" (PFloat average))
                 = Return v ->
                 exists d, v = PDict d /\ Forall (score_ok d)
                    ["skill_match_score"; "experience_relevance_score";
                     "education_alignment_score"; "overall_fit_score"]).
  { destruct (weighted_average_in_range d5 Hskill Hexp Hedu) as (q & -> & Hrq).
    cbn. intros [= <-]. eexists. split; [reflexivity|].
    repeat constructor.
    - eapply (score_ok_transport d5 _ "overall_fit_score"); [exact Hskill|discriminate|].
      intros g Hg. now rewrite lookup_store_ne by congruence.
    - eapply (score_ok_transport d5 _ "overall_fit_score"); [exact Hexp|discriminate|].
      intros g Hg. now rewrite lookup_store_ne by congruence.
    - eapply (score_ok_transport d5 _ "overall_fit_score"); [exact Hedu|discriminate|].
      intros g Hg. now rewrite lookup_store_ne by congruence.
    - exists q. now rewrite lookup_store_eq. }
  destruct (Py.truthy (PFloat (FFin o))); cbn [negb rbind].
  - cbn [py_gt_100 rbind]. destruct (Py.flt (FFin 100) (FFin o)); auto.
  - auto.
Qed.

End ScoreNormalization.

Lemma flat_scores_in_range q reasoning :
  (0 <= q <= 100)%Q ->
  exists d, flat_scores q reasoning = PDict d /\ Forall (score_ok d) score_fields.
Proof.
  intros Hq. eexists. split; [reflexivity|].
  repeat constructor; exists q; (split; [reflexivity|exact Hq]).
Qed.

Lemma flat_scores_returned q reasoning w :
  (0 <= q <= 100)%Q -> scores_returned (Return (flat_scores q reasoning), w).
Proof.
  intros Hq. destruct (flat_scores_in_range q reasoning Hq) as (d & -> & Hd).
  exists d, w. auto.
Qed.

(** C10. Whatever the resume, the job and the outside world are,
    [calculate_fit_score] returns a mapping, and in it each of
    [skill_match_score], [experience_relevance_score],
    [education_alignment_score] and [overall_fit_score] is a float between
    0 and 100: on the early exit, after a response was normalized, after a
    JSON decoding failure, and after any other error. *)
Theorem fit_scores_in_range (env : Env) (parsed_resume job_details : pyval)
    (w : World) :
  exists d w',
    calculate_fit_score env parsed_resume job_details w = (Return (PDict d), w')
    /\ Forall (score_ok d) score_fields.
Proof.
  change (scores_returned (calculate_fit_score env parsed_resume job_details w)).
  unfold calculate_fit_score. unfold try_except at 1.
  match goal with |- scores_returned (match ?body w with _ => _ end) =>
    destruct (body w) as [[v|e] w1] eqn:Hbody end.
  2: { apply flat_scores_returned. lra. }
  apply bind_returns in Hbody as (skills & w2 & _ & Hbody).
  apply bind_returns in Hbody as (skip & w3 & _ & Hbody).
  destruct skip.
  - injection Hbody as <- <-. apply flat_scores_returned. lra.
  - unfold try_except in Hbody.
    match type of Hbody with (match ?inner w3 with _ => _ end) = _ =>
      destruct (inner w3) as [[v'|e] w4] eqn:Hinner end.
    + injection Hbody as <- <-.
      apply bind_returns in Hinner as (scores & w5 & _ & Hnorm).
      unfold lift in Hnorm. injection Hnorm as Hnorm <-.
      apply normalize_scores_in_range in Hnorm as (d & -> & Hd).
      exists d. eexists. split; [reflexivity|exact Hd].
    + destruct (is_JSONDecodeError e); injection Hbody as <- <-;
        apply flat_scores_returned; lra.
Qed.

(** C6. When the [skills] list and the [experience] list of the parsed
    resume are both empty, [calculate_fit_score] returns the minimal
    mapping, in which the four scores are 5.0, and leaves the world as it
    was: nothing was sent to the generation service and nothing slept. *)
Theorem empty_resume_scores_minimal (env : Env) (d : list (string * pyval))
    (job_details : pyval) (w : World) :
  Py.lookup "skills" d = Some (PList []) ->
  Py.lookup "experience" d = Some (PList []) ->
  calculate_fit_score env (PDict d) job_details w = (Return minimal_scores, w)
  /\ Forall (fun field =>
               py_getitem minimal_scores field = Return (PFloat (FFin 5)))
            score_fields.
Proof.
  intros Hs He. split.
  - unfold calculate_fit_score, try_except, bind, lift, ret, py_get, Py.get_default.
    rewrite Hs. cbn. rewrite He. reflexivity.
  - repeat constructor.
Qed.

Lemma empty_resume_scores_minimal_witness :
  calculate_fit_score (scripted_env [] (Raise decode_error))
                      (parsing_failure decode_error) (PDict []) fresh_world
  = (Return minimal_scores, fresh_world)
  /\ Forall (fun field =>
               py_getitem minimal_scores field = Return (PFloat (FFin 5)))
            score_fields.
Proof.
  exact (empty_resume_scores_minimal
           (scripted_env [] (Raise decode_error))
           [("education", PList []); ("skills", PList []);
            ("experience", PList []); ("projects", PList []);
            ("parsing_error", PStr (exn_str decode_error))]
           (PDict []) fresh_world eq_refl eq_refl).
Defined.
(** ** The boundary of parse_resume *)

Lemma rstrip_nonempty c s :
  Str.is_space c = false -> Str.rstrip (String c s) <> EmptyString.
Proof.
  intros Hc. cbn. destruct (Str.rstrip s); [rewrite Hc|]; discriminate.
Qed.

Lemma lstrip_all_space s :
  Str.all_space s = true -> Str.lstrip s = EmptyString.
Proof.
  induction s as [|c s IH]; cbn; [reflexivity|].
  intros [Hc Hs]%andb_prop. rewrite Hc. auto.
Qed.

Lemma lstrip_not_all_space s :
  Str.all_space s = false ->
  exists c s', Str.lstrip s = String c s' /\ Str.is_space c = false.
Proof.
  induction s as [|c s IH]; cbn; [discriminate|].
  destruct (Str.is_space c) eqn:Hc; cbn; [exact IH|eauto].
Qed.

(** [not s or not s.strip()] holds exactly of the strings made of
    whitespace only. *)
Lemma blank_iff_all_space s : Str.blank s = Str.all_space s.
Proof.
  destruct s as [|c s]; [reflexivity|].
  unfold Str.blank, Str.strip.
  destruct (Str.all_space (String c s)) eqn:Hall.
  - now rewrite (lstrip_all_space _ Hall).
  - destruct (lstrip_not_all_space _ Hall) as (c' & s' & -> & Hc').
    pose proof (rstrip_nonempty c' s' Hc') as Hne.
    destruct (Str.rstrip (String c' s')); [congruence|reflexivity].
Qed.

(** C4. [parse_resume] raises exactly when the text is empty or made of
    whitespace only, and then it raises the [ValueError] of its first
    line.  On any other text it returns: the value of its body, or, when
    the body raised [e], the mapping with four empty lists and
    [parsing_error] set to [str(e)]. *)
Theorem parse_resume_raises_iff_blank (env : Env) (text : string) (w : World) :
  ((exists e w', parse_resume env text w = (Raise e, w'))
   <-> Str.all_space text = true)
  /\ (forall e w', parse_resume env text w = (Raise e, w') ->
                   e = Exn ValueError "Resume text is empty or invalid" /\ w' = w)
  /\ (Str.all_space text = false ->
      exists v w',
        parse_resume env text w = (Return v, w')
        /\ (parse_body env text w = (Return v, w')
            \/ exists e,
                 parse_body env text w = (Raise e, w')
                 /\ v = PDict [("education", PList []); ("skills", PList []);
                               ("experience", PList []); ("projects", PList []);
                               ("parsing_error", PStr (exn_str e))])).
Proof.
  unfold parse_resume. rewrite blank_iff_all_space.
  destruct (Str.all_space text) eqn:Hall.
  - split; [|split].
    + split; [reflexivity|]. intros _. eexists. eexists. reflexivity.
    + intros e w' [= <- <-]. auto.
    + discriminate.
  - unfold try_except.
    destruct (parse_body env text w) as [[v|e] w1] eqn:Hbody.
    + split; [|split].
      * split; [intros (e & w' & [=])|discriminate].
      * intros e w' [=].
      * intros _. exists v, w1. auto.
    + split; [|split].
      * split; [intros (e' & w' & [=])|discriminate].
      * intros e' w' [=].
      * intros _. eexists. exists w1. split; [reflexivity|].
        right. exists e. auto.
Qed.

(** The handler of [parse_resume] is reachable: when the service answers
    each of the three attempts on a chunk with the JSON number 5, the
    value is kept in [chunk_info], the test [key in chunk_info] raises a
    [TypeError], and the parse ends with the error mapping. *)
Example parse_resume_internal_error :
  let env := scripted_env [Return "5"; Return "5"; Return "5"] (Return (PInt 5)) in
  fst (parse_resume env "Python developer" fresh_world)
  = Return (PDict [("education", PList []); ("skills", PList []);
                   ("experience", PList []); ("projects", PList []);
                   ("parsing_error", PStr "argument of type 'int' is not iterable")]).
Proof. vm_compute. reflexivity. Qed.

(** ** Finalization *)

Section FinalizeFacts.

Context (env : Env).

Lemma strip_strs_list l : exists r, strip_strs env (PList l) = Return r.
Proof. unfold strip_strs. cbn. eauto. Qed.

Lemma list_field_get k d :
  list_field k (PDict d) = true -> Py.has_key k d = true ->
  exists l, Py.get_default k PNone d = PList l.
Proof.
  unfold list_field, Py.has_key, Py.get_default.
  destruct (Py.lookup k d) as [[]|]; try discriminate; eauto.
Qed.

Lemma has_keys_last keys k d :
  has_keys (keys ++ [k]) d = true -> Py.has_key k d = true.
Proof.
  unfold has_keys. rewrite forallb_app. cbn.
  intros [_ H]%andb_prop. now rewrite andb_true_r in H.
Qed.

Lemma clean_experience_returns entries :
  forallb (list_field "responsibilities") entries = true ->
  exists r, clean_experience env entries = Return r.
Proof.
  induction entries as [|exp rest IH]; cbn [forallb clean_experience]; [eauto|].
  intros [Hexp Hrest]%andb_prop. destruct (IH Hrest) as (r & Hr).
  destruct exp; eauto.
  destruct (has_keys _ d) eqn:Hkeys; [|eauto].
  apply (has_keys_last ["title"; "company"; "duration"]) in Hkeys.
  destruct (list_field_get _ _ Hexp Hkeys) as (l & ->).
  destruct (strip_strs_list l) as (rs & ->). cbn [rbind]. rewrite Hr. cbn. eauto.
Qed.

Lemma clean_projects_returns entries :
  forallb (list_field "technologies") entries = true ->
  exists r, clean_projects env entries = Return r.
Proof.
  induction entries as [|proj rest IH]; cbn [forallb clean_projects]; [eauto|].
  intros [Hproj Hrest]%andb_prop. destruct (IH Hrest) as (r & Hr).
  destruct proj; eauto.
  destruct (has_keys _ d) eqn:Hkeys; [|eauto].
  apply (has_keys_last ["name"; "description"]) in Hkeys.
  destruct (list_field_get _ _ Hproj Hkeys) as (l & ->).
  destruct (strip_strs_list l) as (ts & ->). cbn [rbind]. rewrite Hr. cbn. eauto.
Qed.

Lemma fill_sections_no_section_empty education skills experience projects :
  Forall (fun key =>
            exists item items,
              Py.lookup key
                (fst (is_valid_result
                        (accumulator education skills experience projects)))
              = Some (PList (item :: items)))
         section_keys.
Proof.
  destruct education, skills, experience, projects;
    repeat constructor; cbn; eauto.
Qed.

(** Finalization of an accumulator whose experience and project entries
    keep lists under [responsibilities] and [technologies]. *)
Lemma finalize_accumulator education skills experience projects :
  forallb (list_field "responsibilities") experience = true ->
  forallb (list_field "technologies") projects = true ->
  exists cleaned,
    finalize env (accumulator education skills experience projects)
    = Return cleaned
    /\ Forall (fun key =>
                 exists item items,
                   Py.lookup key cleaned = Some (PList (item :: items)))
              section_keys.
Proof.
  intros Hexp Hproj. unfold finalize, clean_combined_info. cbn.
  destruct (clean_experience_returns experience Hexp) as (cx & ->).
  destruct (clean_projects_returns projects Hproj) as (cp & ->).
  cbn [rbind]. eexists. split; [reflexivity|].
  apply fill_sections_no_section_empty.
Qed.

End FinalizeFacts.

(** C5. Finalization of the accumulator with four empty lists gives one
    placeholder in each section, and finalization of any accumulator
    whose experience and project entries keep their [responsibilities]
    and [technologies] as lists (as every validated entry does) returns a
    mapping in which none of the four sections is empty. *)
Theorem finalize_leaves_no_section_empty (env : Env)
    (education skills experience projects : list pyval) :
  forallb (list_field "responsibilities") experience = true ->
  forallb (list_field "technologies") projects = true ->
  finalize env (accumulator [] [] [] [])
  = Return (accumulator [placeholder_education] [placeholder_skill]
                        [placeholder_experience] [placeholder_project])
  /\ exists cleaned,
       finalize env (accumulator education skills experience projects)
       = Return cleaned
       /\ Forall (fun key =>
                    exists item items,
                      Py.lookup key cleaned = Some (PList (item :: items)))
                 section_keys.
Proof.
  intros Hexp Hproj. split; [reflexivity|].
  now apply finalize_accumulator.
Qed.

Lemma finalize_leaves_no_section_empty_witness :
  let env := scripted_env [] (Raise decode_error) in
  let experience :=
    [PDict [("title", PStr "Engineer"); ("company", PStr "Acme");
            ("duration", PStr "2020-2022"); ("responsibilities", PList [])]] in
  finalize env (accumulator [] [] [] [])
  = Return (accumulator [placeholder_education] [placeholder_skill]
                        [placeholder_experience] [placeholder_project])
  /\ exists cleaned,
       finalize env (accumulator [] [PStr "Python"] experience [])
       = Return cleaned
       /\ Forall (fun key =>
                    exists item items,
                      Py.lookup key cleaned = Some (PList (item :: items)))
                 section_keys.
Proof.
  exact (finalize_leaves_no_section_empty
           (scripted_env [] (Raise decode_error)) [] [PStr "Python"]
           [PDict [("title", PStr "Engineer"); ("company", PStr "Acme");
                   ("duration", PStr "2020-2022");
                   ("responsibilities", PList [])]] []
           eq_refl eq_refl).
Defined.

(** ** difflib: a sequence compared with itself *)

Section DifflibIndex.
Local Open Scope nat_scope.

Lemma index_b_indexed (s : list ascii) :
  ∀ b pre m,
    s = pre ++ b → indexed s (length pre) m →
    indexed s (length s) (Difflib.index_b b (length pre) m).
Proof.
  induction b as [|elt b IH]; intros pre m Hs Hm; cbn.
  - rewrite app_nil_r in Hs. subst pre. exact Hm.
  - replace (S (length pre)) with (length (pre ++ [elt]))
      by (rewrite length_app; cbn; lia).
    apply IH; [now rewrite <- app_assoc|].
    rewrite length_app. cbn.
    assert (Helt : s !! length pre = Some elt).
    { subst s. now rewrite list_lookup_middle. }
    intros c. destruct (Hm c) as [Hsorted Hmem].
    destruct (decide (c = elt)) as [->|Hne].
    + rewrite lookup_insert_eq. cbn. split.
      * apply StronglySorted_app_2; [|exact Hsorted|repeat constructor].
        intros x y Hx ->%list_elem_of_singleton. now apply Hmem in Hx.
      * intros x. rewrite elem_of_app, list_elem_of_singleton, Hmem.
        split.
        -- intros [[? ?]| ->]; split; auto; lia.
        -- intros [Hx Hc]. destruct (decide (x = length pre)); [auto|].
           left. split; [lia|exact Hc].
    + rewrite lookup_insert_ne by congruence. split; [exact Hsorted|].
      intros x. rewrite Hmem. split.
      * intros [? ?]. split; [lia|auto].
      * intros [Hx Hc]. split; [|exact Hc].
        destruct (decide (x = length pre)) as [->|]; [congruence|lia].
Qed.

Lemma chain_b_lookup (s : list ascii) c js :
  Difflib.chain_b s !! c = Some js →
  StronglySorted lt js ∧ ∀ x, x ∈ js ↔ s !! x = Some c.
Proof.
  intros Hjs.
  assert (Hfull : Difflib.index_b s 0 ∅ !! c = Some js).
  { unfold Difflib.chain_b in Hjs.
    destruct (200 <=? length s); [|exact Hjs].
    now apply map_lookup_filter_Some in Hjs as [? _]. }
  assert (Hempty : indexed s 0 ∅).
  { intros c'. rewrite lookup_empty. cbn. split; [constructor|].
    intros x. rewrite elem_of_nil. split; [tauto|]. intros [? _]. lia. }
  destruct (index_b_indexed s s [] ∅ eq_refl Hempty c) as [Hsorted Hmem].
  cbn [length] in Hsorted, Hmem.
  rewrite Hfull in Hsorted, Hmem. cbn in Hsorted, Hmem.
  split; [exact Hsorted|]. intros x. rewrite Hmem. split; [now intros [_ ?]|].
  intros Hx. split; [|exact Hx]. now apply lookup_lt_Some in Hx.
Qed.

End DifflibIndex.

Section DifflibDiagonal.
Local Open Scope nat_scope.

Context (s : list ascii).
Local Abbreviation b2j := (Difflib.chain_b s).

Lemma row_spec x y :
  y ∈ row_of b2j s x ↔
  ∃ c js, s !! x = Some c ∧ b2j !! c = Some js ∧ s !! y = Some c.
Proof.
  unfold row_of. destruct (s !! x) as [c|]; cbn.
  - destruct (b2j !! c) as [js|] eqn:Hjs; cbn.
    + apply chain_b_lookup in Hjs as Hc. destruct Hc as [_ Hmem].
      rewrite Hmem. split; [eauto|]. now intros (? & ? & [= <-] & _ & ?).
    + rewrite elem_of_nil. split; [tauto|]. intros (? & ? & [= <-] & ? & _).
      congruence.
  - rewrite elem_of_nil. split; [tauto|]. now intros (? & ? & ? & _).
Qed.

Lemma row_sorted x : StronglySorted lt (row_of b2j s x).
Proof.
  unfold row_of. destruct (s !! x) as [c|]; cbn; [|constructor].
  destruct (b2j !! c) as [js|] eqn:Hjs; cbn; [|constructor].
  now apply chain_b_lookup in Hjs as [? _].
Qed.

Lemma row_diag_r x y : y ∈ row_of b2j s x → y ∈ row_of b2j s y.
Proof. rewrite !row_spec. intros (c & js & _ & ? & ?). eauto. Qed.

Lemma row_diag_l x y : y ∈ row_of b2j s x → x ∈ row_of b2j s x.
Proof. rewrite !row_spec. intros (c & js & ? & ? & _). eauto. Qed.

Lemma row_lt x y : y ∈ row_of b2j s x → y < length s.
Proof.
  rewrite row_spec. intros (c & js & _ & _ & Hy). now apply lookup_lt_Some in Hy.
Qed.

Lemma run_unvisited x y : y ∉ row_of b2j s x → run b2j s x y = 0.
Proof. intros H. destruct x; cbn; now rewrite bool_decide_eq_false_2. Qed.

Lemma run_visited x y :
  y ∈ row_of b2j s x →
  run b2j s x y = S (match x, y with
                     | S x', S y' => run b2j s x' y'
                     | _, _ => 0
                     end).
Proof. intros H. destruct x; cbn; now rewrite bool_decide_eq_true_2. Qed.

Lemma run_le_l x : ∀ y, run b2j s x y ≤ run b2j s x x.
Proof.
  induction x as [|x IH]; intros y.
  - destruct (decide (y ∈ row_of b2j s 0)) as [Hy|Hy].
    + rewrite (run_visited _ _ Hy), (run_visited _ _ (row_diag_l _ _ Hy)). lia.
    + rewrite (run_unvisited _ _ Hy). lia.
  - destruct (decide (y ∈ row_of b2j s (S x))) as [Hy|Hy].
    + rewrite (run_visited _ _ Hy), (run_visited _ _ (row_diag_l _ _ Hy)).
      destruct y; [lia|]. specialize (IH y). lia.
    + rewrite (run_unvisited _ _ Hy). lia.
Qed.

Lemma run_le_r x : ∀ y, run b2j s x y ≤ run b2j s y y.
Proof.
  induction x as [|x IH]; intros y.
  - destruct (decide (y ∈ row_of b2j s 0)) as [Hy|Hy].
    + rewrite (run_visited _ _ Hy), (run_visited _ _ (row_diag_r _ _ Hy)). lia.
    + rewrite (run_unvisited _ _ Hy). lia.
  - destruct (decide (y ∈ row_of b2j s (S x))) as [Hy|Hy].
    + rewrite (run_visited _ _ Hy), (run_visited _ _ (row_diag_r _ _ Hy)).
      destruct y; [lia|]. specialize (IH y). lia.
    + rewrite (run_unvisited _ _ Hy). lia.
Qed.

Lemma run_le_S x : ∀ y, run b2j s x y ≤ S x.
Proof.
  induction x as [|x IH]; intros y; cbn; case_bool_decide; try lia.
  destruct y; [lia|]. specialize (IH y). lia.
Qed.

End DifflibDiagonal.

Section DifflibScan.
Local Open Scope nat_scope.

Context (s : list ascii).
Local Abbreviation b2j := (Difflib.chain_b s).
Local Abbreviation n := (length s).

Lemma pred_run i j j2len :
  prev_ok b2j s i j2len → j ∈ row_of b2j s i →
  Difflib.j2lenget_pred j2len j + 1 = run b2j s i j.
Proof.
  intros Hprev Hj. rewrite (run_visited _ _ _ Hj). unfold Difflib.j2lenget_pred.
  destruct j as [|j]; [destruct i; lia|].
  rewrite (Hprev j). destruct i; lia.
Qed.

Lemma scan_row_diagonal i :
  ∀ js done j2len newj2len best,
    row_of b2j s i = done ++ js →
    prev_ok b2j s i j2len →
    (∀ y, default 0 (newj2len !! y)
          = if bool_decide (y ∈ done) then run b2j s i y else 0) →
    best_ok b2j s i done best →
    (∀ y, default 0 ((Difflib.scan_row js 0 n i j2len newj2len best).1 !! y)
          = run b2j s i y)
    ∧ best_ok b2j s i (done ++ js)
              (Difflib.scan_row js 0 n i j2len newj2len best).2.
Proof.
  induction js as [|j js IH]; intros done j2len newj2len best Hrow Hprev Hnew Hbest.
  - cbn. rewrite app_nil_r in *. split; [|exact Hbest].
    intros y. rewrite Hnew. case_bool_decide as Hy; [reflexivity|].
    rewrite <- Hrow in Hy. now rewrite run_unvisited.
  - assert (Hj : j ∈ row_of b2j s i).
    { rewrite Hrow. apply elem_of_app. right. apply elem_of_cons. now left. }
    cbn [Difflib.scan_row].
    destruct (Nat.ltb_spec j 0) as [?|_]; [lia|].
    pose proof (row_lt _ _ _ Hj) as Hlt.
    destruct (Nat.leb_spec n j) as [?|_]; [lia|].
    rewrite (pred_run _ _ _ Hprev Hj).
    replace (done ++ j :: js) with ((done ++ [j]) ++ js) in *
      by now rewrite <- app_assoc.
    apply IH; [exact Hrow|exact Hprev| |].
    + intros y. destruct (decide (y = j)) as [->|Hne].
      * rewrite lookup_insert_eq. cbn.
        rewrite bool_decide_eq_true_2; [reflexivity|].
        apply elem_of_app. right. now apply list_elem_of_singleton.
      * rewrite lookup_insert_ne by congruence. rewrite Hnew.
        assert (Hiff : y ∈ done ↔ y ∈ done ++ [j]).
        { rewrite elem_of_app, list_elem_of_singleton. tauto. }
        now rewrite (bool_decide_ext _ _ Hiff).
    + destruct Hbest as (bi & bk & -> & Hsum & Hold & Hcur). cbn [snd].
      pose proof (row_sorted s i) as Hsorted.
      rewrite Hrow in Hsorted.
      destruct (Nat.ltb_spec bk (run b2j s i j)) as [Hbetter|Hkeep].
      * assert (i = j) as <-.
        { destruct (Nat.lt_trichotomy i j) as [Hij|[Heq|Hji]]; [|exact Heq|].
          - (* the diagonal cell of this row came first *)
            assert (Hi : i ∈ done).
            { pose proof (row_diag_l _ _ _ Hj) as Hi.
              rewrite Hrow in Hi.
              apply elem_of_app in Hi as [Hi|Hi].
              - apply elem_of_app in Hi as [Hi|Hi]; [exact Hi|].
                apply list_elem_of_singleton in Hi. lia.
              - apply StronglySorted_app in Hsorted as (Hlt' & _ & _).
                specialize (Hlt' j i).
                assert (j < i); [|lia].
                apply Hlt'; [|exact Hi].
                apply elem_of_app. right. now apply list_elem_of_singleton. }
            pose proof (run_le_l s i j) as Hle.
            specialize (Hcur Hi). lia.
          - (* the diagonal cell of row j was seen in that row *)
            pose proof (run_le_r s i j) as Hle.
            specialize (Hold j Hji). lia. }
        pose proof (run_le_S s i i) as HleS.
        eexists _, _. split; [reflexivity|].
        split; [lia|]. split; [intros x Hx; specialize (Hold x Hx); lia|].
        intros _. lia.
      * exists bi, bk. split; [reflexivity|]. split; [exact Hsum|].
        split; [exact Hold|].
        intros [Hi|Hi]%elem_of_app; [auto|].
        apply list_elem_of_singleton in Hi as ->. exact Hkeep.
Qed.

End DifflibScan.

Section DifflibSelf.
Local Open Scope nat_scope.

Context (s : list ascii).
Local Abbreviation b2j := (Difflib.chain_b s).
Local Abbreviation n := (length s).

Lemma scan_rows_diagonal :
  ∀ m i j2len best,
    i + m = n →
    prev_ok b2j s i j2len →
    (∃ bi bk, best = (bi, bi, bk) ∧ bi + bk ≤ i
              ∧ ∀ x, x < i → run b2j s x x ≤ bk) →
    ∃ bi bk,
      Difflib.scan_rows b2j s 0 n (seq i m) j2len best = (bi, bi, bk)
      ∧ bi + bk ≤ n.
Proof.
  induction m as [|m IH]; intros i j2len best Hlen Hprev Hbest.
  - cbn. destruct Hbest as (bi & bk & -> & Hsum & _).
    exists bi, bk. split; [reflexivity|lia].
  - cbn [seq Difflib.scan_rows].
    change (default [] (s !! i ≫= λ elt, b2j !! elt)) with (row_of b2j s i).
    destruct (scan_row_diagonal s i (row_of b2j s i) [] j2len ∅ best)
      as [Hnew Hbest']; [reflexivity|exact Hprev| |..].
    + intros y. now rewrite lookup_empty.
    + destruct Hbest as (bi & bk & -> & Hsum & Hold).
      exists bi, bk. split; [reflexivity|]. split; [lia|].
      split; [exact Hold|]. now intros ?%elem_of_nil.
    + destruct (Difflib.scan_row _ _ _ _ _ _ _) as [newj2len best'].
      cbn [fst snd app] in Hnew, Hbest'.
      apply IH; [lia|exact Hnew|].
      destruct Hbest' as (bi & bk & -> & Hsum & Hold & Hcur).
      exists bi, bk. split; [reflexivity|]. split; [lia|].
      intros x Hx. destruct (decide (x = i)) as [->|]; [|apply Hold; lia].
      destruct (decide (i ∈ row_of b2j s i)) as [Hi|Hi]; [auto|].
      rewrite (run_unvisited _ _ _ Hi). lia.
Qed.

Lemma extend_left_same :
  ∀ i k, Difflib.extend_left s s 0 0 i i k = (0, 0, k + i).
Proof.
  induction i as [|i IH]; intros k; cbn.
  - f_equal. lia.
  - rewrite bool_decide_eq_true_2 by reflexivity. cbn. rewrite IH. f_equal. lia.
Qed.

Lemma extend_right_same :
  ∀ fuel size, size ≤ n → fuel = n - size →
    Difflib.extend_right fuel s s n n 0 0 size = (0, 0, n).
Proof.
  induction fuel as [|fuel IH]; intros size Hle Hfuel;
    cbn [Difflib.extend_right Nat.add].
  - f_equal. lia.
  - destruct (Nat.ltb_spec size n) as [_|?]; [|lia]. cbn [andb].
    rewrite bool_decide_eq_true_2 by reflexivity.
    apply IH; lia.
Qed.

Lemma find_longest_match_same :
  Difflib.find_longest_match b2j s s 0 n 0 n = (0, 0, n).
Proof.
  unfold Difflib.find_longest_match. rewrite Nat.sub_0_r.
  destruct (scan_rows_diagonal n 0 ∅ (0, 0, 0)) as (bi & bk & -> & Hsum).
  - reflexivity.
  - intros y. now rewrite lookup_empty.
  - exists 0, 0. split; [reflexivity|]. split; [lia|]. intros x ?. lia.
  - rewrite extend_left_same. apply extend_right_same; lia.
Qed.

Lemma matches_same : Difflib.matches s s = n.
Proof.
  unfold Difflib.matches, Difflib.get_matching_blocks.
  replace (2 * n + 1) with (S (2 * n)) by lia.
  cbn [Difflib.matching_loop]. rewrite find_longest_match_same.
  destruct (Nat.eqb_spec n 0) as [->|Hn]; [reflexivity|].
  rewrite Nat.ltb_irrefl. cbn [andb].
  replace (0 + n <? n) with false by (symmetry; apply Nat.ltb_ge; lia).
  cbn [andb]. destruct (2 * n); cbn; lia.
Qed.

End DifflibSelf.

(** A string compared with itself has ratio 1, above the threshold of the
    duplicate test. *)
Lemma ratio_self (a : string) : (Difflib.ratio a a == 1)%Q.
Proof.
  unfold Difflib.ratio. rewrite matches_same.
  set (n := length (list_ascii_of_string a)).
  destruct n as [|n]; [reflexivity|].
  unfold Difflib.calculate_ratio. cbn [Nat.add].
  unfold Qeq. cbn [Qnum Qden].
  rewrite <- (positive_nat_Z (Pos.of_nat _)), Nat2Pos.id by discriminate. lia.
Qed.

Lemma ratio_self_is_duplicate (a : string) :
  negb (Qle_bool (Difflib.ratio a a) similarity_threshold) = true.
Proof.
  apply negb_true_iff. apply not_true_is_false. intros H%Qle_bool_iff.
  rewrite ratio_self in H. unfold similarity_threshold in H.
  revert H. apply Qlt_not_le. reflexivity.
Qed.

(** ** difflib: the loop of get_matching_blocks ends *)

Section DifflibTermination.
Local Open Scope nat_scope.

Context (b2j : gmap ascii (list nat)) (a b : list ascii).

Lemma j2lenget_pred_bound (j2len : gmap nat nat) bound j :
  (∀ y v, j2len !! y = Some v → v ≤ bound) →
  Difflib.j2lenget_pred j2len j ≤ bound.
Proof.
  intros H. destruct j as [|j]; cbn; [lia|].
  destruct (j2len !! j) as [v|] eqn:E; cbn; [eauto|lia].
Qed.

Lemma scan_row_bounds alo blo bhi i :
  alo ≤ i →
  ∀ js j2len newj2len best,
    (∀ y v, j2len !! y = Some v → v ≤ i - alo) →
    (∀ y v, newj2len !! y = Some v → v ≤ S i - alo) →
    alo ≤ best.1.1 ∧ best.1.1 + best.2 ≤ S i →
    let r := Difflib.scan_row js blo bhi i j2len newj2len best in
    (∀ y v, r.1 !! y = Some v → v ≤ S i - alo)
    ∧ alo ≤ r.2.1.1 ∧ r.2.1.1 + r.2.2 ≤ S i.
Proof.
  intros Hi. induction js as [|j js IH]; intros j2len newj2len best Hprev Hnew Hbest;
    cbn [Difflib.scan_row].
  - cbn. auto.
  - destruct (j <? blo); [now apply IH|].
    destruct (bhi <=? j); [cbn; auto|].
    pose proof (j2lenget_pred_bound j2len _ j Hprev) as Hk.
    apply IH; [exact Hprev| |].
    + intros y v. destruct (decide (j = y)) as [->|Hne].
      * rewrite lookup_insert_eq. intros [= <-]. lia.
      * rewrite lookup_insert_ne by exact Hne. apply Hnew.
    + destruct (best.2 <? _); [cbn; lia|exact Hbest].
Qed.

Lemma scan_rows_bounds alo blo bhi :
  ∀ m i j2len best,
    alo ≤ i →
    (∀ y v, j2len !! y = Some v → v ≤ i - alo) →
    alo ≤ best.1.1 ∧ best.1.1 + best.2 ≤ i →
    let r := Difflib.scan_rows b2j a blo bhi (seq i m) j2len best in
    alo ≤ r.1.1 ∧ r.1.1 + r.2 ≤ i + m.
Proof.
  induction m as [|m IH]; intros i j2len best Hi Hprev Hbest.
  - cbn. lia.
  - cbn [seq Difflib.scan_rows].
    pose proof (scan_row_bounds alo blo bhi i Hi
                  (default [] (a !! i ≫= λ elt, b2j !! elt)) j2len ∅ best Hprev)
      as Hrow.
    destruct (Difflib.scan_row _ _ _ _ _ _ _) as [newj2len best'].
    destruct Hrow as (Hnew & Hlo & Hhi).
    + intros y v. now rewrite lookup_empty.
    + lia.
    + cbn [fst snd] in *.
      specialize (IH (S i) newj2len best'). cbn zeta in IH.
      replace (i + S m) with (S i + m) by lia.
      apply IH; [lia| |lia].
      intros y v Hy. apply Hnew in Hy. lia.
Qed.

Lemma extend_left_bounds alo blo :
  ∀ besti bestj bestsize,
    alo ≤ besti →
    let r := Difflib.extend_left a b alo blo besti bestj bestsize in
    alo ≤ r.1.1 ∧ r.1.1 + r.2 = besti + bestsize.
Proof.
  induction besti as [|i IH]; intros bestj bestsize Hlo; cbn [Difflib.extend_left].
  - cbn. lia.
  - destruct bestj as [|j]; [cbn; lia|].
    destruct (Nat.ltb_spec alo (S i)) as [Hlt|?]; cbn [andb]; [|cbn; lia].
    destruct (_ && _); [|cbn; lia].
    specialize (IH j (S bestsize)). cbn zeta in IH.
    destruct IH as [? ?]; [lia|]. split; [assumption|lia].
Qed.

Lemma extend_right_bounds ahi bhi besti bestj :
  ∀ fuel bestsize,
    besti + bestsize ≤ ahi →
    let r := Difflib.extend_right fuel a b ahi bhi besti bestj bestsize in
    r.1.1 = besti ∧ r.1.1 + r.2 ≤ ahi.
Proof.
  induction fuel as [|fuel IH]; intros bestsize Hhi; cbn [Difflib.extend_right].
  - cbn. lia.
  - destruct (Nat.ltb_spec (besti + bestsize) ahi) as [Hlt|?]; cbn [andb];
      [|cbn; lia].
    destruct (_ && _); [|cbn; lia].
    apply IH. lia.
Qed.

Lemma find_longest_match_bounds alo ahi blo bhi :
  alo ≤ ahi →
  let r := Difflib.find_longest_match b2j a b alo ahi blo bhi in
  alo ≤ r.1.1 ∧ r.1.1 + r.2 ≤ ahi.
Proof.
  intros Hle. unfold Difflib.find_longest_match.
  pose proof (scan_rows_bounds alo blo bhi (ahi - alo) alo ∅ (alo, blo, 0))
    as Hscan.
  destruct (Difflib.scan_rows _ _ _ _ _ _ _) as [[i j] k].
  cbn [fst snd] in Hscan.
  destruct Hscan as [Hlo Hhi]; [lia| |cbn; lia|].
  { intros y v. now rewrite lookup_empty. }
  pose proof (extend_left_bounds alo blo i j k Hlo) as Hleft.
  destruct (Difflib.extend_left _ _ _ _ _ _ _) as [[i' j'] k'].
  cbn [fst snd] in Hleft. destruct Hleft as [Hlo' Hsum].
  pose proof (extend_right_bounds ahi bhi i' j' (ahi - (i' + k')) k') as Hright.
  destruct (Difflib.extend_right _ _ _ _ _ _ _ _) as [[i'' j''] k''].
  cbn [fst snd] in *. destruct Hright as [-> ?]; [lia|]. lia.
Qed.

(** The size of the work left in the queue of [get_matching_blocks]. *)
Lemma matching_loop_terminates :
  ∀ fuel queue blocks,
    Forall (λ q : nat * nat * nat * nat, q.1.1.1 ≤ q.1.1.2) queue →
    queue_weight queue ≤ fuel →
    is_Some (Difflib.matching_loop fuel b2j a b queue blocks).
Proof.
  induction fuel as [|fuel IH]; intros queue blocks Hwf Hfuel.
  - destruct queue as [|[[[alo ahi] blo] bhi] queue]; cbn; [eauto|].
    cbn in Hfuel. lia.
  - destruct queue as [|[[[alo ahi] blo] bhi] queue]; cbn [Difflib.matching_loop];
      [eauto|].
    apply Forall_cons in Hwf as [Hle Hwf]. cbn [fst snd] in Hle.
    cbn [queue_weight foldr fst snd] in Hfuel. fold (queue_weight queue) in Hfuel.
    pose proof (find_longest_match_bounds alo ahi blo bhi Hle) as Hflm.
    destruct (Difflib.find_longest_match _ _ _ _ _ _ _) as [[i j] k].
    cbn [fst snd] in Hflm. destruct Hflm as [Hlo Hhi].
    destruct (Nat.eqb_spec k 0) as [->|Hk]; [apply IH; [exact Hwf|lia]|].
    apply IH.
    + destruct (_ && _), (_ && _); repeat (apply Forall_cons; split);
        cbn [fst snd]; try exact Hwf; lia.
    + destruct (_ && _), (_ && _); cbn [queue_weight foldr fst snd];
        fold (queue_weight queue); lia.
Qed.

End DifflibTermination.

(** The fuel given to the loop of [get_matching_blocks] is enough for any
    two sequences. *)
Lemma get_matching_blocks_total (a b : list ascii) :
  is_Some (Difflib.get_matching_blocks a b).
Proof.
  unfold Difflib.get_matching_blocks. apply matching_loop_terminates.
  - repeat constructor. cbn. lia.
  - cbn. lia.
Qed.
(** ** The merge step *)

Section MergeFacts.

Context (env : Env).

Lemma comparable_lower v :
  mergeable v = true ->
  py_lower (comparable env v) = Return (normalized env v).
Proof. destruct v; cbn; try discriminate; reflexivity. Qed.

Lemma is_duplicate_app x existing more :
  is_duplicate env x (existing ++ more)
  = match is_duplicate env x existing with
    | Return false => is_duplicate env x more
    | r => r
    end.
Proof.
  induction existing as [|e existing IH]; cbn; [reflexivity|].
  destruct (similarity _ _) as [q|err]; cbn; [|reflexivity].
  destruct (negb _); [reflexivity|exact IH].
Qed.

(** An entry is never found different from itself: the test raises or
    reports a duplicate. *)
Lemma is_duplicate_self x more :
  is_duplicate env (comparable env x) (x :: more) <> Return false.
Proof.
  cbn. unfold similarity.
  destruct (py_lower (comparable env x)) as [a|err]; cbn; [|discriminate].
  rewrite ratio_self_is_duplicate. discriminate.
Qed.

Lemma merge_extends :
  forall new_items existing,
    exists appended,
      fst (merge_chunk_data env existing new_items) = existing ++ appended.
Proof.
  induction new_items as [|x rest IH]; intros existing; cbn.
  - exists []. now rewrite app_nil_r.
  - destruct (is_duplicate _ _ _) as [[|]|err]; cbn.
    + apply IH.
    + destruct (IH (existing ++ [x])) as (t & ->).
      exists (x :: t). now rewrite <- app_assoc.
    + exists []. now rewrite app_nil_r.
Qed.

(** Once the first pass has reached the list [existing] with [new_items]
    still to come, a second pass over [new_items] leaves the final list
    of the first pass as it is. *)
Lemma second_pass_keeps :
  forall new_items existing,
    fst (merge_chunk_data env
           (fst (merge_chunk_data env existing new_items)) new_items)
    = fst (merge_chunk_data env existing new_items).
Proof.
  induction new_items as [|x rest IH]; intros existing; [reflexivity|].
  cbn [merge_chunk_data].
  destruct (is_duplicate env (comparable env x) existing) as [[|]|err] eqn:Hdup.
  - specialize (IH existing).
    destruct (merge_extends rest existing) as (t & Ht).
    set (merged := fst (merge_chunk_data env existing rest)) in *.
    assert (Hd : is_duplicate env (comparable env x) merged = Return true)
      by now rewrite Ht, is_duplicate_app, Hdup.
    now rewrite Hd.
  - specialize (IH (existing ++ [x])).
    destruct (merge_extends rest (existing ++ [x])) as (t & Ht).
    set (merged := fst (merge_chunk_data env (existing ++ [x]) rest)) in *.
    assert (Hd : is_duplicate env (comparable env x) merged
                 = is_duplicate env (comparable env x) (x :: t))
      by now rewrite Ht, <- app_assoc, is_duplicate_app, Hdup.
    rewrite Hd. pose proof (is_duplicate_self x t) as Hself.
    destruct (is_duplicate env (comparable env x) (x :: t)) as [[|]|err'];
      [exact IH|congruence|reflexivity].
  - cbn. now rewrite Hdup.
Qed.

Lemma is_duplicate_returns new_item existing :
  mergeable new_item = true ->
  forallb mergeable existing = true ->
  is_duplicate env (comparable env new_item) existing
  = Return (existsb (fun x => negb (Qle_bool (ratio_of env new_item x)
                                             similarity_threshold))
                    existing).
Proof.
  intros Hnew. induction existing as [|e existing IH]; cbn; [reflexivity|].
  intros [He Hall]%andb_prop. unfold similarity.
  rewrite (comparable_lower _ Hnew), (comparable_lower _ He). cbn.
  fold (ratio_of env new_item e).
  destruct (negb _); [reflexivity|]. now apply IH.
Qed.

Lemma merge_returns :
  forall new_items existing,
    forallb mergeable existing = true ->
    forallb mergeable new_items = true ->
    snd (merge_chunk_data env existing new_items) = Return tt
    /\ forallb mergeable (fst (merge_chunk_data env existing new_items)) = true.
Proof.
  induction new_items as [|x rest IH]; intros existing Hex Hnew; cbn; [auto|].
  cbn in Hnew. apply andb_prop in Hnew as [Hx Hrest].
  rewrite (is_duplicate_returns _ _ Hx Hex).
  destruct (existsb _ _); apply IH; auto.
  rewrite forallb_app. cbn. now rewrite Hex, Hx.
Qed.

End MergeFacts.

(** C8. Merging a chunk list again leaves the accumulator as the first
    merge left it, whatever the two lists hold; and when their entries are
    strings and dicts, as in a validated chunk, the second merge returns
    normally: every candidate meets its first copy or the entry that
    suppressed it. *)
Theorem merge_twice_is_merge_once (env : Env) (existing new_items : list pyval) :
  let merged := fst (merge_chunk_data env existing new_items) in
  fst (merge_chunk_data env merged new_items) = merged
  /\ (forallb mergeable existing = true ->
      forallb mergeable new_items = true ->
      merge_chunk_data env merged new_items = (merged, Return tt)).
Proof.
  cbn zeta. split; [apply second_pass_keeps|].
  intros Hex Hnew.
  destruct (merge_returns env new_items existing Hex Hnew) as [_ Hmerged].
  destruct (merge_returns env new_items _ Hmerged Hnew) as [Hret _].
  pose proof (second_pass_keeps env new_items existing) as Hkeep.
  destruct (merge_chunk_data env (fst (merge_chunk_data env existing new_items))
                             new_items) as [l r].
  cbn in *. now subst.
Qed.

(** C3, as amended. A candidate folded into a list of strings and dicts
    is discarded exactly when its similarity ratio to some element
    already in the list is strictly greater than 0.8; otherwise it is
    appended.  A candidate whose ratio to the only element is 0.8 is
    appended. *)
Theorem merge_step_amended (env : Env) (existing : list pyval)
    (new_item : pyval) :
  forallb mergeable existing = true ->
  mergeable new_item = true ->
  (exists discarded : bool,
      merge_chunk_data env existing [new_item]
      = (if discarded then existing else existing ++ [new_item], Return tt)
      /\ (discarded = true <->
          Exists (fun x => (similarity_threshold < ratio_of env new_item x)%Q)
                 existing))
  /\ (forall x, existing = [x] ->
                (ratio_of env new_item x == similarity_threshold)%Q ->
                merge_chunk_data env existing [new_item]
                = ([x; new_item], Return tt)).
Proof.
  intros Hex Hnew.
  assert (Hstep : merge_chunk_data env existing [new_item]
                  = (if existsb (fun x => negb (Qle_bool (ratio_of env new_item x)
                                                         similarity_threshold))
                                existing
                     then existing else existing ++ [new_item], Return tt)).
  { cbn. rewrite (is_duplicate_returns env _ _ Hnew Hex).
    destruct (existsb _ _); reflexivity. }
  split.
  - eexists. split; [exact Hstep|].
    rewrite existsb_exists, Exists_exists. split.
    + intros (x & Hin & Hx). exists x. split; [now apply list_elem_of_In|].
      apply negb_true_iff in Hx. now apply Qle_bool_false.
    + intros (x & Hin & Hx). exists x. split; [now apply list_elem_of_In|].
      apply negb_true_iff. apply not_true_is_false. intros Hle%Qle_bool_iff.
      now apply Qlt_not_le in Hx.
  - intros x -> Heq. rewrite Hstep. cbn.
    replace (Qle_bool (ratio_of env new_item x) similarity_threshold) with true;
      [reflexivity|].
    symmetry. apply Qle_bool_iff. rewrite Heq. apply Qle_refl.
Qed.

Lemma merge_step_amended_witness :
  let env := scripted_env [] (Raise decode_error) in
  let existing := [PStr "Python"; PStr "Project Management"] in
  let new_item := PStr "python " in
  (exists discarded : bool,
      merge_chunk_data env existing [new_item]
      = (if discarded then existing else existing ++ [new_item], Return tt)
      /\ (discarded = true <->
          Exists (fun x => (similarity_threshold < ratio_of env new_item x)%Q)
                 existing))
  /\ (forall x, existing = [x] ->
                (ratio_of env new_item x == similarity_threshold)%Q ->
                merge_chunk_data env existing [new_item]
                = ([x; new_item], Return tt)).
Proof.
  exact (merge_step_amended (scripted_env [] (Raise decode_error))
           [PStr "Python"; PStr "Project Management"] (PStr "python ")
           eq_refl eq_refl).
Defined.

(** C3, the claim as worded fails: "abcdf" and "abcde" have ratio
    2*4/10 = 0.8, which is not greater than 0.8, so the candidate "abcdf"
    is appended next to "abcde". *)
Lemma ratio_equal_to_threshold_is_appended :
  let env := scripted_env [] (Raise decode_error) in
  (ratio_of env (PStr "abcdf") (PStr "abcde") == 8 # 10)%Q
  /\ merge_chunk_data env [PStr "abcde"] [PStr "abcdf"]
     = ([PStr "abcde"; PStr "abcdf"], Return tt).
Proof. split; vm_compute; reflexivity. Qed.

(** ** The text splitter *)

Section MergePiecesMap.

Context {A B : Type} (f : A -> B) (lenA : A -> Z) (lenB : B -> Z).
Context (chunk_size chunk_overlap separator_len : Z).
Hypothesis len_f : forall a, lenA a = lenB (f a).

Lemma nonempty_map (l : list A) :
  TextSplitter.nonempty (map f l) = TextSplitter.nonempty l.
Proof. now destruct l. Qed.

Lemma several_map (l : list A) :
  TextSplitter.several (map f l) = TextSplitter.several l.
Proof. now destruct l as [|? [|? ?]]. Qed.

Lemma pop_front_map :
  forall current_doc total _len,
    TextSplitter.pop_front lenB chunk_size chunk_overlap separator_len
      (map f current_doc) total _len
    = (map f (fst (TextSplitter.pop_front lenA chunk_size chunk_overlap
                     separator_len current_doc total _len)),
       snd (TextSplitter.pop_front lenA chunk_size chunk_overlap
              separator_len current_doc total _len)).
Proof.
  induction current_doc as [|first rest IH]; intros total _len; [reflexivity|].
  cbn [map TextSplitter.pop_front].
  change (f first :: map f rest) with (map f (first :: rest)).
  rewrite nonempty_map, several_map, <- len_f.
  destruct (_ || _); [apply IH|reflexivity].
Qed.

Lemma merge_loop_map :
  forall splits docs current_doc total,
    TextSplitter.merge_loop lenB chunk_size chunk_overlap separator_len
      (map f splits) (map (map f) docs) (map f current_doc) total
    = map (map f)
        (TextSplitter.merge_loop lenA chunk_size chunk_overlap separator_len
           splits docs current_doc total).
Proof.
  induction splits as [|d splits IH]; intros docs current_doc total.
  - cbn. now rewrite map_app.
  - cbn [map TextSplitter.merge_loop]. rewrite nonempty_map, <- len_f.
    destruct (chunk_size <? _).
    + destruct (TextSplitter.nonempty current_doc).
      * rewrite pop_front_map.
        destruct (TextSplitter.pop_front lenA _ _ _ current_doc total (lenA d))
          as [current_doc' total'].
        cbn [fst snd].
        change (map f current_doc' ++ [f d]) with
          (map f current_doc' ++ map f [d]).
        change (map (map f) docs ++ [map f current_doc]) with
          (map (map f) docs ++ map (map f) [current_doc]).
        rewrite <- !map_app, several_map. apply IH.
      * change (map f current_doc ++ [f d]) with
          (map f current_doc ++ map f [d]).
        rewrite <- map_app, several_map. apply IH.
    + change (map f current_doc ++ [f d]) with
        (map f current_doc ++ map f [d]).
      rewrite <- map_app, several_map. apply IH.
Qed.

Lemma merge_pieces_map (splits : list A) :
  TextSplitter.merge_pieces lenB chunk_size chunk_overlap separator_len
    (map f splits)
  = map (map f)
      (TextSplitter.merge_pieces lenA chunk_size chunk_overlap separator_len
         splits).
Proof. apply (merge_loop_map splits [] [] 0). Qed.

End MergePiecesMap.

(** The windows of 2500 pieces of length one, by their indices. *)
Lemma merge_pieces_2500 :
  TextSplitter.merge_pieces (fun _ : nat => 1) 1000 100 0 (seq 0 2500)
  = [seq 0 1000; seq 900 1000; seq 1800 700].
Proof. vm_compute. reflexivity. Qed.

Lemma contains_space_separator c sep :
  Str.is_space c = true ->
  forall hay, Str.no_space hay = true -> Str.contains (String c sep) hay = false.
Proof.
  intros Hc. induction hay as [|h hay IH]; intros Hns; [reflexivity|].
  cbn in Hns. apply andb_prop in Hns as [Hh Hns].
  cbn [Str.contains String.prefix].
  destruct (ascii_dec c h) as [->|Hne]; [now rewrite Hc in Hh|].
  now rewrite IH.
Qed.

Lemma split_loop_all_good chunk_size chunk_overlap recurse :
  forall splits good_splits,
    Forall (fun s => TextSplitter.len s < chunk_size) splits ->
    TextSplitter.split_loop chunk_size chunk_overlap recurse splits good_splits
    = match good_splits ++ splits with
      | [] => []
      | all => TextSplitter.merge_splits chunk_size chunk_overlap all ""
      end.
Proof.
  induction splits as [|s splits IH]; intros good_splits Hall;
    cbn [TextSplitter.split_loop].
  - rewrite app_nil_r. now destruct good_splits.
  - apply Forall_cons in Hall as [Hs Hall].
    replace (TextSplitter.len s <? chunk_size) with true
      by (symmetry; now apply Z.ltb_lt).
    rewrite IH by exact Hall. now rewrite <- app_assoc.
Qed.

Lemma list_as_indices {A} (d : A) (l : list A) :
  l = map (fun i => nth i l d) (seq 0 (List.length l)).
Proof.
  induction l as [|x l IH]; [reflexivity|].
  cbn [List.length seq map nth]. f_equal.
  rewrite <- seq_shift, map_map. exact IH.
Qed.

Lemma concat_singles (l : list ascii) :
  String.concat "" (map single l) = string_of_list_ascii l.
Proof.
  induction l as [|c l IH]; [reflexivity|].
  cbn [map string_of_list_ascii]. rewrite <- IH.
  destruct l as [|c' l]; reflexivity.
Qed.

Lemma rstrip_no_space s : Str.no_space s = true -> Str.rstrip s = s.
Proof.
  induction s as [|c s IH]; [reflexivity|]. cbn.
  intros [Hc Hs]%andb_prop. rewrite (IH Hs).
  apply negb_true_iff in Hc. rewrite Hc. now destruct s.
Qed.

Lemma strip_no_space s : Str.no_space s = true -> Str.strip s = s.
Proof.
  intros Hs. unfold Str.strip.
  assert (Hl : Str.lstrip s = s).
  { destruct s as [|c s]; [reflexivity|]. cbn in *.
    apply andb_prop in Hs as [Hc _]. apply negb_true_iff in Hc. now rewrite Hc. }
  rewrite Hl. now apply rstrip_no_space.
Qed.

Lemma substring_as_indices d :
  forall text a n,
    (a + n <= String.length text)%nat ->
    string_of_list_ascii
      (map (fun i => nth i (list_ascii_of_string text) d) (seq a n))
    = substring a n text.
Proof.
  induction text as [|c text IH]; intros a n Hlen.
  - cbn in Hlen. assert (a = 0%nat) as -> by lia. assert (n = 0%nat) as -> by lia.
    reflexivity.
  - destruct a as [|a].
    + destruct n as [|n]; [reflexivity|].
      cbn [seq map nth list_ascii_of_string string_of_list_ascii substring].
      f_equal. rewrite <- seq_shift, map_map. apply IH. cbn in Hlen. lia.
    + cbn [substring list_ascii_of_string].
      rewrite <- seq_shift, map_map. cbn [nth]. apply IH. cbn in Hlen. lia.
Qed.

Lemma no_space_substring :
  forall text a n,
    Str.no_space text = true -> Str.no_space (substring a n text) = true.
Proof.
  induction text as [|c text IH]; intros a n Hns.
  - destruct a, n; reflexivity.
  - cbn in Hns. apply andb_prop in Hns as [Hc Hns].
    destruct a as [|a]; [destruct n as [|n]|]; cbn; auto.
    rewrite Hc. cbn. auto.
Qed.

Lemma substring_nonempty :
  forall text a n,
    (a + S n <= String.length text)%nat -> substring a (S n) text <> EmptyString.
Proof.
  induction text as [|c text IH]; intros a n Hlen; cbn in Hlen; [lia|].
  destruct a as [|a]; cbn; [discriminate|]. apply IH. lia.
Qed.

(** A window of a text without spaces is joined into the substring it
    covers. *)
Lemma join_window text a n :
  Str.no_space text = true ->
  (a + S n <= String.length text)%nat ->
  TextSplitter.join_docs ""
    (map (fun i => single (nth i (list_ascii_of_string text) " "%char))
         (seq a (S n)))
  = Some (substring a (S n) text).
Proof.
  intros Hns Hlen. unfold TextSplitter.join_docs.
  rewrite <- (map_map (fun i => nth i (list_ascii_of_string text) " "%char) single).
  rewrite concat_singles, substring_as_indices by exact Hlen.
  rewrite strip_no_space by now apply no_space_substring.
  pose proof (substring_nonempty text a n Hlen) as Hne.
  destruct (String.eqb_spec (substring a (S n) text) ""); [contradiction|reflexivity].
Qed.

Lemma length_list_ascii s :
  List.length (list_ascii_of_string s) = String.length s.
Proof. induction s; cbn; auto. Qed.

(** C7, as amended. A text of 2500 characters that holds no whitespace
    (so none of the separators of the splitter) is cut into exactly three
    chunks, its characters [0,1000), [900,1900) and [1800,2500). *)
Theorem split_unbroken_text (text : string) :
  String.length text = 2500%nat ->
  Str.no_space text = true ->
  split_resume text
  = [substring 0 1000 text; substring 900 1000 text; substring 1800 700 text].
Proof.
  intros Hlen Hns.
  unfold split_resume, TextSplitter.split_text, TextSplitter.default_separators.
  cbn [TextSplitter.split_text_with String.eqb Ascii.eqb Bool.eqb].
  rewrite !contains_space_separator by (reflexivity || exact Hns).
  cbn [String.eqb].
  unfold TextSplitter.split_text_with_regex.
  set (chars := list_ascii_of_string text).
  assert (Hchars : List.length chars = 2500%nat)
    by (unfold chars; now rewrite length_list_ascii).
  assert (Hfilter : List.filter (fun s => negb (String.eqb s ""))
                      (map (fun c => String c EmptyString) chars)
                    = map single chars).
  { clear. induction chars as [|c l IH]; [reflexivity|]. cbn. now rewrite IH. }
  rewrite Hfilter.
  rewrite split_loop_all_good.
  2: { apply Forall_forall. intros s [c [-> _]]%list_elem_of_fmap.
       unfold chunk_size. reflexivity. }
  cbn [app].
  assert (Hsome : match map single chars with
                  | [] => []
                  | s :: l =>
                      TextSplitter.merge_splits chunk_size chunk_overlap
                        (s :: l) ""
                  end
                  = TextSplitter.merge_splits chunk_size chunk_overlap
                      (map single chars) "").
  { destruct chars; [discriminate Hchars|reflexivity]. }
  rewrite Hsome. clear Hsome Hfilter.
  unfold TextSplitter.merge_splits.
  rewrite (list_as_indices " "%char chars), map_map, Hchars.
  rewrite (merge_pieces_map
             (fun i => single (nth i chars " "%char)) (fun _ => 1)
             TextSplitter.len chunk_size chunk_overlap (TextSplitter.len ""))
    by reflexivity.
  change (TextSplitter.len "") with 0. unfold chunk_size, chunk_overlap.
  rewrite merge_pieces_2500.
  cbn [map omap].
  change (seq 0 1000) with (seq 0 (S 999)).
  change (seq 900 1000) with (seq 900 (S 999)).
  change (seq 1800 700) with (seq 1800 (S 699)).
  unfold chars.
  cbn [omap list_omap].
  rewrite !join_window by (exact Hns || (rewrite Hlen; lia)).
  reflexivity.
Qed.

Lemma split_unbroken_text_witness :
  split_resume one_long_word
  = [substring 0 1000 one_long_word; substring 900 1000 one_long_word;
     substring 1800 700 one_long_word].
Proof.
  apply split_unbroken_text; vm_compute; reflexivity.
Defined.

(** C7, the claim as worded fails: a text of 2500 characters with a space
    after character 1249 is cut at the space first, and each half is cut
    again: four chunks, of 1000, 349, 999 and 351 characters. *)
Lemma spaced_text_gives_four_chunks :
  String.length two_long_words = 2500%nat
  /\ map String.length (split_resume two_long_words)
     = [1000; 349; 999; 351]%nat
  /\ split_resume two_long_words
     <> [substring 0 1000 two_long_words; substring 900 1000 two_long_words;
         substring 1800 700 two_long_words].
Proof.
  split; [vm_compute; reflexivity|].
  split; [vm_compute; reflexivity|].
  intros H. apply (f_equal (@List.length string)) in H.
  vm_compute in H. discriminate H.
Qed.
(** ** The accumulator of parse_resume *)

Section AccumulatorFacts.

Context (env : Env).

Lemma omap_forallb (P : pyval -> bool) (clean : pyval -> option pyval) l :
  (forall v w, clean v = Some w -> P w = true) ->
  forallb P (omap clean l) = true.
Proof.
  intros Hclean. induction l as [|v l IH]; [reflexivity|]. cbn.
  destruct (clean v) as [w|] eqn:Hv; [|exact IH].
  cbn. now rewrite (Hclean _ _ Hv).
Qed.

Lemma clean_education_entry_ok v w :
  clean_education_entry env v = Some w -> entry_ok w = true.
Proof.
  destruct v; cbn; try discriminate.
  destruct (_ || _); [|discriminate]. now intros [= <-].
Qed.

Lemma clean_skill_entry_ok v w :
  clean_skill_entry env v = Some w -> entry_ok w = true.
Proof.
  unfold clean_skill_entry. destruct (_ && _); [|discriminate].
  destruct (Py.truthy _); [|discriminate]. now intros [= <-].
Qed.

Lemma clean_experience_entry_ok v w :
  clean_experience_entry env v = Some w -> entry_ok w = true.
Proof.
  destruct v; cbn; try discriminate.
  destruct (_ || _); [|discriminate]. now intros [= <-].
Qed.

Lemma clean_project_entry_ok v w :
  clean_project_entry env v = Some w -> entry_ok w = true.
Proof.
  destruct v; cbn; try discriminate.
  destruct (_ || _); [|discriminate]. now intros [= <-].
Qed.

Lemma section_of_store key l d : section_of (Py.store key (PList l) d) key = l.
Proof. unfold section_of. now rewrite lookup_store_eq. Qed.

Lemma section_of_store_ne key key' v d :
  key <> key' -> section_of (Py.store key v d) key' = section_of d key'.
Proof. intros H. unfold section_of. now rewrite lookup_store_ne. Qed.

(** What [_validate_chunk_info] leaves in a dict: four lists of strings
    and dicts, with lists under [responsibilities] and [technologies]. *)
Lemma validate_chunk_info_ok parsed :
  chunk_ok (fst (validate_chunk_info env parsed)).
Proof.
  destruct parsed; cbn [validate_chunk_info fst chunk_ok]; try exact I.
  unfold sections_ok, section_keys.
  repeat apply Forall_cons_2; try apply Forall_nil_2; eexists;
    (split; [rewrite ?lookup_store_ne by discriminate; apply lookup_store_eq|]).
  - apply omap_forallb, clean_education_entry_ok.
  - apply omap_forallb, clean_skill_entry_ok.
  - apply omap_forallb, clean_experience_entry_ok.
  - apply omap_forallb, clean_project_entry_ok.
Qed.

Lemma merge_preserves (P : pyval -> bool) :
  forall new_items existing,
    forallb P existing = true -> forallb P new_items = true ->
    forallb P (fst (merge_chunk_data env existing new_items)) = true.
Proof.
  induction new_items as [|x rest IH]; intros existing Hex Hnew; [exact Hex|].
  cbn in Hnew. apply andb_prop in Hnew as [Hx Hrest]. cbn.
  destruct (is_duplicate _ _ _) as [[|]|]; cbn; auto.
  apply IH; [|exact Hrest]. rewrite forallb_app. cbn. now rewrite Hex, Hx.
Qed.

Lemma entry_ok_mergeable l :
  forallb entry_ok l = true -> forallb mergeable l = true.
Proof.
  induction l as [|v l IH]; [reflexivity|]. cbn. unfold entry_ok at 1.
  intros [[[Hm _]%andb_prop _]%andb_prop Hl]%andb_prop.
  now rewrite Hm, IH.
Qed.

End AccumulatorFacts.
Section ParseFacts.

Context (env : Env).

Lemma sections_ok_store key l d :
  sections_ok d -> forallb entry_ok l = true ->
  sections_ok (Py.store key (PList l) d).
Proof.
  intros Hd Hl. unfold sections_ok in *.
  eapply Forall_impl; [exact Hd|]. cbn. intros k (l' & Hk & Hl').
  destruct (String.eqb_spec key k) as [->|Hne].
  - exists l. now rewrite lookup_store_eq.
  - exists l'. now rewrite lookup_store_ne.
Qed.

Lemma sections_ok_lookup key d :
  sections_ok d -> In key section_keys ->
  exists l, Py.lookup key d = Some (PList l) /\ forallb entry_ok l = true.
Proof.
  intros Hd Hin. unfold sections_ok in Hd. rewrite Forall_forall in Hd.
  apply Hd. now apply list_elem_of_In.
Qed.

Lemma merge_sections_ok chunk_info :
  chunk_ok chunk_info ->
  forall keys combined_info merged,
    (forall key, In key keys -> In key section_keys) ->
    sections_ok combined_info ->
    merge_sections env keys combined_info chunk_info = Return merged ->
    sections_ok merged.
Proof.
  intros Hchunk. induction keys as [|key keys IH];
    intros combined_info merged Hkeys Hacc; cbn [merge_sections].
  - now intros [= <-].
  - assert (Hkey : In key section_keys) by (apply Hkeys; now left).
    assert (Hrest : forall k, In k keys -> In k section_keys)
      by (intros k Hk; apply Hkeys; now right).
    destruct (py_in key chunk_info) as [present|] eqn:Hin; cbn [rbind];
      [|discriminate].
    destruct present; [|now apply IH].
    destruct chunk_info as [| | | | s | l | d]; try discriminate.
    cbn in Hchunk.
    destruct (sections_ok_lookup key d Hchunk Hkey) as (new_items & Hnew & Hok).
    cbn [py_getitem]. rewrite Hnew. cbn [rbind].
    destruct (sections_ok_lookup key combined_info Hacc Hkey)
      as (existing & Hex & Hexok).
    unfold section_of. rewrite Hex.
    pose proof (merge_preserves env entry_ok new_items existing Hexok Hok) as Hm.
    pose proof (merge_returns env new_items existing
                  (entry_ok_mergeable _ Hexok) (entry_ok_mergeable _ Hok))
      as [Hret _].
    destruct (merge_chunk_data env existing new_items) as [merged' r].
    cbn in Hm, Hret. subst r. cbn [rbind].
    apply IH; [exact Hrest|]. now apply sections_ok_store.
Qed.

Lemma chunk_attempt_ok p chunk_info w out w' :
  chunk_ok chunk_info ->
  chunk_attempt env p chunk_info w = (Return out, w') ->
  chunk_ok (snd out).
Proof.
  intros Hok. unfold chunk_attempt, try_except, bind, ret, raise.
  destruct (wait_if_needed env w) as [[[]|e] w1]; [|now intros [= <- <-]].
  destruct (generate env p w1) as [[text|e] w2].
  - destruct (Py.truthy (PStr text)); [|now intros [= <- <-]].
    destruct (extract_json env text) as [parsed|je].
    + pose proof (validate_chunk_info_ok env parsed) as Hvalid.
      destruct (validate_chunk_info env parsed) as [validated valid].
      cbn [fst] in Hvalid.
      destruct valid; [|now intros [= <- <-]].
      destruct (count_items _ _); now intros [= <- <-].
    + destruct (is_JSONDecodeError je); now intros [= <- <-].
  - destruct (Str.contains "429" (exn_str e)); now intros [= <- <-].
Qed.

Lemma try_temperatures_ok chunk i total :
  forall temps chunk_info w chunk_info' w',
    chunk_ok chunk_info ->
    try_temperatures env chunk i total temps chunk_info w
    = (Return chunk_info', w') ->
    chunk_ok chunk_info'.
Proof.
  induction temps as [|temp temps IH]; intros chunk_info w chunk_info' w' Hok;
    cbn [try_temperatures].
  - now intros [= <- <-].
  - intros (out & w1 & Hattempt & Hrest)%bind_returns.
    apply chunk_attempt_ok in Hattempt; [|exact Hok].
    destruct out as [[|] chunk_info1]; cbn [snd] in Hattempt.
    + now injection Hrest as <- <-.
    + eapply IH; eauto.
Qed.

Lemma process_chunks_ok :
  forall chunks i total combined_info w merged w',
    sections_ok combined_info ->
    process_chunks env chunks i total combined_info w = (Return merged, w') ->
    sections_ok merged.
Proof.
  induction chunks as [|chunk chunks IH];
    intros i total combined_info w merged w' Hacc; cbn [process_chunks].
  - now intros [= <- <-].
  - intros (chunk_info & w1 & Htemps & Hrest)%bind_returns.
    apply try_temperatures_ok in Htemps; [|exact I].
    apply bind_returns in Hrest as (combined1 & w2 & Hmerge & Hrest).
    eapply IH; [|exact Hrest].
    destruct (Py.truthy chunk_info).
    + unfold lift in Hmerge. injection Hmerge as Hmerge <-.
      eapply merge_sections_ok; eauto.
    + now injection Hmerge as <- <-.
Qed.

End ParseFacts.
Section ParseEndToEnd.

Context (env : Env).

Lemma entry_ok_list_fields l :
  forallb entry_ok l = true ->
  forallb (list_field "responsibilities") l = true
  /\ forallb (list_field "technologies") l = true.
Proof.
  induction l as [|v l IH]; [auto|]. cbn. unfold entry_ok at 1.
  intros [[[_ Hr]%andb_prop Ht]%andb_prop Hl]%andb_prop.
  destruct (IH Hl) as [-> ->]. now rewrite Hr, Ht.
Qed.

Lemma clean_combined_info_sections d education skills experience projects :
  Py.lookup "education" d = Some (PList education) ->
  Py.lookup "skills" d = Some (PList skills) ->
  Py.lookup "experience" d = Some (PList experience) ->
  Py.lookup "projects" d = Some (PList projects) ->
  clean_combined_info env d
  = clean_combined_info env (accumulator education skills experience projects).
Proof.
  intros He Hs Hx Hp. unfold clean_combined_info, entries_of, Py.get_default.
  now rewrite He, Hs, Hx, Hp.
Qed.

(** Whatever [process_chunks] hands over is finalized without an
    exception, and no section of the result is empty. *)
Lemma finalize_sections_ok d :
  sections_ok d ->
  exists cleaned,
    finalize env d = Return cleaned
    /\ Forall (fun key =>
                 exists item items,
                   Py.lookup key cleaned = Some (PList (item :: items)))
              section_keys.
Proof.
  intros Hd.
  destruct (sections_ok_lookup "education" d Hd) as (e & He & _); [cbn; auto|].
  destruct (sections_ok_lookup "skills" d Hd) as (s & Hs & _); [cbn; auto|].
  destruct (sections_ok_lookup "experience" d Hd) as (x & Hx & Hxok);
    [cbn; auto|].
  destruct (sections_ok_lookup "projects" d Hd) as (p & Hp & Hpok);
    [cbn; tauto|].
  unfold finalize. rewrite (clean_combined_info_sections d e s x p He Hs Hx Hp).
  apply entry_ok_list_fields in Hxok as [Hxr _].
  apply entry_ok_list_fields in Hpok as [_ Hpt].
  apply (finalize_accumulator env e s x p Hxr Hpt).
Qed.

Lemma extend_skills_keeps text cleaned :
  Forall (fun key =>
            exists item items,
              Py.lookup key cleaned = Some (PList (item :: items)))
         section_keys ->
  exists extended,
    extend_skills env text cleaned = Return extended
    /\ Forall (fun key =>
                 exists item items,
                   Py.lookup key extended = Some (PList (item :: items)))
              section_keys.
Proof.
  intros Hall. pose proof Hall as Hall'. rewrite Forall_forall in Hall'.
  destruct (Hall' "skills") as (item & items & Hskills).
  { apply list_elem_of_In. cbn. auto. }
  unfold extend_skills. cbn [py_getitem]. rewrite Hskills. cbn [rbind py_len].
  destruct (_ <? 3); [|eauto].
  destruct (found_skills text) as [|f fs]; [eauto|].
  eexists. split; [reflexivity|].
  eapply Forall_impl; [exact Hall|]. cbn. intros key (i & rest & Hkey).
  destruct (String.eqb_spec "skills" key) as [<-|Hne].
  - rewrite lookup_store_eq. cbn. eauto.
  - rewrite lookup_store_ne by exact Hne. eauto.
Qed.

(** The body of [parse_resume] can only raise while the chunks are
    processed; when it returns, the mapping has no empty section. *)
Lemma parse_body_has_no_empty_section text w :
  (forall e w', parse_body env text w = (Raise e, w') ->
     exists chunks,
       process_chunks env chunks 0 (List.length chunks)
                      (accumulator [] [] [] []) w = (Raise e, w'))
  /\ (forall v w', parse_body env text w = (Return v, w') ->
        exists d, v = PDict d
          /\ Forall (fun key =>
                       exists item items,
                         Py.lookup key d = Some (PList (item :: items)))
                    section_keys).
Proof.
  unfold parse_body, bind, lift, ret.
  set (chunks := split_resume (preprocess_resume_text env text)).
  destruct (process_chunks env chunks 0 (List.length chunks)
                           (accumulator [] [] [] []) w)
    as [[combined|e] w1] eqn:Hchunks.
  - apply process_chunks_ok in Hchunks.
    2: { repeat apply Forall_cons_2; try apply Forall_nil_2;
         exists []; split; reflexivity. }
    destruct (finalize_sections_ok combined Hchunks) as (cleaned & Hfin & Hne).
    destruct (extend_skills_keeps (preprocess_resume_text env text) cleaned Hne)
      as (extended & Hext & Hne').
    rewrite Hfin, Hext.
    split; [discriminate|]. intros v w' [= <- <-]. eauto.
  - split; [|discriminate]. intros e' w' [= <- <-]. eauto.
Qed.

End ParseEndToEnd.

(** * Further properties of the code *)

(** ** The rate limiter, call by call *)

Section RateLimiterFacts.

Import RateLimiter.

Lemma fold_min_le (l : list Z) : forall x, fold_left Z.min l x <= x.
Proof.
  induction l as [|y l IH]; intros x; cbn; [lia|].
  specialize (IH (Z.min x y)). lia.
Qed.

Lemma fold_min_in (l : list Z) :
  forall x, fold_left Z.min l x = x \/ In (fold_left Z.min l x) l.
Proof.
  induction l as [|y l IH]; intros x; cbn; [auto|].
  destruct (IH (Z.min x y)) as [H|H]; [|auto].
  rewrite H. destruct (Z.min_spec x y) as [[_ ->]|[_ ->]]; auto.
Qed.

Lemma py_min_in (l : list Z) m : py_min l = Some m -> In m l.
Proof.
  destruct l as [|x l]; [discriminate|]. cbn. intros [= <-].
  destruct (fold_min_in l x) as [->|H]; auto.
Qed.

Lemma py_min_nonempty (l : list Z) : l <> [] -> exists m, py_min l = Some m.
Proof. destruct l; [congruence|]. cbn. eauto. Qed.

Lemma filter_drops {A} (f : A -> bool) (l : list A) x :
  In x l -> f x = false ->
  (List.length (List.filter f l) < List.length l)%nat.
Proof.
  induction l as [|y l IH]; cbn; [tauto|].
  intros [->|Hin] Hf.
  - rewrite Hf. pose proof (List.filter_length_le f l). lia.
  - specialize (IH Hin Hf). destruct (f y); cbn; lia.
Qed.

End RateLimiterFacts.

Lemma wait_full_sleeps (now jitter : Z) (self : RateLimiter.t) :
  let kept :=
    List.filter (fun t => now - t <? seconds (RateLimiter.time_window self))
                (RateLimiter.requests self) in
  kept <> [] ->
  RateLimiter.max_requests self <= Z.of_nat (List.length kept) ->
  exists oldest,
    RateLimiter.py_min kept = Some oldest
    /\ 0 < oldest + seconds (RateLimiter.time_window self) - now
    /\ RateLimiter.wait_if_needed now jitter self
       = (RateLimiter.with_requests self (kept ++ [now]),
          Return (RateLimiter.Sleep
                    (oldest + seconds (RateLimiter.time_window self) - now
                     + jitter))).
Proof.
  intros kept Hne Hfull.
  destruct (py_min_nonempty kept Hne) as [oldest Hmin].
  exists oldest. split; [exact Hmin|].
  assert (Hwait : 0 < oldest + seconds (RateLimiter.time_window self) - now).
  { apply py_min_in in Hmin. apply List.filter_In in Hmin as [_ H].
    apply Z.ltb_lt in H. lia. }
  split; [exact Hwait|].
  unfold RateLimiter.wait_if_needed. fold kept.
  apply Z.leb_le in Hfull. rewrite Hfull, Hmin.
  apply Z.ltb_lt in Hwait. now rewrite Hwait.
Qed.

(** X1. A call of [wait_if_needed] that finds the quota used up by
    requests still inside the window always sleeps: the wait computed from
    the oldest of them is positive, so the test [wait_time > 0] never
    fails, and the sleep lasts longer than the jitter. *)
Theorem wait_if_needed_sleeps_when_full (now jitter : Z) (self : RateLimiter.t) :
  let kept :=
    List.filter (fun t => now - t <? seconds (RateLimiter.time_window self))
                (RateLimiter.requests self) in
  kept <> [] ->
  RateLimiter.max_requests self <= Z.of_nat (List.length kept) ->
  exists oldest,
    RateLimiter.py_min kept = Some oldest
    /\ 0 < oldest + seconds (RateLimiter.time_window self) - now
    /\ RateLimiter.wait_if_needed now jitter self
       = (RateLimiter.with_requests self (kept ++ [now]),
          Return (RateLimiter.Sleep
                    (oldest + seconds (RateLimiter.time_window self) - now
                     + jitter))).
Proof. exact (wait_full_sleeps now jitter self). Qed.

Lemma wait_if_needed_sleeps_when_full_witness :
  exists oldest,
    RateLimiter.py_min [0; 1000000] = Some oldest
    /\ 0 < oldest + seconds 60 - 2000000
    /\ RateLimiter.wait_if_needed 2000000 100000
         (RateLimiter.Make 2 60 [0; 1000000])
       = (RateLimiter.Make 2 60 [0; 1000000; 2000000],
          Return (RateLimiter.Sleep (oldest + seconds 60 - 2000000 + 100000))).
Proof.
  apply (wait_if_needed_sleeps_when_full 2000000 100000
           (RateLimiter.Make 2 60 [0; 1000000])).
  - discriminate.
  - vm_compute. discriminate.
Defined.

(** X2. [wait_if_needed] raises exactly when the limiter allows no
    request at all ([max_requests <= 0]) and no recorded request is left
    in the window: [min] is then applied to an empty list.  With a quota
    of at least one request the call always returns. *)
Theorem wait_if_needed_raises_iff_no_quota (now jitter : Z)
    (self : RateLimiter.t) :
  let kept :=
    List.filter (fun t => now - t <? seconds (RateLimiter.time_window self))
                (RateLimiter.requests self) in
  ((exists e, snd (RateLimiter.wait_if_needed now jitter self) = Raise e)
   <-> RateLimiter.max_requests self <= 0 /\ kept = [])
  /\ (forall e, snd (RateLimiter.wait_if_needed now jitter self) = Raise e ->
        e = Exn ValueError "min() arg is an empty sequence"
        /\ RateLimiter.requests
             (fst (RateLimiter.wait_if_needed now jitter self)) = []).
Proof.
  intros kept. unfold RateLimiter.wait_if_needed. fold kept.
  destruct (Z.leb_spec (RateLimiter.max_requests self)
                       (Z.of_nat (List.length kept))) as [Hle|Hlt].
  - destruct kept as [|x xs] eqn:E.
    + cbn. split.
      * split; [intros _; cbn in Hle; split; [lia|reflexivity]|eauto].
      * intros e [= <-]. auto.
    + cbn [RateLimiter.py_min].
      split.
      * split.
        -- destruct (0 <? _); cbn; intros [e H]; discriminate.
        -- intros [_ H]. discriminate.
      * intros e. destruct (0 <? _); cbn; discriminate.
  - cbn. split.
    + split; [intros [e H]; discriminate|].
      intros [H0 Hk]. rewrite Hk in Hlt. cbn in Hlt. lia.
    + discriminate.
Qed.

Lemma acquire_all_bounded :
  forall schedule clock self returned,
    1 <= RateLimiter.max_requests self ->
    Forall (fun gj => 0 <= fst gj /\ 0 <= snd gj) schedule ->
    limiter_bounded clock self ->
    let '(clock', self', returned') :=
      RateLimiter.acquire_all schedule clock self returned in
    limiter_bounded clock' self'
    /\ RateLimiter.max_requests self' = RateLimiter.max_requests self
    /\ List.length returned'
       = (List.length returned + List.length schedule)%nat.
Proof.
  induction schedule as [|[gap jitter] rest IH];
    intros clock self returned Hmax Hsched Hinv.
  - cbn. split; [exact Hinv|split; [reflexivity|lia]].
  - apply Forall_cons_1 in Hsched as [[Hgap Hjit] Hrest]. cbn in Hgap, Hjit.
    cbn [RateLimiter.acquire_all].
    set (now := clock + gap).
    set (kept := List.filter
                   (fun t => now - t <? seconds (RateLimiter.time_window self))
                   (RateLimiter.requests self)).
    assert (Hkept : Z.of_nat (List.length kept) <= RateLimiter.max_requests self).
    { destruct Hinv as [Hlen Hfull].
      pose proof (List.filter_length_le
                    (fun t => now - t <? seconds (RateLimiter.time_window self))
                    (RateLimiter.requests self)) as Hle.
      fold kept in Hle.
      destruct (Z.eq_dec (Z.of_nat (List.length (RateLimiter.requests self)))
                         (RateLimiter.max_requests self + 1)) as [Heq|Hne];
        [|lia].
      destruct (Hfull Heq) as (t & Hin & Ht).
      pose proof (filter_drops
                    (fun t => now - t <? seconds (RateLimiter.time_window self))
                    _ t Hin) as Hdrop.
      fold kept in Hdrop.
      assert ((now - t <? seconds (RateLimiter.time_window self)) = false)
        by (apply Z.ltb_ge; unfold now; lia).
      specialize (Hdrop H). lia. }
    destruct (Z.eq_dec (Z.of_nat (List.length kept))
                       (RateLimiter.max_requests self)) as [Hfull|Hfree].
    + assert (Hne : kept <> []).
      { intros E. rewrite E in Hfull. cbn in Hfull. lia. }
      destruct (wait_full_sleeps now jitter self Hne) as (oldest & Hmin & Hwait & Hstep);
        [fold kept; lia|].
      rewrite Hstep.
      fold kept.
      specialize (IH (now + (oldest + seconds (RateLimiter.time_window self)
                             - now + jitter))
                     (RateLimiter.with_requests self (kept ++ [now]))
                     (returned ++ [now + (oldest + seconds (RateLimiter.time_window self)
                                          - now + jitter)])
                     Hmax Hrest).
      destruct (RateLimiter.acquire_all rest _ _ _) as [[clock' self'] returned'].
      destruct IH as [IH1 [IHm IH2]].
      * split; cbn; rewrite length_app; cbn; [lia|].
        intros _. exists oldest. split; [|lia].
        apply in_or_app. left. now apply py_min_in.
      * split; [exact IH1|]. split; [exact IHm|]. rewrite IH2, length_app. cbn. lia.
    + assert (Hstep : RateLimiter.wait_if_needed now jitter self
                      = (RateLimiter.with_requests self (kept ++ [now]),
                         Return RateLimiter.NoSleep)).
      { unfold RateLimiter.wait_if_needed. fold kept.
        replace (RateLimiter.max_requests self <=? Z.of_nat (List.length kept))
          with false by (symmetry; apply Z.leb_gt; lia).
        reflexivity. }
      rewrite Hstep.
      specialize (IH now (RateLimiter.with_requests self (kept ++ [now]))
                     (returned ++ [now]) Hmax Hrest).
      destruct (RateLimiter.acquire_all rest _ _ _) as [[clock' self'] returned'].
      destruct IH as [IH1 [IHm IH2]].
      * split; cbn; rewrite length_app; cbn; lia.
      * split; [exact IH1|]. split; [exact IHm|]. rewrite IH2, length_app. cbn. lia.
Qed.

(** X3. A caller that never goes back in time (idle gaps and jitters are
    not negative) and starts from a fresh limiter with a quota of at least
    one request is never refused: every call of [wait_if_needed] returns,
    and the list of recorded timestamps never holds more than
    [max_requests + 1] entries. *)
Theorem limiter_list_stays_bounded (max_requests time_window clock : Z)
    (schedule : list (Z * Z)) :
  1 <= max_requests ->
  Forall (fun gj => 0 <= fst gj /\ 0 <= snd gj) schedule ->
  let '(_, self, returned) :=
    RateLimiter.acquire_all schedule clock
      (RateLimiter.init max_requests time_window) [] in
  Z.of_nat (List.length (RateLimiter.requests self)) <= max_requests + 1
  /\ RateLimiter.max_requests self = max_requests
  /\ List.length returned = List.length schedule.
Proof.
  intros Hmax Hsched.
  pose proof (acquire_all_bounded schedule clock
                (RateLimiter.init max_requests time_window) [] Hmax Hsched)
    as H.
  destruct (RateLimiter.acquire_all schedule clock _ _)
    as [[clock' self'] returned'].
  destruct H as [[Hlen _] [Hm Hret]].
  - split; cbn; lia.
  - cbn in Hm, Hret. rewrite Hm in Hlen. auto.
Qed.

Lemma limiter_list_stays_bounded_witness :
  let '(_, self, returned) :=
    RateLimiter.acquire_all
      [(0, 100000); (seconds 1, 100000); (seconds 1, 100000);
       (100000, 100000); (100000, 100000)]
      0 (RateLimiter.init 2 60) [] in
  Z.of_nat (List.length (RateLimiter.requests self)) <= 2 + 1
  /\ RateLimiter.max_requests self = 2
  /\ List.length returned = 5%nat.
Proof.
  apply (limiter_list_stays_bounded 2 60 0
           [(0, 100000); (seconds 1, 100000); (seconds 1, 100000);
            (100000, 100000); (100000, 100000)]).
  - lia.
  - repeat constructor; vm_compute; discriminate.
Defined.

(** ** The number of requests sent *)

Section CallBudget.

Context (env : Env).

Lemma cw_weaken {A} (n n' : nat) (m : M A) :
  (n <= n')%nat -> calls_within n m -> calls_within n' m.
Proof. intros Hn H w. specialize (H w). lia. Qed.

Lemma cw_ret {A} (a : A) : calls_within 0 (ret a).
Proof. intros w. cbn. lia. Qed.

Lemma cw_raise {A} (e : exn) : calls_within 0 (@raise A e).
Proof. intros w. cbn. lia. Qed.

Lemma cw_lift {A} (r : result A) : calls_within 0 (lift r).
Proof. intros w. cbn. lia. Qed.

Lemma cw_bind {A B} (n1 n2 : nat) (m : M A) (k : A -> M B) :
  calls_within n1 m -> (forall a, calls_within n2 (k a)) ->
  calls_within (n1 + n2) (bind m k).
Proof.
  intros Hm Hk w. unfold bind. specialize (Hm w).
  destruct (m w) as [[a|e] w1]; cbn in *; [|lia].
  specialize (Hk a w1). lia.
Qed.

Lemma cw_try {A} (n1 n2 : nat) (m : M A) (h : exn -> M A) :
  calls_within n1 m -> (forall e, calls_within n2 (h e)) ->
  calls_within (n1 + n2) (try_except m h).
Proof.
  intros Hm Hh w. unfold try_except. specialize (Hm w).
  destruct (m w) as [[a|e] w1]; cbn in *; [lia|].
  specialize (Hh e w1). lia.
Qed.

Lemma cw_sleep d : calls_within 0 (sleep d).
Proof. intros w. cbn. lia. Qed.

Lemma cw_new_rate_limiter a b : calls_within 0 (new_rate_limiter a b).
Proof. intros w. cbn. lia. Qed.

Lemma cw_wait : calls_within 0 (wait_if_needed env).
Proof.
  intros w. unfold wait_if_needed.
  destruct (RateLimiter.wait_if_needed _ _ _) as [rl [[|d]|e]]; cbn; lia.
Qed.

Lemma cw_generate p : calls_within 1 (generate env p).
Proof. intros w. cbn. lia. Qed.

Lemma cw_retry_loop {A} (attempt : M A) :
  calls_within 1 attempt ->
  forall fuel retry_count,
    calls_within fuel (retry_loop fuel attempt retry_count).
Proof.
  intros Ha fuel. induction fuel as [|fuel IH]; intros retry_count.
  - cbn. destruct (retry_count <? max_retries); apply cw_ret.
  - cbn [retry_loop]. destruct (retry_count <? max_retries); [|apply (cw_weaken 0); [lia|apply cw_ret]].
    apply (cw_try 1 fuel).
    + apply (cw_bind 1 0); [exact Ha|intros; apply cw_ret].
    + intros e.
      destruct (_ && _).
      * apply (cw_bind 0 fuel); [apply cw_sleep|intros _; apply IH].
      * destruct (_ =? _); apply (cw_weaken 0); try lia; apply cw_raise.
Qed.

Lemma cw_with_retries {A} (attempt : M A) :
  calls_within 1 attempt -> calls_within 3 (with_retries attempt).
Proof.
  intros Ha. unfold with_retries. change (Z.to_nat max_retries) with 3%nat.
  apply (cw_bind 3 0); [now apply cw_retry_loop|].
  intros [a| |]; first [apply cw_ret | apply cw_raise].
Qed.

Lemma cw_score_attempt p : calls_within 1 (score_attempt env p).
Proof.
  unfold score_attempt.
  apply (cw_bind 0 1); [apply cw_wait|intros _].
  apply (cw_bind 1 0); [apply cw_generate|intros; apply cw_lift].
Qed.

Lemma cw_job_attempt p : calls_within 1 (job_attempt env p).
Proof.
  unfold job_attempt.
  apply (cw_bind 0 1); [apply cw_wait|intros _].
  apply (cw_bind 1 0); [apply cw_generate|intros text].
  destruct (negb _); [apply cw_raise|apply cw_ret].
Qed.

Lemma cw_calculate_fit_score parsed_resume job_details :
  calls_within 3 (calculate_fit_score env parsed_resume job_details).
Proof.
  unfold calculate_fit_score.
  apply (cw_try 3 0); [|intros; apply cw_ret].
  apply (cw_bind 0 3); [apply cw_lift|intros skills].
  apply (cw_bind 0 3).
  { destruct (negb _); [|apply cw_ret].
    apply (cw_bind 0 0); [apply cw_lift|intros; apply cw_ret]. }
  intros [|]; [apply (cw_weaken 0); [lia|apply cw_ret]|].
  apply (cw_try 3 0).
  - apply (cw_bind 3 0); [|intros; apply cw_lift].
    apply cw_with_retries, cw_score_attempt.
  - intros e. destruct (is_JSONDecodeError e); apply cw_ret.
Qed.

Lemma cw_generate_job_details title salary :
  calls_within 3 (generate_job_details env title salary).
Proof.
  unfold generate_job_details.
  apply (cw_try 3 0); [|intros; apply cw_ret].
  unfold job_body.
  destruct (GEMINI_API_KEY env) as [[|c key]|];
    try (apply (cw_weaken 0); [lia|apply cw_raise]).
  apply (cw_bind 0 3); [apply cw_new_rate_limiter|intros _].
  apply (cw_bind 3 0); [apply cw_with_retries, cw_job_attempt|intros text].
  unfold try_except_if. apply (cw_try 0 0).
  - apply (cw_bind 0 0); [apply cw_lift|intros job_details].
    apply (cw_bind 0 0); [apply cw_lift|intros; apply cw_ret].
  - intros e. destruct (is_JSONDecodeError e); [|apply cw_raise].
    destruct (negb _); [apply cw_raise|apply cw_ret].
Qed.

Lemma cw_chunk_attempt p chunk_info :
  calls_within 1 (chunk_attempt env p chunk_info).
Proof.
  unfold chunk_attempt.
  apply (cw_try 1 0); [|intros; apply cw_ret].
  apply (cw_bind 0 1); [apply cw_wait|intros _].
  apply (cw_bind 1 0).
  - apply (cw_try 1 0).
    + apply (cw_bind 1 0); [apply cw_generate|intros; apply cw_ret].
    + intros e. destruct (Str.contains _ _); [|apply cw_raise].
      apply (cw_bind 0 0); [apply cw_sleep|intros; apply cw_ret].
  - intros [text|]; [|apply cw_ret].
    destruct (extract_json env text) as [parsed|je].
    + destruct (validate_chunk_info env parsed) as [ci valid].
      destruct valid; [|apply cw_ret].
      destruct (count_items env ci); apply cw_ret.
    + destruct (is_JSONDecodeError je); [apply cw_ret|apply cw_raise].
Qed.

Lemma cw_try_temperatures chunk i total :
  forall temps chunk_info,
    calls_within (List.length temps)
                 (try_temperatures env chunk i total temps chunk_info).
Proof.
  induction temps as [|temp rest IH]; intros chunk_info; cbn.
  - apply cw_ret.
  - apply (cw_bind 1 (List.length rest)); [apply cw_chunk_attempt|].
    intros [[|] ci]; [apply (cw_weaken 0); [lia|apply cw_ret]|apply IH].
Qed.

Lemma cw_process_chunks :
  forall chunks i total combined_info,
    calls_within (3 * List.length chunks)
                 (process_chunks env chunks i total combined_info).
Proof.
  induction chunks as [|chunk rest IH]; intros i total combined_info.
  - cbn. apply cw_ret.
  - cbn [process_chunks].
    replace (3 * List.length (chunk :: rest))%nat
      with (3 + (0 + 3 * List.length rest))%nat by (cbn; lia).
    apply cw_bind; [apply (cw_try_temperatures chunk i total temperatures)|].
    intros chunk_info. apply cw_bind; [|intros; apply IH].
    destruct (Py.truthy chunk_info); [apply cw_lift|apply cw_ret].
Qed.

Lemma cw_parse_resume text :
  calls_within
    (3 * List.length (split_resume (preprocess_resume_text env text)))
    (parse_resume env text).
Proof.
  unfold parse_resume.
  destruct (Str.blank text); [apply (cw_weaken 0); [lia|apply cw_raise]|].
  set (n := List.length (split_resume (preprocess_resume_text env text))).
  apply (cw_weaken (3 * n + 0)); [lia|].
  apply (cw_try (3 * n) 0); [|intros; apply cw_ret].
  unfold parse_body.
  apply (cw_weaken (3 * n + (0 + 0))); [lia|].
  apply cw_bind; [apply cw_process_chunks|intros combined].
  apply cw_bind; [apply cw_lift|intros cleaned].
  apply (cw_bind 0 0); [apply cw_lift|intros; apply cw_ret].
Qed.

End CallBudget.

(** X4. One call of [calculate_fit_score] sends at most three requests
    to the model, however the attempts fail. *)
Theorem fit_score_sends_at_most_three_requests (env : Env)
    (parsed_resume job_details : pyval) (w : World) :
  (calls w
   <= calls (snd (calculate_fit_score env parsed_resume job_details w))
   <= calls w + 3)%nat.
Proof. apply cw_calculate_fit_score. Qed.

(** X5. One call of [generate_job_details] sends at most three requests
    to the model. *)
Theorem job_details_sends_at_most_three_requests (env : Env)
    (title salary : pyval) (w : World) :
  (calls w
   <= calls (snd (generate_job_details env title salary w))
   <= calls w + 3)%nat.
Proof. apply cw_generate_job_details. Qed.

(** X6. [parse_resume] sends at most three requests per chunk of the
    preprocessed text, one for each temperature; for a blank text it
    sends none and leaves the clock, the limiter and the trace as they
    are. *)
Theorem parse_resume_sends_at_most_three_requests_per_chunk (env : Env)
    (text : string) (w : World) :
  (calls w
   <= calls (snd (parse_resume env text w))
   <= calls w
      + 3 * List.length (split_resume (preprocess_resume_text env text)))%nat
  /\ (Str.blank text = true ->
      snd (parse_resume env text w) = w
      /\ calls (snd (parse_resume env text w)) = calls w).
Proof.
  split; [apply cw_parse_resume|].
  intros Hblank. unfold parse_resume. rewrite Hblank. split; reflexivity.
Qed.

(** ** The rules of the score normalization *)

Section ScoreRules.

Context (env : Env).

Lemma normalize_fields_unrolled scores v :
  normalize_fields env scores required_fields = Return v ->
  exists d0 d3 d4 d5,
    scores = PDict d0 /\ v = PDict d5
    /\ (forall g, g <> "skill_match_score" ->
                  g <> "experience_relevance_score" ->
                  g <> "education_alignment_score" ->
                  Py.lookup g d3 = Py.lookup g d0)
    /\ normalize_field env (PDict d3) "overall_fit_score" = Return (PDict d4)
    /\ (forall g, g <> "reasoning" -> Py.lookup g d5 = Py.lookup g d4).
Proof.
  unfold required_fields, score_fields. cbn [app normalize_fields].
  destruct (normalize_field env scores "skill_match_score") as [s1|] eqn:H1;
    cbn [rbind]; [|discriminate].
  apply normalize_field_returns in H1 as (d0 & d1 & -> & -> & _ & Hk1); [|discriminate].
  destruct (normalize_field env (PDict d1) "experience_relevance_score") as [s2|] eqn:H2;
    cbn [rbind]; [|discriminate].
  apply normalize_field_returns in H2 as (? & d2 & [= <-] & -> & _ & Hk2); [|discriminate].
  destruct (normalize_field env (PDict d2) "education_alignment_score") as [s3|] eqn:H3;
    cbn [rbind]; [|discriminate].
  apply normalize_field_returns in H3 as (? & d3 & [= <-] & -> & _ & Hk3); [|discriminate].
  destruct (normalize_field env (PDict d3) "overall_fit_score") as [s4|] eqn:H4;
    cbn [rbind]; [|discriminate].
  pose proof H4 as H4'.
  apply normalize_field_returns in H4' as (? & d4 & [= <-] & -> & _ & _); [|discriminate].
  destruct (normalize_field env (PDict d4) "reasoning") as [s5|] eqn:H5;
    cbn [rbind]; [|discriminate].
  apply normalize_reasoning_returns in H5 as (d5 & -> & Hk5).
  intros [= <-]. exists d0, d3, d4, d5. repeat split; auto.
  intros g G1 G2 G3. now rewrite Hk3, Hk2, Hk1.
Qed.

Lemma clamp_positive q :
  (0 < q)%Q ->
  exists q', clamp (FFin q) = FFin q' /\ (0 < q' <= 100)%Q.
Proof.
  intros Hq. unfold clamp, Py.min, Py.max. cbn.
  destruct (Qle_bool 100 q) eqn:E1; cbn.
  - exists 100%Q. split; [reflexivity|lra].
  - apply Qle_bool_false in E1.
    destruct (Qle_bool q 0) eqn:E2; cbn.
    + apply Qle_bool_iff in E2. lra.
    + exists q. split; [reflexivity|lra].
Qed.

Lemma clamp_nonpositive q : (q <= 0)%Q -> clamp (FFin q) = FFin 0.
Proof.
  intros Hq. unfold clamp, Py.min, Py.max. cbn.
  destruct (Qle_bool 100 q) eqn:E1; cbn.
  - apply Qle_bool_iff in E1. lra.
  - apply Qle_bool_iff in Hq. now rewrite Hq.
Qed.

Lemma weighted_average_store d x :
  weighted_average (PDict (Py.store "overall_fit_score" x d))
  = weighted_average (PDict d).
Proof.
  unfold weighted_average. cbn [py_getitem].
  now rewrite !lookup_store_ne by discriminate.
Qed.

Lemma normalize_scores_missing_overall d v :
  Py.lookup "overall_fit_score" d = None ->
  normalize_scores env (PDict d) = Return v ->
  py_getitem v "overall_fit_score" = Return (PFloat (FFin 15)).
Proof.
  intros Hmiss. unfold normalize_scores.
  destruct (normalize_fields env (PDict d) required_fields) as [s|] eqn:Hn;
    cbn [rbind]; [|discriminate].
  apply normalize_fields_unrolled in Hn
    as (d0 & d3 & d4 & d5 & [= <-] & -> & Hk3 & H4 & Hk5).
  assert (H3 : Py.lookup "overall_fit_score" d3 = None)
    by (rewrite Hk3 by discriminate; exact Hmiss).
  unfold normalize_field in H4. cbn in H4. unfold Py.has_key in H4.
  rewrite H3 in H4. cbn in H4. injection H4 as <-.
  assert (H5 : Py.lookup "overall_fit_score" d5 = Some (PFloat (FFin 15)))
    by (rewrite Hk5 by discriminate; apply lookup_store_eq).
  cbn [py_getitem]. rewrite H5. cbn.
  intros [= <-]. cbn. now rewrite H5.
Qed.

Lemma normalize_scores_given_overall d v q :
  Py.lookup "overall_fit_score" d = Some (PFloat (FFin q)) ->
  normalize_scores env (PDict d) = Return v ->
  ((0 < q)%Q ->
   py_getitem v "overall_fit_score" = Return (PFloat (clamp (FFin q))))
  /\ ((q <= 0)%Q ->
      exists average,
        weighted_average v = Return average
        /\ py_getitem v "overall_fit_score" = Return (PFloat average)).
Proof.
  intros Hgiven. unfold normalize_scores.
  destruct (normalize_fields env (PDict d) required_fields) as [s|] eqn:Hn;
    cbn [rbind]; [|discriminate].
  apply normalize_fields_unrolled in Hn
    as (d0 & d3 & d4 & d5 & [= <-] & -> & Hk3 & H4 & Hk5).
  assert (H3 : Py.lookup "overall_fit_score" d3 = Some (PFloat (FFin q)))
    by (rewrite Hk3 by discriminate; exact Hgiven).
  unfold normalize_field in H4. cbn in H4. unfold Py.has_key in H4.
  rewrite H3 in H4. cbn in H4. injection H4 as <-.
  assert (H5 : Py.lookup "overall_fit_score" d5
               = Some (PFloat (clamp (FFin q))))
    by (rewrite Hk5 by discriminate; apply lookup_store_eq).
  cbn [py_getitem]. rewrite H5. cbn [rbind].
  intros Hv. split.
  - intros Hq. destruct (clamp_positive q Hq) as (q' & Hc & Hr).
    rewrite Hc in Hv, H5 |- *. cbn in Hv.
    replace (Qeq_bool q' 0) with false in Hv.
    2: { symmetry. apply not_true_is_false. intros E.
         apply Qeq_bool_iff in E. lra. }
    cbn in Hv.
    replace (Qle_bool q' 100) with true in Hv
      by (symmetry; apply Qle_bool_iff; lra).
    cbn in Hv. injection Hv as <-. cbn. now rewrite H5.
  - intros Hq. rewrite (clamp_nonpositive q Hq) in Hv. cbn in Hv.
    destruct (weighted_average (PDict d5)) as [average|] eqn:Ha;
      cbn in Hv; [|discriminate].
    injection Hv as <-. exists average. split.
    + now rewrite weighted_average_store.
    + cbn. now rewrite lookup_store_eq.
Qed.

Lemma wait_returns w :
  1 <= RateLimiter.max_requests (limiter w) ->
  exists w1, wait_if_needed env w = (Return tt, w1)
             /\ calls w1 = calls w
             /\ RateLimiter.max_requests (limiter w1)
                = RateLimiter.max_requests (limiter w).
Proof.
  intros Hmax. unfold wait_if_needed, RateLimiter.wait_if_needed.
  set (kept := List.filter _ _).
  destruct (Z.leb_spec (RateLimiter.max_requests (limiter w))
                       (Z.of_nat (List.length kept))) as [Hle|Hlt].
  - destruct kept as [|x xs] eqn:E; [cbn in Hle; lia|].
    cbn [RateLimiter.py_min].
    destruct (0 <? _); eexists; (split; [reflexivity|cbn; auto]).
  - eexists. split; [reflexivity|cbn; auto].
Qed.

Lemma calculate_fit_score_returns parsed_resume job_details w :
  scores_returned (calculate_fit_score env parsed_resume job_details w).
Proof.
  unfold calculate_fit_score. unfold try_except at 1.
  match goal with |- scores_returned (match ?body w with _ => _ end) =>
    destruct (body w) as [[v|e] w1] eqn:Hbody end.
  2: { apply flat_scores_returned. lra. }
  apply bind_returns in Hbody as (skills & w2 & _ & Hbody).
  apply bind_returns in Hbody as (skip & w3 & _ & Hbody).
  destruct skip.
  - injection Hbody as <- <-. apply flat_scores_returned. lra.
  - unfold try_except in Hbody.
    match type of Hbody with (match ?inner w3 with _ => _ end) = _ =>
      destruct (inner w3) as [[v'|e] w4] eqn:Hinner end.
    + injection Hbody as <- <-.
      apply bind_returns in Hinner as (scores & w5 & _ & Hnorm).
      unfold lift in Hnorm. injection Hnorm as Hnorm <-.
      apply normalize_scores_in_range in Hnorm as (d & -> & Hd).
      exists d. eexists. split; [reflexivity|exact Hd].
    + destruct (is_JSONDecodeError e); injection Hbody as <- <-;
        apply flat_scores_returned; lra.
Qed.

End ScoreRules.

(** X7. A response without [overall_fit_score] gets the conservative
    value 15.0 for it: the loop over the required fields fills the missing
    field before the "weighted average if not provided" step looks at it,
    so that step never sees a missing score. *)
Theorem missing_overall_score_becomes_15 (env : Env)
    (d : list (string * pyval)) (v : pyval) :
  Py.lookup "overall_fit_score" d = None ->
  normalize_scores env (PDict d) = Return v ->
  py_getitem v "overall_fit_score" = Return (PFloat (FFin 15)).
Proof. apply normalize_scores_missing_overall. Qed.

Lemma missing_overall_score_becomes_15_witness :
  py_getitem (PDict [("skill_match_score", PFloat (FFin 80));
                     ("experience_relevance_score", PFloat (FFin 60));
                     ("education_alignment_score", PFloat (FFin 40));
                     ("overall_fit_score", PFloat (FFin 15));
                     ("reasoning", PStr "Score calculation incomplete")])
             "overall_fit_score"
  = Return (PFloat (FFin 15)).
Proof.
  apply (missing_overall_score_becomes_15
           (scripted_env [] (Raise decode_error))
           [("skill_match_score", PInt 80);
            ("experience_relevance_score", PInt 60);
            ("education_alignment_score", PInt 40)]).
  - reflexivity.
  - vm_compute. reflexivity.
Defined.

(** X8. The overall score the model reports as a float is replaced by
    the weighted average of the normalized component scores exactly when
    it is zero or negative; a positive one is only clamped to [0, 100],
    so the test [overall_fit_score > 100] never fires after the clamping.
    The average is the float that [0.4 * skill + 0.4 * experience
    + 0.2 * education] evaluates to, each product and each sum rounded:
    for the scores 1, 98 and 84 it is 56.400000000000006, not 56.4. *)
Theorem overall_score_recomputed_only_when_not_positive (env : Env)
    (d : list (string * pyval)) (v : pyval) (q : Q) :
  Py.lookup "overall_fit_score" d = Some (PFloat (FFin q)) ->
  normalize_scores env (PDict d) = Return v ->
  ((0 < q)%Q ->
   py_getitem v "overall_fit_score" = Return (PFloat (clamp (FFin q))))
  /\ ((q <= 0)%Q ->
      exists average,
        weighted_average v = Return average
        /\ py_getitem v "overall_fit_score" = Return (PFloat average)).
Proof. apply normalize_scores_given_overall. Qed.

Lemma overall_score_recomputed_only_when_not_positive_witness :
  let env := scripted_env [] (Raise decode_error) in
  let d := [("skill_match_score", PFloat (FFin 1));
            ("experience_relevance_score", PFloat (FFin 98));
            ("education_alignment_score", PFloat (FFin 84));
            ("overall_fit_score", PFloat (FFin 0));
            ("reasoning", PStr "none")] in
  let v := PDict [("skill_match_score", PFloat (FFin 1));
                  ("experience_relevance_score", PFloat (FFin 98));
                  ("education_alignment_score", PFloat (FFin 84));
                  ("overall_fit_score",
                   PFloat (FFin (1984398585810125 # 35184372088832)));
                  ("reasoning", PStr "none")] in
  normalize_scores env (PDict d) = Return v
  /\ ((0 < 0)%Q ->
      py_getitem v "overall_fit_score" = Return (PFloat (clamp (FFin 0))))
  /\ ((0 <= 0)%Q ->
      exists average,
        weighted_average v = Return average
        /\ py_getitem v "overall_fit_score" = Return (PFloat average)).
Proof.
  intros env d v.
  assert (H : normalize_scores env (PDict d) = Return v)
    by (vm_compute; reflexivity).
  split; [exact H|].
  exact (overall_score_recomputed_only_when_not_positive env d v 0
           eq_refl H).
Defined.

(** ** What the retry loops return *)

Section RetryOutcomes.

Context (env : Env).

Lemma with_retries_unfolded {A : Type} (attempt : M A) (w : World) :
  with_retries attempt w = retry_amended attempt 3 w.
Proof.
  unfold with_retries, max_retries. change (Z.to_nat 3) with 3%nat.
  retry_cases attempt; reflexivity.
Qed.

(** A failure of the first attempt that does not carry "429" ends the
    loop with that failure. *)
Lemma with_retries_first_failure {A : Type} (attempt : M A) w e w' :
  attempt w = (Raise e, w') ->
  Str.contains "429" (exn_str e) = false ->
  with_retries attempt w = (Raise e, w').
Proof.
  intros Ha H429. rewrite with_retries_unfolded. cbn.
  unfold try_except. rewrite Ha. unfold rate_exceeded. rewrite H429.
  reflexivity.
Qed.

Lemma with_retries_first_success {A : Type} (attempt : M A) w a w' :
  attempt w = (Return a, w') -> with_retries attempt w = (Return a, w').
Proof.
  intros Ha. rewrite with_retries_unfolded. cbn.
  unfold try_except. now rewrite Ha.
Qed.

(** Three failures that carry "429": two cooldowns, then the
    retries-exhausted error. *)
Lemma with_retries_exhausted {A : Type} (attempt : M A) w e1 w1 e2 w2 e3 w3 :
  attempt w = (Raise e1, w1) ->
  Str.contains "429" (exn_str e1) = true ->
  attempt (snd (sleep cooldown w1)) = (Raise e2, w2) ->
  Str.contains "429" (exn_str e2) = true ->
  attempt (snd (sleep cooldown w2)) = (Raise e3, w3) ->
  with_retries attempt w = (Raise retries_exhausted, w3).
Proof.
  intros H1 C1 H2 C2 H3. rewrite with_retries_unfolded. cbn.
  unfold try_except, rate_exceeded, bind. rewrite H1, C1. cbn.
  cbn in H2. rewrite H2, C2. cbn. cbn in H3. rewrite H3. reflexivity.
Qed.

Lemma fresh_limiter_wait now jitter :
  RateLimiter.wait_if_needed now jitter (RateLimiter.init 2 60)
  = (RateLimiter.Make 2 60 [now], Return RateLimiter.NoSleep).
Proof. reflexivity. Qed.

Lemma score_attempt_undecodable p w text e :
  1 <= RateLimiter.max_requests (limiter w) ->
  generate_content env (calls w) = Return text ->
  json_loads env text = Raise e ->
  exists w', score_attempt env p w = (Raise e, w')
             /\ calls w' = S (calls w).
Proof.
  intros Hmax Hgen Hjson.
  destruct (wait_returns env w Hmax) as (w1 & Hw & Hc & _).
  unfold score_attempt, bind, generate, lift. rewrite Hw. cbv beta iota.
  rewrite Hc, Hgen, Hjson.
  eexists. split; [reflexivity|]. reflexivity.
Qed.

Lemma job_attempt_fails p w e :
  1 <= RateLimiter.max_requests (limiter w) ->
  generate_content env (calls w) = Raise e ->
  exists w', job_attempt env p w = (Raise e, w')
             /\ calls w' = S (calls w)
             /\ RateLimiter.max_requests (limiter w')
                = RateLimiter.max_requests (limiter w).
Proof.
  intros Hmax Hgen.
  destruct (wait_returns env w Hmax) as (w1 & Hw & Hc & Hm).
  unfold job_attempt, bind, generate. rewrite Hw. cbv beta iota.
  rewrite Hc, Hgen.
  eexists. split; [reflexivity|]. cbn. auto.
Qed.

Lemma check_job_field_list d field :
  field <> "description" ->
  check_job_field (PDict d) field = Return tt ->
  exists x l, Py.lookup field d = Some (PList (x :: l)).
Proof.
  intros Hf. unfold check_job_field. cbn. unfold Py.has_key.
  destruct (Py.lookup field d) as [v|] eqn:Hl; cbn; [|discriminate].
  apply String.eqb_neq in Hf. rewrite Hf.
  destruct v as [| | | | |l|]; cbn; try discriminate.
  destruct l as [|x l]; cbn; [discriminate|]. eauto.
Qed.

Lemma check_job_fields_dict v :
  check_job_fields v job_fields = Return tt ->
  exists d, v = PDict d
    /\ Py.has_key "description" d = true
    /\ Forall (fun field =>
                 exists x l, Py.lookup field d = Some (PList (x :: l)))
              ["responsibilities"; "required_skills"; "qualifications"].
Proof.
  unfold job_fields. cbn [check_job_fields].
  destruct (check_job_field v "description") as [[]|] eqn:H0;
    cbn [rbind]; [|discriminate].
  destruct (check_job_field v "responsibilities") as [[]|] eqn:H1;
    cbn [rbind]; [|discriminate].
  destruct (check_job_field v "required_skills") as [[]|] eqn:H2;
    cbn [rbind]; [|discriminate].
  destruct (check_job_field v "qualifications") as [[]|] eqn:H3;
    cbn [rbind]; [|discriminate].
  intros _.
  destruct v as [| | | |s|l|d].
  1-4: discriminate H1.
  - unfold check_job_field in H1. cbn in H1.
    destruct (Str.contains _ s); cbn in H1; discriminate.
  - unfold check_job_field in H1. cbn in H1.
    destruct (existsb _ l); cbn in H1; discriminate.
  - exists d. split; [reflexivity|]. split.
    + unfold check_job_field in H0. cbn in H0.
      destruct (Py.has_key "description" d); [reflexivity|discriminate].
    + repeat constructor; eapply check_job_field_list; eauto; discriminate.
Qed.

Lemma check_job_field_no_decode_error v field e :
  check_job_field v field = Raise e -> is_JSONDecodeError e = false.
Proof.
  unfold check_job_field.
  destruct (py_in field v) as [present|e0] eqn:Hin; cbn [rbind].
  2: { intros [= <-]. destruct v; cbn in Hin; try discriminate;
       injection Hin as <-; reflexivity. }
  destruct (negb present); [intros [= <-]; reflexivity|].
  destruct (String.eqb field "description"); [discriminate|].
  destruct (py_getitem v field) as [value|e1] eqn:Hget; cbn [rbind].
  2: { intros [= <-]. destruct v; cbn in Hget; try discriminate;
       try (injection Hget as <-; reflexivity).
       destruct (Py.lookup field d); [discriminate|].
       injection Hget as <-. reflexivity. }
  destruct (negb (Py.is_list value)) eqn:Hl; [intros [= <-]; reflexivity|].
  destruct value; try discriminate. cbn.
  destruct (_ <? 1); [intros [= <-]; reflexivity|discriminate].
Qed.

Lemma check_job_fields_no_decode_error v fields e :
  check_job_fields v fields = Raise e -> is_JSONDecodeError e = false.
Proof.
  induction fields as [|field rest IH]; cbn; [discriminate|].
  destruct (check_job_field v field) as [[]|e0] eqn:H; cbn.
  - exact IH.
  - intros [= <-]. eapply check_job_field_no_decode_error; eauto.
Qed.

Lemma generate_job_details_outcomes title salary w :
  exists v w',
    generate_job_details env title salary w = (Return v, w')
    /\ ((exists e, v = job_error e)
        \/ (exists text d,
              json_loads env text = Return v /\ v = PDict d
              /\ Py.has_key "description" d = true
              /\ Forall (fun field =>
                           exists x l,
                             Py.lookup field d = Some (PList (x :: l)))
                        ["responsibilities"; "required_skills";
                         "qualifications"])
        \/ (exists text e,
              json_loads env text = Raise e
              /\ is_JSONDecodeError e = true
              /\ v = parse_unstructured_response env text title salary
              /\ Py.truthy v = true)).
Proof.
  unfold generate_job_details, try_except.
  destruct (job_body env title salary w) as [[v|e] w'] eqn:Hbody.
  2: { eexists _, _. split; [reflexivity|]. left. eauto. }
  exists v, w'. split; [reflexivity|]. right.
  unfold job_body in Hbody.
  destruct (GEMINI_API_KEY env) as [[|c key]|]; try discriminate.
  apply bind_returns in Hbody as ([] & w1 & _ & Hbody).
  apply bind_returns in Hbody as (text & w2 & _ & Hbody).
  unfold try_except_if, try_except, bind, lift, ret, raise in Hbody.
  destruct (json_loads env text) as [job_details|e] eqn:Hjson.
  - destruct (check_job_fields job_details job_fields) as [[]|e] eqn:Hcheck.
    + injection Hbody as <- <-. left.
      apply check_job_fields_dict in Hcheck as (d & -> & Hdesc & Hlists).
      exists text, d. auto.
    + rewrite (check_job_fields_no_decode_error _ _ _ Hcheck) in Hbody.
      discriminate.
  - destruct (is_JSONDecodeError e) eqn:He; [|discriminate].
    destruct (negb _) eqn:Ht; [discriminate|].
    injection Hbody as <- <-. right. exists text, e.
    apply negb_false_iff in Ht. auto.
Qed.

End RetryOutcomes.

(** X9. When the first response cannot be decoded as JSON (and the
    decoder's message does not contain "429"), [calculate_fit_score] does
    not ask again: after that single request it returns the mapping with
    the four scores 15.0 and the reasoning "Score parsing failed: ...". *)
Theorem undecodable_response_scores_15 (env : Env) (d : list (string * pyval))
    (job_details : pyval) (w : World) (text : string) (e : exn) :
  Py.truthy (Py.get_default "skills" PNone d) = true ->
  1 <= RateLimiter.max_requests (limiter w) ->
  generate_content env (calls w) = Return text ->
  json_loads env text = Raise e ->
  is_JSONDecodeError e = true ->
  Str.contains "429" (exn_str e) = false ->
  exists w',
    calculate_fit_score env (PDict d) job_details w
    = (Return (flat_scores 15 ("Score parsing failed: " +:+ exn_str e)), w')
    /\ calls w' = S (calls w).
Proof.
  intros Hskills Hmax Hgen Hjson Hcls H429.
  destruct (score_attempt_undecodable env (FitScorePrompt job_details (PDict d))
              w text e Hmax Hgen Hjson) as (w' & Hattempt & Hcalls).
  exists w'. split; [|exact Hcalls].
  unfold calculate_fit_score, try_except, bind, lift, ret. cbn [py_get].
  rewrite Hskills. cbn [negb].
  rewrite (with_retries_first_failure _ _ _ _ Hattempt H429).
  now rewrite Hcls.
Qed.

Lemma undecodable_response_scores_15_witness :
  let env := scripted_env [Return "no json here"] (Raise decode_error) in
  exists w',
    calculate_fit_score env
      (PDict [("skills", PList [PStr "Python"])]) (PDict []) fresh_world
    = (Return (flat_scores 15 ("Score parsing failed: "
                               +:+ exn_str decode_error)), w')
    /\ calls w' = 1%nat.
Proof.
  intros env.
  apply (undecodable_response_scores_15 env
           [("skills", PList [PStr "Python"])] (PDict []) fresh_world
           "no json here" decode_error); try reflexivity.
  vm_compute. discriminate.
Defined.

(** X10. An empty response text is not retried by
    [generate_job_details]: the [ValueError] raised for it inside the loop
    carries no "429", so it is re-raised at once and the error mapping is
    returned after a single request and without any sleep. *)
Theorem empty_job_response_is_not_retried (env : Env) (title salary : pyval)
    (w : World) (c : ascii) (key : string) :
  GEMINI_API_KEY env = Some (String c key) ->
  generate_content env (calls w) = Return "" ->
  exists w',
    generate_job_details env title salary w
    = (Return (job_error (Exn ValueError "Empty response from Gemini AI")), w')
    /\ calls w' = S (calls w)
    /\ trace w' = trace w ++ [Generated (JobDetailsPrompt title salary)].
Proof.
  intros Hkey Hgen.
  unfold generate_job_details, job_body. rewrite Hkey.
  unfold try_except at 1. unfold bind at 1. unfold new_rate_limiter.
  cbv beta iota. unfold bind at 1.
  match goal with |- context [with_retries ?a ?x] =>
    assert (Ha : exists w1, a x = (Raise (Exn ValueError "Empty response from Gemini AI"), w1)
                            /\ calls w1 = S (calls w)
                            /\ trace w1 = trace w
                                          ++ [Generated (JobDetailsPrompt title salary)])
  end.
  { unfold job_attempt, bind, wait_if_needed, generate. cbn [clock limiter draws].
    rewrite fresh_limiter_wait. cbv beta iota. cbn [calls].
    rewrite Hgen. cbn.
    eexists. split; [reflexivity|]. cbn. auto. }
  destruct Ha as (w1 & Ha & Hc & Ht).
  rewrite (with_retries_first_failure _ _ _ _ Ha) by reflexivity.
  exists w1. auto.
Qed.

Lemma empty_job_response_is_not_retried_witness :
  let env := scripted_env [Return ""] (Raise decode_error) in
  exists w',
    generate_job_details env (PStr "Professor") (PInt 90000) fresh_world
    = (Return (job_error (Exn ValueError "Empty response from Gemini AI")), w')
    /\ calls w' = 1%nat
    /\ trace w' = [] ++ [Generated (JobDetailsPrompt (PStr "Professor")
                                                     (PInt 90000))].
Proof.
  intros env.
  exact (empty_job_response_is_not_retried env (PStr "Professor")
           (PInt 90000) fresh_world "t"%char "est-key" eq_refl eq_refl).
Defined.

(** X11. [generate_job_details] always returns a mapping, of one of
    three kinds: the error mapping; the decoded JSON response, which is
    then a dict with a [description] and a non-empty list under each of
    [responsibilities], [required_skills] and [qualifications]; or, when
    the response is not JSON, the non-empty result of
    [_parse_unstructured_response]. *)
Theorem job_details_outcomes (env : Env) (title salary : pyval) (w : World) :
  exists v w',
    generate_job_details env title salary w = (Return v, w')
    /\ ((exists e, v = job_error e)
        \/ (exists text d,
              json_loads env text = Return v /\ v = PDict d
              /\ Py.has_key "description" d = true
              /\ Forall (fun field =>
                           exists x l,
                             Py.lookup field d = Some (PList (x :: l)))
                        ["responsibilities"; "required_skills";
                         "qualifications"])
        \/ (exists text e,
              json_loads env text = Raise e
              /\ is_JSONDecodeError e = true
              /\ v = parse_unstructured_response env text title salary
              /\ Py.truthy v = true)).
Proof. apply generate_job_details_outcomes. Qed.

(** X12. When the service answers each of the three attempts of
    [generate_job_details] with an error that carries "429", the call
    returns the error mapping with the message "Error generating job
    details: Failed to get response after 3 retries", after exactly three
    requests. *)
Theorem job_details_after_three_rate_limits (env : Env) (title salary : pyval)
    (w : World) (c : ascii) (key : string) (e1 e2 e3 : exn) :
  GEMINI_API_KEY env = Some (String c key) ->
  generate_content env (calls w) = Raise e1 ->
  generate_content env (S (calls w)) = Raise e2 ->
  generate_content env (S (S (calls w))) = Raise e3 ->
  Str.contains "429" (exn_str e1) = true ->
  Str.contains "429" (exn_str e2) = true ->
  exists w',
    generate_job_details env title salary w
    = (Return (PDict [("status", PStr "error");
                      ("error", PStr "Error generating job details: Failed to get response after 3 retries")]),
       w')
    /\ calls w' = (calls w + 3)%nat.
Proof.
  intros Hkey H1 H2 H3 C1 C2.
  unfold generate_job_details, job_body. rewrite Hkey.
  unfold try_except at 1. unfold bind at 1. unfold new_rate_limiter.
  cbv beta iota. unfold bind at 1.
  set (p := JobDetailsPrompt title salary).
  match goal with |- context [with_retries _ ?x] => set (w0 := x) end.
  destruct (job_attempt_fails env p w0 e1) as (w1 & A1 & K1 & M1);
    [cbn; lia|exact H1|].
  destruct (job_attempt_fails env p (snd (sleep cooldown w1)) e2)
    as (w2 & A2 & K2 & M2); [cbn; rewrite M1; cbn; lia|cbn; rewrite K1; exact H2|].
  destruct (job_attempt_fails env p (snd (sleep cooldown w2)) e3)
    as (w3 & A3 & K3 & M3);
    [cbn; cbn in M2; rewrite M2, M1; cbn; lia
    |cbn; rewrite K2; cbn; rewrite K1; exact H3|].
  rewrite (with_retries_exhausted _ _ _ _ _ _ _ _ A1 C1 A2 C2 A3).
  exists w3. split; [reflexivity|].
  rewrite K3. cbn. rewrite K2. cbn. rewrite K1. cbn. lia.
Qed.

Lemma job_details_after_three_rate_limits_witness :
  let env := scripted_env [rate_limited; rate_limited; rate_limited]
                          (Raise decode_error) in
  exists w',
    generate_job_details env (PStr "Professor") (PInt 90000) fresh_world
    = (Return (PDict [("status", PStr "error");
                      ("error", PStr "Error generating job details: Failed to get response after 3 retries")]),
       w')
    /\ calls w' = (0 + 3)%nat.
Proof.
  intros env.
  exact (job_details_after_three_rate_limits env (PStr "Professor")
           (PInt 90000) fresh_world "t"%char "est-key" _ _ _
           eq_refl eq_refl eq_refl eq_refl eq_refl eq_refl).
Defined.

(** ** The outcomes of parse_resume *)

Section ParseShape.

Context (env : Env).

Lemma fill_sections_accumulator education skills experience projects :
  fill_sections (accumulator education skills experience projects)
  = accumulator (or_placeholder placeholder_education education)
                (or_placeholder placeholder_skill skills)
                (or_placeholder placeholder_experience experience)
                (or_placeholder placeholder_project projects).
Proof.
  destruct education, skills, experience, projects; reflexivity.
Qed.

Lemma or_placeholder_nonempty placeholder section :
  or_placeholder placeholder section <> [].
Proof. destruct section; discriminate. Qed.

Lemma clean_combined_info_shape d cleaned :
  clean_combined_info env d = Return cleaned ->
  exists education skills experience projects,
    cleaned = accumulator education skills experience projects.
Proof.
  unfold clean_combined_info.
  destruct (entries_of d "education"); cbn [rbind]; [|discriminate].
  destruct (entries_of d "skills"); cbn [rbind]; [|discriminate].
  destruct (entries_of d "experience"); cbn [rbind]; [|discriminate].
  destruct (clean_experience env _); cbn [rbind]; [|discriminate].
  destruct (entries_of d "projects"); cbn [rbind]; [|discriminate].
  destruct (clean_projects env _); cbn [rbind]; [|discriminate].
  intros [= <-]. eauto.
Qed.

Lemma finalize_shape d cleaned :
  finalize env d = Return cleaned -> parsed_shape (PDict cleaned).
Proof.
  unfold finalize.
  destruct (clean_combined_info env d) as [c|] eqn:Hc; cbn [rbind];
    [|discriminate].
  apply clean_combined_info_shape in Hc as (a & b & x & p & ->).
  unfold is_valid_result. cbn [Py.truthy accumulator fst].
  rewrite fill_sections_accumulator. intros [= <-].
  eexists _, _, _, _. split; [reflexivity|].
  repeat split; apply or_placeholder_nonempty.
Qed.

Lemma extend_skills_shape text cleaned extended :
  parsed_shape (PDict cleaned) ->
  extend_skills env text cleaned = Return extended ->
  parsed_shape (PDict extended).
Proof.
  intros (a & b & x & p & [= ->] & Ha & Hb & Hx & Hp).
  unfold extend_skills. cbn [py_getitem accumulator Py.lookup String.eqb
                             Ascii.eqb Bool.eqb rbind py_len].
  change (Py.lookup "skills" (accumulator a b x p)) with (Some (PList b)).
  cbn [rbind py_len].
  destruct (_ <? 3).
  2: { intros [= <-]. exists a, b, x, p. auto. }
  destruct (found_skills text) as [|f fs].
  { intros [= <-]. exists a, b, x, p. auto. }
  intros [= <-].
  exists a, (b ++ map PStr (list_of_set env (f :: fs))), x, p.
  split; [reflexivity|]. repeat split; auto.
  destruct b; [congruence|discriminate].
Qed.

Lemma parse_body_shape text w v w' :
  parse_body env text w = (Return v, w') -> parsed_shape v.
Proof.
  intros H. unfold parse_body in H.
  apply bind_returns in H as (combined & w1 & _ & H).
  apply bind_returns in H as (cleaned & w2 & Hfin & H).
  apply bind_returns in H as (extended & w3 & Hext & H).
  unfold lift in Hfin, Hext. injection Hfin as Hfin _. injection Hext as Hext _.
  injection H as <- _.
  eapply extend_skills_shape; [|exact Hext].
  eapply finalize_shape; exact Hfin.
Qed.

Lemma parse_resume_shape text w :
  match fst (parse_resume env text w) with
  | Raise e => e = Exn ValueError "Resume text is empty or invalid"
  | Return v => (exists e, v = parsing_failure e) \/ parsed_shape v
  end.
Proof.
  unfold parse_resume. destruct (Str.blank text); [reflexivity|].
  unfold try_except.
  destruct (parse_body env text w) as [[v|e] w'] eqn:Hbody; cbn.
  - right. eapply parse_body_shape; eauto.
  - left. eauto.
Qed.

(** *** When no response can be used *)

Lemma chunk_attempt_unusable p chunk_info w :
  no_usable_response env ->
  exists w', chunk_attempt env p chunk_info w
             = (Return (Continue, chunk_info), w').
Proof.
  intros Hno. unfold chunk_attempt. unfold try_except at 1.
  match goal with |- context [match ?body w with _ => _ end] =>
    destruct (body w) as [[out|e] w1] eqn:Hbody end.
  2: { eexists. reflexivity. }
  apply bind_returns in Hbody as ([] & w2 & _ & Hbody).
  apply bind_returns in Hbody as (response & w3 & Hresp & Hbody).
  unfold try_except, bind, generate in Hresp.
  specialize (Hno (calls w2)).
  destruct (generate_content env (calls w2)) as [text|e].
  - cbn in Hresp. injection Hresp as <- <-.
    destruct Hno as [->|(e & He & Hcls)].
    + cbn in Hbody. injection Hbody as <- <-. eexists. reflexivity.
    + destruct (String.eqb text ""); cbn [negb] in Hbody;
        cbv iota beta in Hbody.
      * injection Hbody as <- <-. eexists. reflexivity.
      * rewrite He, Hcls in Hbody. injection Hbody as <- <-.
        eexists. reflexivity.
  - destruct (Str.contains "429" (exn_str e)); [|discriminate].
    cbn in Hresp. injection Hresp as <- <-.
    injection Hbody as <- <-. eexists. reflexivity.
Qed.

Lemma try_temperatures_unusable chunk i total :
  no_usable_response env ->
  forall temps chunk_info w,
    exists w', try_temperatures env chunk i total temps chunk_info w
               = (Return chunk_info, w').
Proof.
  intros Hno. induction temps as [|temp rest IH]; intros chunk_info w; cbn.
  - eexists. reflexivity.
  - unfold bind.
    destruct (chunk_attempt_unusable (ChunkPrompt chunk i total temp)
                chunk_info w Hno) as (w1 & ->).
    apply IH.
Qed.

Lemma process_chunks_unusable :
  no_usable_response env ->
  forall chunks i total combined_info w,
    exists w', process_chunks env chunks i total combined_info w
               = (Return combined_info, w').
Proof.
  intros Hno. induction chunks as [|chunk rest IH];
    intros i total combined_info w; cbn [process_chunks].
  - eexists. reflexivity.
  - unfold bind at 1.
    destruct (try_temperatures_unusable chunk i total Hno temperatures PNone w)
      as (w1 & ->).
    cbn [Py.truthy]. unfold bind at 1. unfold ret at 1.
    apply IH.
Qed.

Lemma parse_resume_unusable text w :
  no_usable_response env ->
  Str.blank text = false ->
  exists w',
    parse_resume env text w
    = (Return
         (PDict
            (accumulator
               [placeholder_education]
               (placeholder_skill
                :: match found_skills (preprocess_resume_text env text) with
                   | [] => []
                   | found => map PStr (list_of_set env found)
                   end)
               [placeholder_experience] [placeholder_project])), w').
Proof.
  intros Hno Hblank. unfold parse_resume. rewrite Hblank.
  unfold try_except, parse_body. unfold bind at 1.
  set (text' := preprocess_resume_text env text).
  destruct (process_chunks_unusable Hno (split_resume text') 0
              (List.length (split_resume text')) (accumulator [] [] [] []) w)
    as (w1 & ->).
  exists w1. unfold bind, lift, ret.
  change (finalize env (accumulator [] [] [] []))
    with (Return (accumulator [placeholder_education] [placeholder_skill]
                              [placeholder_experience] [placeholder_project])
          : result (list (string * pyval))).
  unfold extend_skills.
  change (py_getitem (PDict (accumulator [placeholder_education]
                               [placeholder_skill] [placeholder_experience]
                               [placeholder_project])) "skills")
    with (Return (PList [placeholder_skill]) : result pyval).
  cbn [rbind py_len List.length].
  change (Z.of_nat 1 <? 3) with true. cbv iota.
  destruct (found_skills text') as [|f fs]; reflexivity.
Qed.

End ParseShape.

(** X13. [parse_resume] has three outcomes only: the [ValueError] for a
    blank text; the failure mapping (four empty lists and
    [parsing_error]); or a mapping with exactly the keys [education],
    [skills], [experience] and [projects], in this order, each holding a
    non-empty list. *)
Theorem parse_resume_outcomes (env : Env) (text : string) (w : World) :
  match fst (parse_resume env text w) with
  | Raise e => e = Exn ValueError "Resume text is empty or invalid"
  | Return v => (exists e, v = parsing_failure e) \/ parsed_shape v
  end.
Proof. apply parse_resume_shape. Qed.

(** X14. When no request gives a usable response (each call raises,
    returns an empty text, or returns a text that cannot be decoded),
    [parse_resume] of a text that is not blank does not report a failure:
    it returns the placeholder entries, with the skills found by the
    keyword scan of the text appended to "General Skills". *)
Theorem unusable_responses_give_placeholders (env : Env) (text : string)
    (w : World) :
  no_usable_response env ->
  Str.blank text = false ->
  exists w',
    parse_resume env text w
    = (Return
         (PDict
            (accumulator
               [placeholder_education]
               (placeholder_skill
                :: match found_skills (preprocess_resume_text env text) with
                   | [] => []
                   | found => map PStr (list_of_set env found)
                   end)
               [placeholder_experience] [placeholder_project])), w').
Proof. apply parse_resume_unusable. Qed.

Lemma unusable_responses_give_placeholders_witness :
  let env := scripted_env [] (Raise decode_error) in
  exists w',
    parse_resume env "Python and SQL developer" fresh_world
    = (Return
         (PDict
            (accumulator
               [placeholder_education]
               (placeholder_skill
                :: match found_skills
                           (preprocess_resume_text env
                              "Python and SQL developer") with
                   | [] => []
                   | found => map PStr (list_of_set env found)
                   end)
               [placeholder_experience] [placeholder_project])), w').
Proof.
  intros env.
  apply (unusable_responses_give_placeholders env
           "Python and SQL developer" fresh_world).
  - intros n. unfold env, scripted_env. cbn [generate_content].
    destruct n; exact I.
  - reflexivity.
Defined.

Section ParseNeverFails.

Context (env : Env).

Lemma chunk_attempt_total p chunk_info w :
  exists out w', chunk_attempt env p chunk_info w = (Return out, w').
Proof.
  unfold chunk_attempt. unfold try_except at 1.
  match goal with |- context [match ?body w with _ => _ end] =>
    destruct (body w) as [[out|e] w1] end; eexists _, _; reflexivity.
Qed.

Lemma chunk_attempt_dict p chunk_info w out w' :
  decodes_objects_only env ->
  none_or_dict chunk_info = true ->
  chunk_attempt env p chunk_info w = (Return out, w') ->
  none_or_dict (snd out) = true.
Proof.
  intros Hobj Hok. unfold chunk_attempt, try_except, bind, ret, raise.
  destruct (wait_if_needed env w) as [[[]|e] w1]; [|now intros [= <- <-]].
  destruct (generate env p w1) as [[text|e] w2].
  - destruct (Py.truthy (PStr text)); [|now intros [= <- <-]].
    destruct (extract_json env text) as [parsed|je] eqn:Hjson.
    + apply Hobj in Hjson. destruct parsed; try discriminate.
      cbn [validate_chunk_info].
      match goal with |- context [if ?b then _ else _] => destruct b end;
        [|now intros [= <- <-]].
      destruct (count_items _ _); now intros [= <- <-].
    + destruct (is_JSONDecodeError je); now intros [= <- <-].
  - destruct (Str.contains "429" (exn_str e)); now intros [= <- <-].
Qed.

Lemma try_temperatures_total chunk i total :
  decodes_objects_only env ->
  forall temps chunk_info w,
    chunk_ok chunk_info -> none_or_dict chunk_info = true ->
    exists chunk_info' w',
      try_temperatures env chunk i total temps chunk_info w
      = (Return chunk_info', w')
      /\ chunk_ok chunk_info' /\ none_or_dict chunk_info' = true.
Proof.
  intros Hobj. induction temps as [|temp temps IH];
    intros chunk_info w Hok Hdict; cbn [try_temperatures].
  - eexists _, _. split; [reflexivity|auto].
  - destruct (chunk_attempt_total (ChunkPrompt chunk i total temp) chunk_info w)
      as (out & w1 & Hout).
    pose proof (chunk_attempt_ok env _ _ _ _ _ Hok Hout) as Hok1.
    pose proof (chunk_attempt_dict _ _ _ _ _ Hobj Hdict Hout) as Hdict1.
    unfold bind. rewrite Hout.
    destruct out as [[|] chunk_info1]; cbn [snd] in *.
    + eexists _, _. split; [reflexivity|auto].
    + apply IH; auto.
Qed.

Lemma merge_sections_returns d :
  sections_ok d ->
  forall keys combined_info,
    (forall key, In key keys -> In key section_keys) ->
    sections_ok combined_info ->
    exists merged,
      merge_sections env keys combined_info (PDict d) = Return merged
      /\ sections_ok merged.
Proof.
  intros Hchunk. induction keys as [|key keys IH];
    intros combined_info Hkeys Hacc; cbn [merge_sections].
  - eauto.
  - assert (Hkey : In key section_keys) by (apply Hkeys; now left).
    assert (Hrest : forall k, In k keys -> In k section_keys)
      by (intros k Hk; apply Hkeys; now right).
    destruct (sections_ok_lookup key d Hchunk Hkey) as (new_items & Hnew & Hok).
    cbn [py_in rbind]. unfold Py.has_key. rewrite Hnew.
    cbn [py_getitem]. rewrite Hnew. cbn [rbind].
    destruct (sections_ok_lookup key combined_info Hacc Hkey)
      as (existing & Hex & Hexok).
    unfold section_of. rewrite Hex.
    pose proof (merge_preserves env entry_ok new_items existing Hexok Hok) as Hm.
    pose proof (merge_returns env new_items existing
                  (entry_ok_mergeable _ Hexok) (entry_ok_mergeable _ Hok))
      as [Hret _].
    destruct (merge_chunk_data env existing new_items) as [merged' r].
    cbn in Hm, Hret. subst r. cbn [rbind].
    apply IH; [exact Hrest|]. now apply sections_ok_store.
Qed.

Lemma process_chunks_returns :
  decodes_objects_only env ->
  forall chunks i total combined_info w,
    sections_ok combined_info ->
    exists merged w',
      process_chunks env chunks i total combined_info w = (Return merged, w').
Proof.
  intros Hobj. induction chunks as [|chunk chunks IH];
    intros i total combined_info w Hacc; cbn [process_chunks].
  - eexists _, _. reflexivity.
  - destruct (try_temperatures_total chunk i total Hobj temperatures PNone w)
      as (chunk_info & w1 & Htemps & Hok & Hdict); [exact I|reflexivity|].
    unfold bind at 1. rewrite Htemps.
    unfold bind at 1.
    destruct chunk_info as [| | | | | |d]; try discriminate.
    + cbn [Py.truthy]. unfold ret at 1. now apply IH.
    + cbn in Hok.
      destruct (merge_sections_returns d Hok section_keys combined_info)
        as (merged & Hmerge & Hmok); [auto|exact Hacc|].
      destruct (Py.truthy (PDict d)).
      * unfold lift. rewrite Hmerge. now apply IH.
      * unfold ret at 1. now apply IH.
Qed.

Lemma parsed_shape_not_failure v e : parsed_shape v -> v <> parsing_failure e.
Proof.
  intros (a & b & x & p & -> & _). unfold parsing_failure, accumulator.
  discriminate.
Qed.

Lemma parse_resume_objects text w :
  decodes_objects_only env ->
  Str.blank text = false ->
  exists v w',
    parse_resume env text w = (Return v, w')
    /\ parsed_shape v
    /\ forall e, v <> parsing_failure e.
Proof.
  intros Hobj Hblank.
  assert (Hbody : exists v w', parse_body env text w = (Return v, w')).
  { unfold parse_body.
    set (text' := preprocess_resume_text env text).
    destruct (process_chunks_returns Hobj (split_resume text') 0
                (List.length (split_resume text')) (accumulator [] [] [] []) w)
      as (merged & w1 & Hchunks).
    { repeat apply Forall_cons_2; try apply Forall_nil_2;
        exists []; split; reflexivity. }
    pose proof Hchunks as Hmok. apply process_chunks_ok in Hmok.
    2: { repeat apply Forall_cons_2; try apply Forall_nil_2;
           exists []; split; reflexivity. }
    destruct (finalize_sections_ok env merged Hmok) as (cleaned & Hfin & Hne).
    destruct (extend_skills_keeps env text' cleaned Hne)
      as (extended & Hext & _).
    unfold bind, lift, ret. rewrite Hchunks, Hfin, Hext. eauto. }
  destruct Hbody as (v & w' & Hbody).
  exists v, w'. unfold parse_resume. rewrite Hblank.
  unfold try_except. rewrite Hbody. split; [reflexivity|].
  pose proof (parse_body_shape env _ _ _ _ Hbody) as Hshape.
  split; [exact Hshape|]. intros e. now apply parsed_shape_not_failure.
Qed.

End ParseNeverFails.

(** X15. [parse_resume] reports a failure only when a response decodes
    to something that is not a JSON object: if every decoded response is
    an object, a text that is not blank always yields a mapping with the
    four sections, none of them empty, and never the failure mapping. *)
Theorem parse_resume_succeeds_on_objects (env : Env) (text : string)
    (w : World) :
  decodes_objects_only env ->
  Str.blank text = false ->
  exists v w',
    parse_resume env text w = (Return v, w')
    /\ parsed_shape v
    /\ forall e, v <> parsing_failure e.
Proof. apply parse_resume_objects. Qed.

Lemma parse_resume_succeeds_on_objects_witness :
  let env := scripted_env [Return "{}"]
               (Return (PDict [("skills", PList [PStr "Python"])])) in
  exists v w',
    parse_resume env "Python developer" fresh_world = (Return v, w')
    /\ parsed_shape v
    /\ forall e, v <> parsing_failure e.
Proof.
  intros env.
  apply (parse_resume_succeeds_on_objects env "Python developer" fresh_world).
  - intros text v. unfold env, scripted_env. cbn [extract_json].
    intros [= <-]. reflexivity.
  - reflexivity.
Defined.

(** ** Validation and merging of chunk data *)

Section StripFacts.

Lemma rstrip_cons c s :
  Str.rstrip (String c s)
  = match Str.rstrip s with
    | EmptyString =>
        if Str.is_space c then EmptyString else String c EmptyString
    | kept => String c kept
    end.
Proof. reflexivity. Qed.

Lemma rstrip_idem s : Str.rstrip (Str.rstrip s) = Str.rstrip s.
Proof.
  induction s as [|c s IH]; [reflexivity|]. rewrite rstrip_cons.
  destruct (Str.rstrip s) as [|k kept] eqn:E.
  - destruct (Str.is_space c) eqn:Hc; [reflexivity|].
    rewrite rstrip_cons. cbn [Str.rstrip]. now rewrite Hc.
  - rewrite rstrip_cons, IH. reflexivity.
Qed.

Lemma rstrip_head c s :
  Str.is_space c = false -> exists s', Str.rstrip (String c s) = String c s'.
Proof.
  intros Hc. cbn. destruct (Str.rstrip s); [rewrite Hc|]; eauto.
Qed.

Lemma strip_idem s : Str.strip (Str.strip s) = Str.strip s.
Proof.
  unfold Str.strip.
  destruct (Str.all_space s) eqn:Hs.
  - rewrite (lstrip_all_space s Hs). reflexivity.
  - destruct (lstrip_not_all_space s Hs) as (c & s' & -> & Hc).
    destruct (rstrip_head c s' Hc) as (r & Hr).
    rewrite Hr at 1. cbn [Str.lstrip]. rewrite Hc. rewrite <- Hr.
    apply rstrip_idem.
Qed.

End StripFacts.

Section ValidationFacts.

Context (env : Env).

Lemma store_same k v d : Py.lookup k d = Some v -> Py.store k v d = d.
Proof.
  induction d as [|[k' v'] d IH]; cbn; [discriminate|].
  destruct (String.eqb_spec k k') as [->|Hne].
  - now intros [= ->].
  - intros H. now rewrite IH.
Qed.

Lemma strip_nonempty_idem l :
  strip_nonempty env (strip_nonempty env l) = strip_nonempty env l.
Proof.
  unfold strip_nonempty.
  induction l as [|r l IH]; [reflexivity|]. cbn [List.filter].
  destruct (Py.truthy r); cbn [andb]; [|exact IH].
  destruct (Py.truthy (PStr (Str.strip (py_str env r)))) eqn:Ht; [|exact IH].
  cbn [map List.filter py_str]. rewrite strip_idem, Ht. cbn [andb map py_str].
  rewrite strip_idem. f_equal. exact IH.
Qed.

Lemma stripped_field_strip d k :
  Str.strip (stripped_field env d k) = stripped_field env d k.
Proof. apply strip_idem. Qed.

Lemma cleaned_sublist_fixed d k :
  strip_nonempty env (cleaned_sublist env d k) = cleaned_sublist env d k.
Proof.
  unfold cleaned_sublist.
  destruct (Py.lookup k d) as [[| | | | |l|]|]; try reflexivity.
  apply strip_nonempty_idem.
Qed.

Lemma clean_education_entry_fixed v w :
  clean_education_entry env v = Some w -> clean_education_entry env w = Some w.
Proof.
  destruct v as [| | | | | |d]; try discriminate. cbn [clean_education_entry].
  pose proof (stripped_field_strip d "degree") as H1.
  pose proof (stripped_field_strip d "institution") as H2.
  pose proof (stripped_field_strip d "year") as H3.
  revert H1 H2 H3.
  generalize (stripped_field env d "degree"), (stripped_field env d "institution"),
    (stripped_field env d "year").
  intros a b c H1 H2 H3.
  destruct (_ || _) eqn:Hid; [|discriminate]. intros [= <-].
  unfold clean_education_entry, stripped_field, Py.get_default.
  cbn [Py.lookup String.eqb Ascii.eqb Bool.eqb py_str].
  now rewrite H1, H2, H3, Hid.
Qed.

Lemma clean_skill_entry_fixed v w :
  clean_skill_entry env v = Some w -> clean_skill_entry env w = Some w.
Proof.
  unfold clean_skill_entry.
  destruct (_ && _); [|discriminate].
  destruct (Py.truthy (PStr (Str.strip (py_str env v)))) eqn:Ht; [|discriminate].
  intros [= <-]. unfold clean_skill_entry.
  cbn [Py.is_str_int_float py_str]. rewrite strip_idem, Ht. reflexivity.
Qed.

Lemma clean_experience_entry_fixed v w :
  clean_experience_entry env v = Some w ->
  clean_experience_entry env w = Some w.
Proof.
  destruct v as [| | | | | |d]; try discriminate. cbn [clean_experience_entry].
  pose proof (stripped_field_strip d "title") as H1.
  pose proof (stripped_field_strip d "company") as H2.
  pose proof (stripped_field_strip d "duration") as H3.
  pose proof (cleaned_sublist_fixed d "responsibilities") as H4.
  revert H1 H2 H3 H4.
  generalize (stripped_field env d "title"), (stripped_field env d "company"),
    (stripped_field env d "duration"), (cleaned_sublist env d "responsibilities").
  intros a b c r H1 H2 H3 H4.
  destruct (_ || _) eqn:Hid; [|discriminate]. intros [= <-].
  unfold clean_experience_entry, stripped_field, cleaned_sublist,
    Py.get_default.
  cbn [Py.lookup String.eqb Ascii.eqb Bool.eqb py_str].
  now rewrite H1, H2, H3, H4, Hid.
Qed.

Lemma clean_project_entry_fixed v w :
  clean_project_entry env v = Some w -> clean_project_entry env w = Some w.
Proof.
  destruct v as [| | | | | |d]; try discriminate. cbn [clean_project_entry].
  pose proof (stripped_field_strip d "name") as H1.
  pose proof (stripped_field_strip d "description") as H2.
  pose proof (cleaned_sublist_fixed d "technologies") as H4.
  revert H1 H2 H4.
  generalize (stripped_field env d "name"), (stripped_field env d "description"),
    (cleaned_sublist env d "technologies").
  intros a b r H1 H2 H4.
  destruct (_ || _) eqn:Hid; [|discriminate]. intros [= <-].
  unfold clean_project_entry, stripped_field, cleaned_sublist,
    Py.get_default.
  cbn [Py.lookup String.eqb Ascii.eqb Bool.eqb py_str].
  now rewrite H1, H2, H4, Hid.
Qed.

Lemma clean_entries_fixed (clean : pyval -> option pyval) l :
  (forall v w, clean v = Some w -> clean w = Some w) ->
  clean_entries clean (clean_entries clean l) = clean_entries clean l.
Proof.
  intros Hfix. unfold clean_entries.
  induction l as [|v l IH]; [reflexivity|]. cbn.
  destruct (clean v) as [w|] eqn:Hv; [|exact IH].
  cbn. rewrite (Hfix v w Hv). now rewrite IH.
Qed.

(** A dict whose four sections already hold cleaned lists is returned
    as it is. *)
Lemma validate_chunk_info_fixed d education skills experience projects :
  Py.lookup "education" d = Some (PList education) ->
  Py.lookup "skills" d = Some (PList skills) ->
  Py.lookup "experience" d = Some (PList experience) ->
  Py.lookup "projects" d = Some (PList projects) ->
  clean_entries (clean_education_entry env) education = education ->
  clean_entries (clean_skill_entry env) skills = skills ->
  clean_entries (clean_experience_entry env) experience = experience ->
  clean_entries (clean_project_entry env) projects = projects ->
  validate_chunk_info env (PDict d)
  = (PDict d,
     Py.truthy (PList education) || Py.truthy (PList skills)
     || Py.truthy (PList experience) || Py.truthy (PList projects)).
Proof.
  intros He Hs Hx Hp Ce Cs Cx Cp.
  unfold validate_chunk_info.
  assert (H0 : fold_left ensure_list section_keys d = d).
  { cbn. unfold ensure_list. now rewrite He, Hs, Hx, Hp. }
  rewrite H0. cbv zeta.
  assert (S1 : section_of d "education" = education)
    by (unfold section_of; now rewrite He).
  rewrite S1, Ce, (store_same _ _ _ He).
  assert (S2 : section_of d "skills" = skills)
    by (unfold section_of; now rewrite Hs).
  rewrite S2, Cs, (store_same _ _ _ Hs).
  assert (S3 : section_of d "experience" = experience)
    by (unfold section_of; now rewrite Hx).
  rewrite S3, Cx, (store_same _ _ _ Hx).
  assert (S4 : section_of d "projects" = projects)
    by (unfold section_of; now rewrite Hp).
  rewrite S4, Cp, (store_same _ _ _ Hp).
  reflexivity.
Qed.

Lemma validate_chunk_info_idem chunk_info :
  validate_chunk_info env (fst (validate_chunk_info env chunk_info))
  = validate_chunk_info env chunk_info.
Proof.
  destruct chunk_info as [| | | | | |d]; try reflexivity.
  unfold validate_chunk_info at 2 3. cbv zeta. cbn [fst].
  set (d0 := fold_left ensure_list section_keys d).
  set (ce := clean_entries (clean_education_entry env) (section_of d0 "education")).
  set (d1 := Py.store "education" (PList ce) d0).
  set (cs := clean_entries (clean_skill_entry env) (section_of d1 "skills")).
  set (d2 := Py.store "skills" (PList cs) d1).
  set (cx := clean_entries (clean_experience_entry env) (section_of d2 "experience")).
  set (d3 := Py.store "experience" (PList cx) d2).
  set (cp := clean_entries (clean_project_entry env) (section_of d3 "projects")).
  set (d4 := Py.store "projects" (PList cp) d3).
  apply validate_chunk_info_fixed.
  - unfold d4, d3, d2, d1.
    rewrite !lookup_store_ne by discriminate. apply lookup_store_eq.
  - unfold d4, d3, d2.
    rewrite !lookup_store_ne by discriminate. apply lookup_store_eq.
  - unfold d4, d3.
    rewrite !lookup_store_ne by discriminate. apply lookup_store_eq.
  - unfold d4. apply lookup_store_eq.
  - apply clean_entries_fixed, clean_education_entry_fixed.
  - apply clean_entries_fixed, clean_skill_entry_fixed.
  - apply clean_entries_fixed, clean_experience_entry_fixed.
  - apply clean_entries_fixed, clean_project_entry_fixed.
Qed.

End ValidationFacts.

(** X16. [_validate_chunk_info] is idempotent: validating the object it
    has rewritten changes nothing more and returns the same flag. *)
Theorem validation_is_idempotent (env : Env) (chunk_info : pyval) :
  validate_chunk_info env (fst (validate_chunk_info env chunk_info))
  = validate_chunk_info env chunk_info.
Proof. apply validate_chunk_info_idem. Qed.

Section KeptEntries.

Context (env : Env).

Lemma truthy_str s : Py.truthy (PStr s) = true -> s <> "".
Proof.
  cbn. intros H ->. discriminate.
Qed.

Lemma truthy_or a b :
  Py.truthy (PStr a) || Py.truthy (PStr b) = true -> a <> "" \/ b <> "".
Proof.
  intros [H|H]%orb_true_iff; [left|right]; now apply truthy_str.
Qed.

Lemma strip_nonempty_strings l : nonempty_strings (strip_nonempty env l).
Proof.
  unfold nonempty_strings, strip_nonempty.
  induction l as [|r l IH]; cbn [List.filter map]; [constructor|].
  destruct (Py.truthy r); cbn [andb]; [|exact IH].
  destruct (Py.truthy (PStr (Str.strip (py_str env r)))) eqn:Ht; [|exact IH].
  cbn [map]. constructor; [|exact IH].
  eexists. split; [reflexivity|]. now apply truthy_str.
Qed.

Lemma cleaned_sublist_strings d k : nonempty_strings (cleaned_sublist env d k).
Proof.
  unfold cleaned_sublist.
  destruct (Py.lookup k d) as [[| | | | |l|]|]; try constructor.
  apply strip_nonempty_strings.
Qed.

Lemma clean_education_entry_kept v w :
  clean_education_entry env v = Some w -> kept_education w.
Proof.
  destruct v as [| | | | | |d]; try discriminate. cbn [clean_education_entry].
  destruct (_ || _) eqn:Hid; [|discriminate]. intros [= <-].
  eexists _, _, _. split; [reflexivity|]. now apply truthy_or.
Qed.

Lemma clean_skill_entry_kept v w :
  clean_skill_entry env v = Some w -> kept_skill w.
Proof.
  unfold clean_skill_entry. destruct (_ && _); [|discriminate].
  destruct (Py.truthy (PStr _)) eqn:Ht; [|discriminate]. intros [= <-].
  eexists. split; [reflexivity|]. split; [now apply truthy_str|].
  apply strip_idem.
Qed.

Lemma clean_experience_entry_kept v w :
  clean_experience_entry env v = Some w -> kept_experience w.
Proof.
  destruct v as [| | | | | |d]; try discriminate. cbn [clean_experience_entry].
  destruct (_ || _) eqn:Hid; [|discriminate]. intros [= <-].
  eexists _, _, _, _. split; [reflexivity|]. split; [now apply truthy_or|].
  apply cleaned_sublist_strings.
Qed.

Lemma clean_project_entry_kept v w :
  clean_project_entry env v = Some w -> kept_project w.
Proof.
  destruct v as [| | | | | |d]; try discriminate. cbn [clean_project_entry].
  destruct (_ || _) eqn:Hid; [|discriminate]. intros [= <-].
  eexists _, _, _. split; [reflexivity|]. split; [now apply truthy_or|].
  apply cleaned_sublist_strings.
Qed.

Lemma clean_entries_Forall (P : pyval -> Prop) (clean : pyval -> option pyval) l :
  (forall v w, clean v = Some w -> P w) ->
  Forall P (clean_entries clean l).
Proof.
  intros H. unfold clean_entries. induction l as [|v l IH]; cbn; [constructor|].
  destruct (clean v) as [w|] eqn:Hv; cbn; [|exact IH].
  constructor; eauto.
Qed.

Lemma validate_chunk_info_kept d :
  exists d',
    fst (validate_chunk_info env (PDict d)) = PDict d'
    /\ Forall kept_education (section_of d' "education")
    /\ Forall kept_skill (section_of d' "skills")
    /\ Forall kept_experience (section_of d' "experience")
    /\ Forall kept_project (section_of d' "projects").
Proof.
  unfold validate_chunk_info. cbv zeta. cbn [fst].
  eexists. split; [reflexivity|].
  rewrite !section_of_store.
  rewrite !(section_of_store_ne "projects") by discriminate.
  rewrite !section_of_store.
  rewrite !(section_of_store_ne "experience") by discriminate.
  rewrite !section_of_store.
  rewrite !(section_of_store_ne "skills") by discriminate.
  rewrite !section_of_store.
  repeat split.
  - apply clean_entries_Forall, clean_education_entry_kept.
  - apply clean_entries_Forall, clean_skill_entry_kept.
  - apply clean_entries_Forall, clean_experience_entry_kept.
  - apply clean_entries_Forall, clean_project_entry_kept.
Qed.

End KeptEntries.

(** X17. After [_validate_chunk_info] every retained education entry
    has a non-empty degree or institution, every retained skill is a
    non-empty stripped string, and every retained experience or project
    entry has a non-empty title or company (name or description) and only
    non-empty strings among its responsibilities (technologies). *)
Theorem validated_entries_are_identified (env : Env)
    (d : list (string * pyval)) :
  exists d',
    fst (validate_chunk_info env (PDict d)) = PDict d'
    /\ Forall kept_education (section_of d' "education")
    /\ Forall kept_skill (section_of d' "skills")
    /\ Forall kept_experience (section_of d' "experience")
    /\ Forall kept_project (section_of d' "projects").
Proof. apply validate_chunk_info_kept. Qed.

Section MergeInvariants.

Context (env : Env).

Lemma ForallOrdPairs_snoc {A} (R : A -> A -> Prop) l y :
  ForallOrdPairs R l -> Forall (fun x => R x y) l ->
  ForallOrdPairs R (l ++ [y]).
Proof.
  induction 1 as [|x l Hx Hl IH]; cbn; intros Hy.
  - constructor; constructor.
  - apply Forall_cons_1 in Hy as [Hxy Hy].
    constructor; [|now apply IH].
    apply Forall_app. split; [exact Hx|]. constructor; [exact Hxy|constructor].
Qed.

Lemma merge_keeps_no_near_duplicates :
  forall new_items existing,
    forallb mergeable existing = true ->
    forallb mergeable new_items = true ->
    no_near_duplicates env existing ->
    no_near_duplicates env (fst (merge_chunk_data env existing new_items)).
Proof.
  induction new_items as [|new_item rest IH]; intros existing Hex Hnew Hinv;
    cbn [merge_chunk_data]; [exact Hinv|].
  cbn in Hnew. apply andb_true_iff in Hnew as [Hitem Hrest].
  rewrite (is_duplicate_returns env new_item existing Hitem Hex).
  destruct (existsb _ existing) eqn:Hdup.
  - now apply IH.
  - apply IH; [|exact Hrest|].
    + rewrite forallb_app, Hex. cbn. now rewrite Hitem.
    + apply ForallOrdPairs_snoc; [exact Hinv|].
      apply Forall_forall. intros x Hx.
      assert (Hx' : In x existing) by now apply list_elem_of_In.
      pose proof (existsb_exists
                    (fun x => negb (Qle_bool (ratio_of env new_item x)
                                             similarity_threshold))
                    existing) as Hspec.
      destruct (Qle_bool (ratio_of env new_item x) similarity_threshold) eqn:Hle.
      * now apply Qle_bool_iff.
      * exfalso. rewrite (proj2 Hspec) in Hdup; [discriminate|].
        exists x. rewrite Hle. auto.
Qed.

Lemma merge_appends_sublist :
  forall new_items existing,
    exists appended,
      fst (merge_chunk_data env existing new_items) = existing ++ appended
      /\ sublist appended new_items.
Proof.
  induction new_items as [|new_item rest IH]; intros existing;
    cbn [merge_chunk_data].
  - exists []. rewrite app_nil_r. split; [reflexivity|constructor].
  - destruct (is_duplicate env (comparable env new_item) existing)
      as [[|]|e].
    + destruct (IH existing) as (appended & -> & Hsub).
      exists appended. split; [reflexivity|]. now apply sublist_cons.
    + destruct (IH (existing ++ [new_item])) as (appended & -> & Hsub).
      exists (new_item :: appended).
      split; [now rewrite <- app_assoc|]. now apply sublist_skip.
    + exists []. cbn [fst]. rewrite app_nil_r.
      split; [reflexivity|]. apply sublist_nil_l.
Qed.

End MergeInvariants.

(** X18. [_merge_chunk_data] keeps a list free of near-duplicates: if no
    entry of [existing_items] has a similarity ratio above 0.8 to an
    entry before it, the same holds for the list after the merge. *)
Theorem merge_keeps_list_free_of_near_duplicates (env : Env)
    (existing new_items : list pyval) :
  forallb mergeable existing = true ->
  forallb mergeable new_items = true ->
  no_near_duplicates env existing ->
  no_near_duplicates env (fst (merge_chunk_data env existing new_items)).
Proof. apply merge_keeps_no_near_duplicates. Qed.

Lemma merge_keeps_list_free_of_near_duplicates_witness :
  let env := scripted_env [] (Raise decode_error) in
  no_near_duplicates env
    (fst (merge_chunk_data env [PStr "Python"] [PStr "python "; PStr "SQL"])).
Proof.
  intros env.
  apply (merge_keeps_list_free_of_near_duplicates env
           [PStr "Python"] [PStr "python "; PStr "SQL"]).
  - reflexivity.
  - reflexivity.
  - constructor; constructor.
Defined.

(** X19. [_merge_chunk_data] only appends: the list after the call is
    [existing_items], unchanged and in place, followed by some of the
    [new_items] in their original order. *)
Theorem merge_only_appends_new_items (env : Env)
    (existing new_items : list pyval) :
  exists appended,
    fst (merge_chunk_data env existing new_items) = existing ++ appended
    /\ sublist appended new_items.
Proof. apply merge_appends_sublist. Qed.

(** ** The cleaned mapping and its placeholders *)

Section CleanedSections.

Context (env : Env).

Local Abbreviation before := (fun a b : string => String.compare a b = Lt).

Lemma before_trans a b c :
  String.compare a b = Lt -> String.compare b c = Lt ->
  String.compare a c = Lt.
Proof.
  intros H1 H2. apply String_as_OT.cmp_lt.
  apply String_as_OT.cmp_lt in H1, H2.
  eapply String_as_OT.lt_trans; eauto.
Qed.

Lemma insert_sorted_Forall (P : string -> Prop) s l :
  P s -> Forall P l -> Forall P (insert_sorted s l).
Proof.
  intros Hs. induction 1 as [|x l Hx Hl IH]; cbn.
  - repeat constructor. exact Hs.
  - destruct (String.compare s x); repeat constructor; auto.
Qed.

Lemma insert_sorted_sorted s l :
  StronglySorted before l -> StronglySorted before (insert_sorted s l).
Proof.
  induction 1 as [|x l Hsorted IH Hx]; cbn.
  - repeat constructor.
  - destruct (String.compare s x) eqn:Hc.
    + now constructor.
    + constructor; [now constructor|].
      constructor; [exact Hc|].
      eapply Forall_impl; [exact Hx|]. cbn. intros y Hy.
      eapply before_trans; eauto.
    + constructor; [exact IH|].
      apply insert_sorted_Forall; [|exact Hx].
      rewrite String.compare_antisym, Hc. reflexivity.
Qed.

Lemma sorted_set_sorted l : StronglySorted before (sorted_set l).
Proof.
  unfold sorted_set. induction l as [|s l IH]; cbn; [constructor|].
  now apply insert_sorted_sorted.
Qed.

Lemma clean_experience_nonempty entries cleaned :
  clean_experience env entries = Return cleaned ->
  Forall (fun entry =>
            exists d r rs,
              entry = PDict d
              /\ Py.lookup "responsibilities" d = Some (PList (r :: rs)))
         cleaned.
Proof.
  revert cleaned. induction entries as [|exp rest IH]; intros cleaned;
    cbn [clean_experience].
  - intros [= <-]. constructor.
  - destruct exp as [| | | | | |d]; try apply IH.
    destruct (has_keys _ d); [|apply IH].
    destruct (strip_strs env _) as [responsibilities|]; cbn [rbind];
      [|discriminate].
    destruct (clean_experience env rest) as [cleaned'|]; cbn [rbind];
      [|discriminate].
    specialize (IH cleaned' eq_refl).
    destruct responsibilities as [|r rs]; cbn [Py.truthy]; intros [= <-];
      [exact IH|].
    constructor; [|exact IH]. eexists _, r, rs. split; reflexivity.
Qed.

Lemma clean_projects_nonempty entries cleaned :
  clean_projects env entries = Return cleaned ->
  Forall (fun entry =>
            exists d t ts,
              entry = PDict d
              /\ Py.lookup "technologies" d = Some (PList (t :: ts)))
         cleaned.
Proof.
  revert cleaned. induction entries as [|proj rest IH]; intros cleaned;
    cbn [clean_projects].
  - intros [= <-]. constructor.
  - destruct proj as [| | | | | |d]; try apply IH.
    destruct (has_keys _ d); [|apply IH].
    destruct (strip_strs env _) as [technologies|]; cbn [rbind];
      [|discriminate].
    destruct (clean_projects env rest) as [cleaned'|]; cbn [rbind];
      [|discriminate].
    specialize (IH cleaned' eq_refl).
    destruct technologies as [|t ts]; cbn [Py.truthy]; intros [= <-];
      [exact IH|].
    constructor; [|exact IH]. eexists _, t, ts. split; reflexivity.
Qed.

Lemma clean_combined_info_sorted d cleaned :
  clean_combined_info env d = Return cleaned ->
  (exists names,
      section_of cleaned "skills" = map PStr names
      /\ StronglySorted (fun a b => String.compare a b = Lt) names)
  /\ Forall (fun entry =>
               exists e r rs,
                 entry = PDict e
                 /\ Py.lookup "responsibilities" e = Some (PList (r :: rs)))
            (section_of cleaned "experience")
  /\ Forall (fun entry =>
               exists e t ts,
                 entry = PDict e
                 /\ Py.lookup "technologies" e = Some (PList (t :: ts)))
            (section_of cleaned "projects").
Proof.
  unfold clean_combined_info.
  destruct (entries_of d "education"); cbn [rbind]; [|discriminate].
  destruct (entries_of d "skills") as [skills|]; cbn [rbind]; [|discriminate].
  destruct (entries_of d "experience"); cbn [rbind]; [|discriminate].
  destruct (clean_experience env _) as [cx|] eqn:Hx; cbn [rbind];
    [|discriminate].
  destruct (entries_of d "projects"); cbn [rbind]; [|discriminate].
  destruct (clean_projects env _) as [cp|] eqn:Hp; cbn [rbind];
    [|discriminate].
  intros [= <-]. split; [|split].
  - exists (sorted_set (skill_strings skills)). split; [reflexivity|].
    apply sorted_set_sorted.
  - change (section_of (accumulator _ _ cx cp) "experience") with cx.
    eapply clean_experience_nonempty; eauto.
  - change (section_of (accumulator _ _ cx cp) "projects") with cp.
    eapply clean_projects_nonempty; eauto.
Qed.

Lemma is_valid_result_accumulator education skills experience projects :
  is_valid_result (accumulator education skills experience projects)
  = (accumulator (or_placeholder placeholder_education education)
                 (or_placeholder placeholder_skill skills)
                 (or_placeholder placeholder_experience experience)
                 (or_placeholder placeholder_project projects), true).
Proof.
  unfold is_valid_result. cbn [Py.truthy accumulator].
  now rewrite <- fill_sections_accumulator.
Qed.

Lemma or_placeholder_idem placeholder section :
  or_placeholder placeholder (or_placeholder placeholder section)
  = or_placeholder placeholder section.
Proof. destruct section; reflexivity. Qed.

End CleanedSections.

(** X20. In the mapping that [_clean_combined_info] returns, the skills
    are strings in strictly ascending order (so none occurs twice), every
    experience entry has a non-empty list of responsibilities and every
    project a non-empty list of technologies: an entry without any is
    dropped. *)
Theorem cleaned_sections_are_sorted_and_populated (env : Env)
    (d cleaned : list (string * pyval)) :
  clean_combined_info env d = Return cleaned ->
  (exists names,
      section_of cleaned "skills" = map PStr names
      /\ StronglySorted (fun a b => String.compare a b = Lt) names)
  /\ Forall (fun entry =>
               exists e r rs,
                 entry = PDict e
                 /\ Py.lookup "responsibilities" e = Some (PList (r :: rs)))
            (section_of cleaned "experience")
  /\ Forall (fun entry =>
               exists e t ts,
                 entry = PDict e
                 /\ Py.lookup "technologies" e = Some (PList (t :: ts)))
            (section_of cleaned "projects").
Proof. apply clean_combined_info_sorted. Qed.

Lemma cleaned_sections_are_sorted_and_populated_witness :
  let env := scripted_env [] (Raise decode_error) in
  let cleaned :=
    accumulator [] [PStr "Python"; PStr "SQL"]
      [PDict [("title", PStr "Engineer"); ("company", PStr "Acme");
              ("duration", PStr "2020");
              ("responsibilities", PList [PStr "Testing"])]] [] in
  (exists names,
      section_of cleaned "skills" = map PStr names
      /\ StronglySorted (fun a b => String.compare a b = Lt) names)
  /\ Forall (fun entry =>
               exists e r rs,
                 entry = PDict e
                 /\ Py.lookup "responsibilities" e = Some (PList (r :: rs)))
            (section_of cleaned "experience")
  /\ Forall (fun entry =>
               exists e t ts,
                 entry = PDict e
                 /\ Py.lookup "technologies" e = Some (PList (t :: ts)))
            (section_of cleaned "projects").
Proof.
  intros env cleaned.
  apply (cleaned_sections_are_sorted_and_populated env
           (accumulator []
              [PStr " SQL"; PStr "Python "; PStr "SQL"]
              [PDict [("title", PStr "Engineer"); ("company", PStr "Acme");
                      ("duration", PStr "2020");
                      ("responsibilities", PList [PStr " Testing"; PInt 3])];
               PDict [("title", PStr "Intern"); ("company", PStr "Acme");
                      ("duration", PStr "2019");
                      ("responsibilities", PList [])]]
              [])).
  vm_compute. reflexivity.
Defined.

(** X21. On the mapping with the four sections, [_is_valid_result]
    leaves every non-empty section as it is, puts exactly one placeholder
    entry in each empty one, and returns [True]; a second call changes
    nothing. *)
Theorem placeholders_fill_only_empty_sections
    (education skills experience projects : list pyval) :
  is_valid_result (accumulator education skills experience projects)
  = (accumulator (or_placeholder placeholder_education education)
                 (or_placeholder placeholder_skill skills)
                 (or_placeholder placeholder_experience experience)
                 (or_placeholder placeholder_project projects), true)
  /\ is_valid_result
       (fst (is_valid_result
               (accumulator education skills experience projects)))
     = is_valid_result (accumulator education skills experience projects).
Proof.
  split; [apply is_valid_result_accumulator|].
  rewrite !is_valid_result_accumulator. cbn [fst].
  rewrite is_valid_result_accumulator. now rewrite !or_placeholder_idem.
Qed.

(** ** The word-overlap score *)

Section WordOverlap.

Lemma word_set_empty_iff text :
  word_set text = ∅ <-> Str.split_ws (Str.lower text) [] = [].
Proof.
  unfold word_set. split.
  - destruct (Str.split_ws _ _) as [|w ws]; [reflexivity|].
    intros Hempty. exfalso. cbn in Hempty.
    assert (Hw : w ∈ ({[w]} ∪ list_to_set ws : gset string)) by set_solver.
    rewrite Hempty in Hw. set_solver.
  - intros ->. reflexivity.
Qed.

Lemma enhance_score_cases a b :
  (word_set a = ∅ /\ word_set b = ∅
   /\ enhance_score_with_embeddings a b = PInt 0)
  \/ ((word_set a <> ∅ \/ word_set b <> ∅)
      /\ exists q, enhance_score_with_embeddings a b = PFloat (FFin q)
                   /\ (0 <= q <= 100)%Q).
Proof.
  unfold enhance_score_with_embeddings.
  destruct (Nat.max (size (word_set a)) (size (word_set b))) as [|n] eqn:Hmax.
  - left. assert (size (word_set a) = 0%nat /\ size (word_set b) = 0%nat)
      as [Ha Hb] by lia.
    apply size_empty_iff in Ha, Hb. apply leibniz_equiv in Ha, Hb. auto.
  - right. split.
    + destruct (decide (word_set a = ∅)) as [Ha|Ha]; [|auto].
      destruct (decide (word_set b = ∅)) as [Hb|Hb]; [|auto].
      rewrite Ha, Hb in Hmax. rewrite size_empty in Hmax. discriminate.
    + assert (Hle : (size (word_set a ∩ word_set b) <= S n)%nat).
      { rewrite <- Hmax.
        pose proof (subseteq_size (word_set a ∩ word_set b) (word_set a)
                      (intersection_subseteq_l _ _)).
        lia. }
      assert (Hz : Z.of_nat (size (word_set a ∩ word_set b))
                   <= Z.pos (Pos.of_succ_nat n))
        by (rewrite Zpos_P_of_succ_nat; lia).
      destruct (round_le
                  (Z.of_nat (size (word_set a ∩ word_set b))
                   # Pos.of_succ_nat n) 1 1)
        as (similarity & -> & Hsim); [|reflexivity|].
      { unfold Qle. cbn [Qnum Qden]. lia. }
      cbn [Double.mul].
      destruct (round_le (similarity * 100) 100 100)
        as (q & -> & Hq); [lra|vm_compute; reflexivity|].
      exists q. split; [reflexivity|exact Hq].
Qed.

Lemma enhance_score_comm a b :
  enhance_score_with_embeddings a b = enhance_score_with_embeddings b a.
Proof.
  unfold enhance_score_with_embeddings.
  rewrite (comm_L (∩) (word_set a) (word_set b)).
  rewrite (Nat.max_comm (size (word_set a)) (size (word_set b))).
  reflexivity.
Qed.

Lemma enhance_score_same_words a b :
  word_set a = word_set b -> word_set a <> ∅ ->
  enhance_score_with_embeddings a b = PFloat (FFin 100).
Proof.
  intros Hab Hne. unfold enhance_score_with_embeddings. rewrite <- Hab.
  rewrite Nat.max_id.
  rewrite (idemp_L (∩) (word_set a)).
  destruct (size (word_set a)) as [|n] eqn:Hsize.
  - apply size_empty_iff, leibniz_equiv in Hsize. contradiction.
  - rewrite (round_comp (Z.of_nat (S n) # Pos.of_succ_nat n) 1).
    + vm_compute. reflexivity.
    + unfold Qeq. cbn [Qnum Qden]. rewrite Zpos_P_of_succ_nat. lia.
Qed.

End WordOverlap.

(** X22. [enhance_score_with_embeddings] returns the integer 0 exactly
    when neither text has a word (the division by zero is caught), and
    otherwise a float between 0 and 100. *)
Theorem overlap_score_in_range (resume_text job_description : string) :
  (word_set resume_text = ∅ /\ word_set job_description = ∅
   /\ enhance_score_with_embeddings resume_text job_description = PInt 0)
  \/ ((word_set resume_text <> ∅ \/ word_set job_description <> ∅)
      /\ exists q,
           enhance_score_with_embeddings resume_text job_description
           = PFloat (FFin q)
           /\ (0 <= q <= 100)%Q).
Proof. apply enhance_score_cases. Qed.

(** X23. The word-overlap score does not depend on the order of its two
    arguments, and it is 100.0 whenever the two texts have the same
    non-empty set of lowercased words. *)
Theorem overlap_score_is_symmetric (a b : string) :
  enhance_score_with_embeddings a b = enhance_score_with_embeddings b a
  /\ (word_set a = word_set b -> word_set a <> ∅ ->
      enhance_score_with_embeddings a b = PFloat (FFin 100)).
Proof.
  split; [apply enhance_score_comm|apply enhance_score_same_words].
Qed.

(** ** File names *)

Section FileNames.

Lemma lower_char_dot c :
  Ascii.eqb (Str.lower_char c) dot = Ascii.eqb c dot.
Proof.
  destruct c as [[] [] [] [] [] [] [] []]; reflexivity.
Qed.

Lemma has_dot_lower s : has_dot (Str.lower s) = has_dot s.
Proof.
  induction s as [|c s IH]; [reflexivity|]. cbn.
  now rewrite lower_char_dot, IH.
Qed.

Lemma after_last_dot_none s :
  after_last_dot s = None <-> has_dot s = false.
Proof.
  induction s as [|c s IH]; cbn; [tauto|].
  destruct (after_last_dot s) as [e|].
  - split; [discriminate|]. intros H. apply orb_false_iff in H as [_ H].
    apply IH in H. discriminate.
  - destruct (Ascii.eqb c dot); cbn.
    + split; discriminate.
    + split; [intros _; now apply IH|reflexivity].
Qed.

(** The test on the part after the last dot and the test on the end of
    the lowercased name agree, for an extension without a dot. *)
Lemma extension_tests_agree (x : string) :
  has_dot x = false ->
  forall s,
    match after_last_dot s with
    | Some extension => String.eqb (Str.lower extension) x
    | None => false
    end
    = endswith (String dot x) (Str.lower s).
Proof.
  intros Hx. induction s as [|c s IH].
  - cbn. reflexivity.
  - cbn [after_last_dot Str.lower endswith]. rewrite <- IH.
    cbn [String.eqb]. rewrite lower_char_dot.
    destruct (after_last_dot s) as [e|] eqn:He.
    + destruct (Ascii.eqb c dot); cbn [andb orb]; [|reflexivity].
      destruct (String.eqb_spec (Str.lower s) x) as [Hs|]; [|reflexivity].
      exfalso.
      assert (Hd : has_dot s = true).
      { destruct (has_dot s) eqn:E; [reflexivity|].
        apply after_last_dot_none in E. congruence. }
      rewrite <- has_dot_lower, Hs, Hx in Hd. discriminate.
    + destruct (Ascii.eqb c dot); cbn [andb orb].
      * now rewrite orb_false_r.
      * reflexivity.
Qed.

Lemma allowed_file_reader filename :
  allowed_file filename
  = match resume_reader filename with Some _ => true | None => false end.
Proof.
  unfold allowed_file, resume_reader, ALLOWED_RESUME_EXTENSIONS.
  change ".pdf" with (String dot "pdf").
  change ".docx" with (String dot "docx").
  rewrite <- (extension_tests_agree "pdf" eq_refl filename).
  rewrite <- (extension_tests_agree "docx" eq_refl filename).
  destruct (after_last_dot filename) as [e|]; [|reflexivity].
  cbn [existsb]. rewrite orb_false_r.
  destruct (String.eqb (Str.lower e) "pdf"); [reflexivity|].
  destruct (String.eqb (Str.lower e) "docx"); reflexivity.
Qed.

End FileNames.

(** X24. The extension test of [allowed_file] and the dispatch of
    [extract_resume_text] agree on every name: a name is allowed exactly
    when [extract_resume_text] hands it to the PDF or the DOCX reader, so
    for an allowed name it never returns [None] without reading, and for
    any other name it returns [None] without reading. *)
Theorem allowed_names_are_the_readable_ones (filename : string)
    (extract_text_from_pdf extract_text_from_docx : string -> pyval) :
  allowed_file filename
  = match resume_reader filename with Some _ => true | None => false end
  /\ (allowed_file filename = false ->
      extract_resume_text extract_text_from_pdf extract_text_from_docx
                          filename = PNone)
  /\ (allowed_file filename = true ->
      extract_resume_text extract_text_from_pdf extract_text_from_docx
                          filename = extract_text_from_pdf filename
      \/ extract_resume_text extract_text_from_pdf extract_text_from_docx
                             filename = extract_text_from_docx filename).
Proof.
  rewrite allowed_file_reader. unfold extract_resume_text.
  destruct (resume_reader filename) as [[|]|]; repeat split; auto;
    discriminate.
Qed.

(** ** The list fields of a stored job *)

Section JobLists.

Lemma strings_of_strs l i : strings_of (map PStr l) i = inl l.
Proof.
  revert i. induction l as [|s l IH]; intros i; cbn; [reflexivity|].
  now rewrite IH.
Qed.

Lemma split_lines_nonempty s : split_lines s <> [].
Proof.
  induction s as [|c s IH]; cbn; [discriminate|].
  destruct (Ascii.eqb c newline); [discriminate|].
  destruct (split_lines s); [contradiction|discriminate].
Qed.

Lemma split_lines_single s :
  has_newline s = false -> split_lines s = [s].
Proof.
  induction s as [|c s IH]; cbn [has_newline]; [reflexivity|].
  intros H. apply orb_false_iff in H as [Hc H].
  cbn [split_lines]. now rewrite Hc, (IH H).
Qed.

Lemma split_lines_app s rest :
  has_newline s = false ->
  split_lines (s +:+ String newline rest) = s :: split_lines rest.
Proof.
  induction s as [|c s IH]; cbn [String.append has_newline].
  - intros _. reflexivity.
  - intros H. apply orb_false_iff in H as [Hc H].
    change (String c s +:+ String newline rest)
      with (String c (s +:+ String newline rest)).
    cbn [split_lines]. now rewrite Hc, (IH H).
Qed.

Lemma split_lines_concat l :
  l <> [] ->
  forallb (fun s => negb (has_newline s)) l = true ->
  split_lines (String.concat (String newline "") l) = l.
Proof.
  induction l as [|s l IH]; [congruence|]. intros _ Hl.
  cbn in Hl. apply andb_true_iff in Hl as [Hs Hl].
  apply negb_true_iff in Hs.
  destruct l as [|s' l'].
  - cbn. now apply split_lines_single.
  - change (String.concat (String newline "") (s :: s' :: l'))
      with (s +:+ String newline (String.concat (String newline "") (s' :: l'))).
    rewrite split_lines_app by exact Hs.
    f_equal. apply IH; [discriminate|exact Hl].
Qed.

Lemma concat_empty_iff l :
  String.concat (String newline "") l = "" -> l = [] \/ l = [""].
Proof.
  destruct l as [|s [|s' l']]; cbn; auto.
  - intros ->. auto.
  - destruct s; cbn; discriminate.
Qed.

Lemma job_list_round_trip (l : list string) :
  forallb (fun s => negb (has_newline s)) l = true ->
  l <> [""] ->
  exists stored,
    join_section (PList (map PStr l)) = Return stored
    /\ split_section stored = Return (PList (map PStr l)).
Proof.
  intros Hl Hne. unfold join_section. rewrite strings_of_strs.
  eexists. split; [reflexivity|]. unfold split_section. cbn [Py.truthy].
  destruct (String.eqb_spec (String.concat (String newline "") l) "")
    as [Hempty|Hfull]; cbn [negb].
  - apply concat_empty_iff in Hempty as [-> | ->]; [reflexivity|congruence].
  - destruct l as [|s l']; [cbn in Hfull; congruence|].
    now rewrite split_lines_concat.
Qed.

End JobLists.

(** X25. A list field of a job survives storage: for a list of strings
    without line breaks, other than the list holding only the empty
    string, joining it with newlines as [create_job] does and splitting
    the stored string as [_format_job_dict] does gives the list back.  (A
    list that holds only the empty string comes back empty, and an item
    with a line break comes back as several.) *)
Theorem job_list_survives_storage (l : list string) :
  forallb (fun s => negb (has_newline s)) l = true ->
  l <> [""] ->
  exists stored,
    join_section (PList (map PStr l)) = Return stored
    /\ split_section stored = Return (PList (map PStr l)).
Proof. apply job_list_round_trip. Qed.

Lemma job_list_survives_storage_witness :
  exists stored,
    join_section (PList (map PStr ["Teach courses"; "Advise students"; ""]))
    = Return stored
    /\ split_section stored
       = Return (PList (map PStr ["Teach courses"; "Advise students"; ""])).
Proof.
  apply (job_list_survives_storage ["Teach courses"; "Advise students"; ""]).
  - reflexivity.
  - discriminate.
Defined.

(** ** The orchestration *)

Section OrchestrationFacts.

Context (env : Env) (services : Services).

Lemma from_agent_eq {A} (m : M A) s r w :
  m (agents s) = (r, w) ->
  from_agent m s = (r, {| agents := w; journal := journal s |}).
Proof. intros H. unfold from_agent. now rewrite H. Qed.

Lemma obind_returns {A B} (m : O A) (k : A -> O B) s v s' :
  obind m k s = (Return v, s') ->
  exists a s1, m s = (Return a, s1) /\ k a s1 = (Return v, s').
Proof.
  unfold obind. destruct (m s) as [[a|e] s1]; [eauto|discriminate].
Qed.

(** *** process_job_creation *)

Lemma job_creation_with_status title salary s d w' :
  generate_job_details env title salary (agents s) = (Return (PDict d), w') ->
  Py.has_key "status" d = true ->
  process_job_creation env services title salary s
  = (Return (error_result
               (Py.get_default "error" (PStr "Failed to generate job details")
                               d)),
     {| agents := w'; journal := journal s |}).
Proof.
  intros Hgen Hstatus.
  unfold process_job_creation, otry, obind.
  rewrite (from_agent_eq _ _ _ _ Hgen). cbv beta iota.
  assert (Ht : Py.truthy (PDict d) = true).
  { destruct d; [discriminate|reflexivity]. }
  rewrite Ht. unfold olift, oret. cbn [py_in]. rewrite Hstatus. cbn [negb].
  reflexivity.
Qed.

(** *** process_application_submission *)

Lemma submission_blank application_id text job_id s :
  Str.blank text = true ->
  process_application_submission env services application_id text job_id s
  = (Return (error_result (PStr "Resume text is empty or invalid")), s).
Proof.
  intros Hb. unfold process_application_submission, otry. now rewrite Hb.
Qed.

Lemma submission_no_job application_id text job_id s :
  Str.blank text = false ->
  Py.truthy (get_job services job_id) = false ->
  process_application_submission env services application_id text job_id s
  = (Return (error_result (PStr ("Job not found: " +:+ py_str env job_id))),
     {| agents := agents s; journal := journal s ++ [JobRead job_id] |}).
Proof.
  intros Hb Hjob.
  unfold process_application_submission, otry, obind, read_job, record.
  rewrite Hb, Hjob. reflexivity.
Qed.

Lemma submission_parse_failure application_id text job_id s e w' :
  Str.blank text = false ->
  Py.truthy (get_job services job_id) = true ->
  parse_body env text (agents s) = (Raise e, w') ->
  process_application_submission env services application_id text job_id s
  = (Return (error_result
               (PStr "Resume parsing incomplete. Missing sections: education, skills, experience")),
     {| agents := w'; journal := journal s ++ [JobRead job_id] |}).
Proof.
  intros Hb Hjob Hparse.
  assert (Hres : parse_resume env text (agents s)
                 = (Return (parsing_failure e), w')).
  { unfold parse_resume, try_except. now rewrite Hb, Hparse. }
  unfold process_application_submission, otry, obind, read_job, record.
  rewrite Hb, Hjob. cbn [negb agents journal].
  unfold parse_and_check, otry, obind.
  erewrite from_agent_eq by (cbn [agents]; exact Hres).
  reflexivity.
Qed.

End OrchestrationFacts.

(** X26. [process_job_creation] treats every mapping from
    [generate_job_details] that carries a [status] key as a failure: it
    returns an error mapping whose message is the mapping's [error] entry
    (or "Failed to generate job details" when there is none) and does not
    call [create_job].  The error mapping of [generate_job_details] is
    such a mapping, and so is a well-formed answer of the model that
    happens to contain a [status] field. *)
Theorem job_with_status_key_is_not_saved (env : Env) (services : Services)
    (title salary : pyval) (s : Desk) (d : list (string * pyval))
    (w' : World) :
  generate_job_details env title salary (agents s) = (Return (PDict d), w') ->
  Py.has_key "status" d = true ->
  process_job_creation env services title salary s
  = (Return (error_result
               (Py.get_default "error" (PStr "Failed to generate job details")
                               d)),
     {| agents := w'; journal := journal s |}).
Proof. apply job_creation_with_status. Qed.

Lemma job_with_status_key_is_not_saved_witness :
  let env := scripted_env [Raise server_error] (Raise decode_error) in
  exists w',
    process_job_creation env demo_services (PStr "Professor") (PInt 90000)
                         empty_desk
    = (Return (error_result
                 (PStr "Error generating job details: 500 An internal error has occurred.")),
       {| agents := w'; journal := [] |}).
Proof.
  intros env. eexists.
  apply (job_with_status_key_is_not_saved env demo_services
           (PStr "Professor") (PInt 90000) empty_desk
           [("status", PStr "error");
            ("error", PStr "Error generating job details: 500 An internal error has occurred.")]).
  - vm_compute. reflexivity.
  - reflexivity.
Defined.

Section Decision.

Context (env : Env) (services : Services).

Lemma decide_status_floats o k :
  decide_status (PFloat (FFin o)) (PFloat (FFin k))
  = Return (if Qle_bool 70 o && Qle_bool 60 k then "selected" else "rejected").
Proof.
  unfold decide_status. cbn [py_ge rbind].
  change (inject_Z 70) with 70%Q. change (inject_Z 60) with 60%Q.
  destruct (Qle_bool 70 o); [|reflexivity].
  cbn [rbind andb]. destruct (Qle_bool 60 k); reflexivity.
Qed.

Lemma notify_returns status application job scores parsed_resume s :
  exists warning more,
    notify services status application job scores parsed_resume s
    = (Return (PDict (success_result scores status parsed_resume ++ warning)),
       {| agents := agents s; journal := journal s ++ more |}).
Proof.
  unfold notify, otry, obind, olift, oret, record.
  set (warning := [("warning",
                    PStr "Application processed but notification email failed")]).
  destruct (py_getitem application "full_name") as [name|].
  2: { exists warning, []. rewrite (app_nil_r (journal s)).
       destruct s; reflexivity. }
  destruct (py_getitem application "email") as [email|].
  2: { exists warning, []. rewrite (app_nil_r (journal s)).
       destruct s; reflexivity. }
  destruct (py_getitem job "title") as [title|].
  2: { exists warning, []. rewrite (app_nil_r (journal s)).
       destruct s; reflexivity. }
  destruct (String.eqb status "selected").
  - destruct (send_selection_email services name email title).
    + exists [], [SelectionMailed name email title].
      now rewrite (app_nil_r (success_result _ _ _)).
    + exists warning, [SelectionMailed name email title]. reflexivity.
  - destruct (send_rejection_email services name email title).
    + exists [], [RejectionMailed name email title].
      now rewrite (app_nil_r (success_result _ _ _)).
    + exists warning, [RejectionMailed name email title]. reflexivity.
Qed.

Lemma score_and_store_success application_id job parsed_resume s r s' :
  score_and_store env services application_id job parsed_resume s
  = (Return (PDict r), s') ->
  Py.lookup "status" r = Some (PStr "success") ->
  decided application_id r s'.
Proof.
  unfold score_and_store. unfold otry at 1.
  match goal with |- context [match ?body s with _ => _ end] =>
    destruct (body s) as [[v|e] s1] eqn:Hbody end.
  2: { intros [= <- <-]. discriminate. }
  intros [= -> ->].
  apply obind_returns in Hbody as ([[[de re] rs] qu] & s2 & _ & Hbody).
  apply obind_returns in Hbody as (scores & s3 & Hscores & Hbody).
  unfold from_agent in Hscores.
  destruct (calculate_fit_score_returns env parsed_resume
              (PDict [("description", de); ("responsibilities", re);
                      ("required_skills", rs); ("qualifications", qu)])
              (agents s2)) as (d & w3 & Hfit & Hok).
  rewrite Hfit in Hscores. injection Hscores as <- <-.
  destruct (negb (Py.truthy (PDict d))); [injection Hbody as <- <-; discriminate|].
  apply obind_returns in Hbody as (complete & s4 & _ & Hbody).
  destruct (negb complete); [injection Hbody as <- <-; discriminate|].
  unfold otry in Hbody.
  match type of Hbody with (match ?inner s4 with _ => _ end) = _ =>
    destruct (inner s4) as [[v'|e] s5] eqn:Hinner end.
  2: { injection Hbody as <- <-. discriminate. }
  injection Hbody as -> ->.
  apply Forall_cons_1 in Hok as [(k & Hk & Hkr) Hok].
  apply Forall_cons_1 in Hok as [_ Hok].
  apply Forall_cons_1 in Hok as [_ Hok].
  apply Forall_cons_1 in Hok as [(o & Ho & Hor) _].
  unfold obind at 1 in Hinner. unfold olift at 1 in Hinner.
  cbn [py_getitem] in Hinner. rewrite Ho in Hinner.
  unfold obind at 1 in Hinner. unfold olift at 1 in Hinner.
  rewrite Hk in Hinner.
  unfold obind at 1 in Hinner. unfold olift at 1 in Hinner.
  rewrite decide_status_floats in Hinner.
  set (status := if Qle_bool 70 o && Qle_bool 60 k
                 then "selected" else "rejected") in *.
  unfold obind at 1 in Hinner. unfold record at 1 in Hinner.
  intros Hsuccess.
  destruct (negb (Py.truthy _)) in Hinner;
    [injection Hinner as <- <-; discriminate|].
  match type of Hinner with notify _ _ ?a ?j ?sc ?p ?st = _ =>
    destruct (notify_returns status a j sc p st) as (warning & more & Hn) end.
  rewrite Hn in Hinner. injection Hinner as <- <-.
  exists d, o, k, status.
  repeat split; try reflexivity; try tauto; auto.
  cbn [journal]. apply in_or_app. left. apply in_or_app. right. now left.
Qed.

Lemma submission_success application_id text job_id s r s' :
  process_application_submission env services application_id text job_id s
  = (Return (PDict r), s') ->
  Py.lookup "status" r = Some (PStr "success") ->
  decided application_id r s'.
Proof.
  unfold process_application_submission. unfold otry at 1.
  match goal with |- context [match ?body s with _ => _ end] =>
    destruct (body s) as [[v|e] s1] eqn:Hbody end.
  2: { intros [= <- <-]. discriminate. }
  intros [= -> ->].
  destruct (Str.blank text); [injection Hbody as <- <-; discriminate|].
  apply obind_returns in Hbody as (job & s2 & _ & Hbody).
  destruct (negb (Py.truthy job)); [injection Hbody as <- <-; discriminate|].
  apply obind_returns in Hbody as (checked & s3 & Hcheck & Hbody).
  destruct checked as [failure|parsed_resume].
  - injection Hbody as -> ->.
    unfold parse_and_check, otry in Hcheck.
    match type of Hcheck with (match ?inner s2 with _ => _ end) = _ =>
      destruct (inner s2) as [[c|e] s4] eqn:Hinner end.
    + injection Hcheck as -> ->.
      apply obind_returns in Hinner as (parsed & s5 & _ & Hinner).
      destruct (negb (Py.truthy parsed));
        [injection Hinner as <- _; discriminate|].
      apply obind_returns in Hinner as (missing & s6 & _ & Hinner).
      destruct missing; [discriminate|].
      injection Hinner as <- _. discriminate.
    + destruct (is_ValueError e); injection Hcheck as <- _; discriminate.
  - intros Hsuccess. eapply score_and_store_success; eauto.
Qed.

End Decision.

Section ServiceDown.

Context (env : Env) (services : Services).

Lemma service_down_unusable : service_down env -> no_usable_response env.
Proof.
  intros Hdown n. destruct (Hdown n) as (e & ->). exact I.
Qed.

Lemma score_attempt_down p w :
  service_down env -> exists e w', score_attempt env p w = (Raise e, w').
Proof.
  intros Hdown. unfold score_attempt, bind.
  destruct (wait_if_needed env w) as [[[]|e] w1]; [|eauto].
  unfold generate. destruct (Hdown (calls w1)) as (e & ->). eauto.
Qed.

Lemma with_retries_raises {A} (attempt : M A) :
  (forall w, exists e w', attempt w = (Raise e, w')) ->
  forall w, exists e w', with_retries attempt w = (Raise e, w').
Proof.
  intros Hfail w. rewrite with_retries_unfolded. cbn.
  unfold try_except, bind, sleep.
  destruct (Hfail w) as (e1 & w1 & ->).
  destruct (rate_exceeded e1); [|eauto].
  match goal with |- context [attempt ?x] =>
    destruct (Hfail x) as (e2 & w2 & ->) end.
  destruct (rate_exceeded e2); [|eauto].
  match goal with |- context [attempt ?x] =>
    destruct (Hfail x) as (e3 & w3 & ->) end.
  eauto.
Qed.

Lemma fit_score_when_down d job_details w :
  service_down env ->
  Py.truthy (Py.get_default "skills" PNone d) = true ->
  exists q reasoning w',
    (q = 10%Q \/ q = 15%Q)
    /\ calculate_fit_score env (PDict d) job_details w
       = (Return (flat_scores q reasoning), w').
Proof.
  intros Hdown Hskills.
  destruct (with_retries_raises
              (score_attempt env (FitScorePrompt job_details (PDict d)))
              (fun w => score_attempt_down _ w Hdown) w) as (e & w' & Hr).
  unfold calculate_fit_score, try_except, bind, lift, ret. cbn [py_get].
  rewrite Hskills. cbn [negb]. rewrite Hr.
  destruct (is_JSONDecodeError e).
  - exists 15%Q. eexists _, _. split; [now right|reflexivity].
  - exists 10%Q. eexists _, _. split; [now left|reflexivity].
Qed.

Lemma four_fields_truthy job fields :
  four_fields job = Return fields -> Py.truthy job = true.
Proof.
  unfold four_fields. destruct job as [| | | | | |d]; try discriminate.
  destruct d; [discriminate|reflexivity].
Qed.

Lemma parse_and_check_passes text s parsed w1 :
  parse_resume env text (agents s) = (Return parsed, w1) ->
  parsed_shape parsed ->
  parse_and_check env text s
  = (Return (inr parsed), {| agents := w1; journal := journal s |}).
Proof.
  intros Hparse (a & b & x & p & -> & Ha & Hb & Hx & _).
  unfold parse_and_check, otry, obind.
  rewrite (from_agent_eq _ _ _ _ Hparse). cbv beta iota.
  destruct a as [|a0 a]; [congruence|].
  destruct b as [|b0 b]; [congruence|].
  destruct x as [|x0 x]; [congruence|].
  reflexivity.
Qed.

Lemma score_and_store_low application_id job parsed_resume s
    de re rs qu q reasoning w2 :
  four_fields job = Return (de, re, rs, qu) ->
  calculate_fit_score env parsed_resume
    (PDict [("description", de); ("responsibilities", re);
            ("required_skills", rs); ("qualifications", qu)]) (agents s)
  = (Return (flat_scores q reasoning), w2) ->
  (q < 70)%Q ->
  (forall a b c d,
      Py.truthy (update_application_score services a b c d) = true) ->
  exists warning more,
    score_and_store env services application_id job parsed_resume s
    = (Return (PDict (success_result (flat_scores q reasoning) "rejected"
                                     parsed_resume ++ warning)),
       {| agents := w2;
          journal := (journal s
                      ++ [ScoreStored application_id (PFloat (FFin q))
                                      "rejected" (flat_scores q reasoning)])
                     ++ more |}).
Proof.
  intros Hjob Hfit Hq Hupd.
  unfold score_and_store, otry, obind. unfold olift at 1.
  rewrite Hjob. cbv beta iota.
  rewrite (from_agent_eq _ _ _ _ Hfit). cbv beta iota.
  change (negb (Py.truthy (flat_scores q reasoning))) with false. cbv iota.
  change (has_all_scores (flat_scores q reasoning) score_fields)
    with (Return true : result bool).
  unfold olift at 1. cbv beta iota. cbn [negb]. cbv iota.
  change (py_getitem (flat_scores q reasoning) "overall_fit_score")
    with (Return (PFloat (FFin q)) : result pyval).
  change (py_getitem (flat_scores q reasoning) "skill_match_score")
    with (Return (PFloat (FFin q)) : result pyval).
  unfold olift at 1. cbv beta iota. unfold olift at 1. cbv beta iota.
  rewrite decide_status_floats.
  replace (Qle_bool 70 q) with false.
  2: { symmetry. apply not_true_is_false. intros H.
       apply Qle_bool_iff in H. lra. }
  cbn [andb]. unfold olift at 1. cbv beta iota.
  unfold record at 1. cbv beta iota. rewrite Hupd. cbn [negb]. cbv iota.
  match goal with |- context [notify _ _ ?a ?j ?sc ?p ?st] =>
    destruct (notify_returns services "rejected" a j sc p st)
      as (warning & more & Hn) end.
  rewrite Hn. exists warning, more. reflexivity.
Qed.

Lemma submission_when_down application_id text job_id s fields :
  service_down env ->
  Str.blank text = false ->
  four_fields (get_job services job_id) = Return fields ->
  (forall a b c d,
      Py.truthy (update_application_score services a b c d) = true) ->
  exists r s' q reasoning,
    process_application_submission env services application_id text job_id s
    = (Return (PDict r), s')
    /\ Py.lookup "status" r = Some (PStr "success")
    /\ Py.lookup "parsed_resume" r
       = Some (PDict
                 (accumulator
                    [placeholder_education]
                    (placeholder_skill
                     :: match found_skills
                                (preprocess_resume_text env text) with
                        | [] => []
                        | found => map PStr (list_of_set env found)
                        end)
                    [placeholder_experience] [placeholder_project]))
    /\ (q = 10%Q \/ q = 15%Q)
    /\ Py.lookup "scores" r = Some (flat_scores q reasoning)
    /\ Py.lookup "application_status" r = Some (PStr "rejected")
    /\ In (ScoreStored application_id (PFloat (FFin q)) "rejected"
                       (flat_scores q reasoning))
          (journal s').
Proof.
  intros Hdown Hblank Hjob Hupd.
  destruct (parse_resume_unusable env text (agents s)
              (service_down_unusable Hdown) Hblank) as (w1 & Hparse).
  set (skills := placeholder_skill :: _) in Hparse.
  set (d := accumulator [placeholder_education] skills
                        [placeholder_experience] [placeholder_project])
    in Hparse.
  destruct fields as [[[de re] rs] qu].
  destruct (fit_score_when_down d
              (PDict [("description", de); ("responsibilities", re);
                      ("required_skills", rs); ("qualifications", qu)])
              w1 Hdown eq_refl)
    as (q & reasoning & w2 & Hq & Hfit).
  unfold process_application_submission, otry, obind, read_job, record.
  rewrite Hblank, (four_fields_truthy _ _ Hjob). cbn [negb]. cbv beta iota.
  erewrite parse_and_check_passes.
  2: { cbn [agents]. exact Hparse. }
  2: { exists [placeholder_education], skills, [placeholder_experience],
         [placeholder_project]. repeat split; discriminate. }
  cbv beta iota. cbn [agents journal].
  destruct (score_and_store_low application_id (get_job services job_id)
              (PDict d)
              {| agents := w1; journal := journal s ++ [JobRead job_id] |}
              de re rs qu q reasoning w2) as (warning & more & Hstore).
  - exact Hjob.
  - cbn [agents]. exact Hfit.
  - destruct Hq as [-> | ->]; reflexivity.
  - exact Hupd.
  - rewrite Hstore.
    eexists _, _, q, reasoning. split; [reflexivity|].
    split; [reflexivity|]. split; [reflexivity|]. split; [exact Hq|].
    split; [reflexivity|]. split; [reflexivity|].
    cbn [journal]. apply in_or_app. left. apply in_or_app. right. now left.
Qed.

End ServiceDown.

(** ** The failure mappings *)

Section FailureMappings.

Context (env : Env).

Lemma job_attempt_down p w :
  service_down env -> exists e w', job_attempt env p w = (Raise e, w').
Proof.
  intros Hdown. unfold job_attempt, bind.
  destruct (wait_if_needed env w) as [[[]|e] w1]; [|eauto].
  unfold generate. destruct (Hdown (calls w1)) as (e & ->). eauto.
Qed.

Lemma job_body_down title salary w :
  service_down env ->
  exists e w', job_body env title salary w = (Raise e, w').
Proof.
  intros Hdown. unfold job_body.
  destruct (GEMINI_API_KEY env) as [[|c key]|];
    [unfold raise; eauto| |unfold raise; eauto].
  unfold bind at 1. unfold new_rate_limiter at 1. cbv beta iota.
  unfold bind at 1.
  match goal with |- context [with_retries ?attempt ?x] =>
    destruct (with_retries_raises attempt
                (fun w0 => job_attempt_down _ w0 Hdown) x) as (e & w' & ->) end.
  eauto.
Qed.

Lemma job_details_down title salary w :
  service_down env ->
  exists e w',
    generate_job_details env title salary w = (Return (job_error e), w').
Proof.
  intros Hdown. unfold generate_job_details, try_except.
  destruct (job_body_down title salary w Hdown) as (e & w' & ->).
  exists e, w'. reflexivity.
Qed.

Lemma parse_resume_handler text w :
  Str.blank text = false ->
  match parse_body env text w with
  | (Raise e, w') => parse_resume env text w = (Return (parsing_failure e), w')
  | (Return v, w') =>
      parse_resume env text w = (Return v, w') /\ parsed_shape v
  end.
Proof.
  intros Hblank. unfold parse_resume, try_except. rewrite Hblank.
  destruct (parse_body env text w) as [[v|e] w'] eqn:Hbody; [|reflexivity].
  split; [reflexivity|]. exact (parse_body_shape env _ _ _ _ Hbody).
Qed.

End FailureMappings.

(** C9, as amended.  Neither entry point lets an exception of its body
    escape ([parse_resume] raises for a blank text only, before its
    body), and the two mappings returned instead differ.
    - [generate_job_details]: whenever the body raises, and so whenever
      every request to the model fails, the mapping has the two keys
      [status] (with "error") and [error] (with the cause), and none of
      the keys of a success.
    - [parse_resume]: when the body raises, the mapping has the four keys
      of a success, each with an empty list, and [parsing_error] with the
      cause; when the body returns, the mapping has the four keys, none
      empty.  A request that fails does not make the body raise: when no
      request gives a usable response, the mapping returned is the one of
      the placeholders, without [parsing_error]; and as long as every
      decoded response is a JSON object, the mapping with the empty lists
      is never returned. *)
Theorem failure_mappings (env : Env) :
  (forall title salary w e w',
     job_body env title salary w = (Raise e, w') ->
     generate_job_details env title salary w
     = (Return (PDict [("status", PStr "error");
                       ("error", PStr ("Error generating job details: "
                                       +:+ exn_str e))]), w'))
  /\ (service_down env ->
      forall title salary w,
      exists e w',
        generate_job_details env title salary w
        = (Return (PDict [("status", PStr "error");
                          ("error", PStr ("Error generating job details: "
                                          +:+ exn_str e))]), w'))
  /\ (forall text w e w',
        Str.blank text = false ->
        parse_body env text w = (Raise e, w') ->
        parse_resume env text w
        = (Return (PDict [("education", PList []); ("skills", PList []);
                          ("experience", PList []); ("projects", PList []);
                          ("parsing_error", PStr (exn_str e))]), w'))
  /\ (forall text w v w',
        Str.blank text = false ->
        parse_body env text w = (Return v, w') ->
        parse_resume env text w = (Return v, w') /\ parsed_shape v)
  /\ (no_usable_response env ->
      forall text w,
        Str.blank text = false ->
        exists w',
          parse_resume env text w
          = (Return
               (PDict
                  [("education", PList [placeholder_education]);
                   ("skills",
                    PList (placeholder_skill
                           :: match found_skills
                                      (preprocess_resume_text env text) with
                              | [] => []
                              | found => map PStr (list_of_set env found)
                              end));
                   ("experience", PList [placeholder_experience]);
                   ("projects", PList [placeholder_project])]), w'))
  /\ (decodes_objects_only env ->
      forall text w,
        Str.blank text = false ->
        exists v w',
          parse_resume env text w = (Return v, w')
          /\ parsed_shape v
          /\ forall e, v <> parsing_failure e).
Proof.
  repeat apply conj.
  - intros title salary w e w' Hbody. unfold generate_job_details, try_except.
    now rewrite Hbody.
  - intros Hdown title salary w.
    exact (job_details_down env title salary w Hdown).
  - intros text w e w' Hblank Hbody.
    pose proof (parse_resume_handler env text w Hblank) as H.
    rewrite Hbody in H. exact H.
  - intros text w v w' Hblank Hbody.
    pose proof (parse_resume_handler env text w Hblank) as H.
    rewrite Hbody in H. exact H.
  - intros Hno text w Hblank.
    exact (parse_resume_unusable env text w Hno Hblank).
  - intros Hobj text w Hblank.
    exact (parse_resume_objects env text w Hobj Hblank).
Qed.

(** C9, the claim as worded fails for both entry points.  When the model
    is unreachable, so that every request fails, the job generator returns
    the keys [status] and [error] only: [description], [responsibilities],
    [required_skills] and [qualifications] are absent, not empty.  The
    resume parser returns the four keys of a success with the placeholder
    entries (and the skill found in the text), not with empty lists, and
    no [parsing_error]. *)
Lemma unreachable_model_mappings_are_not_as_claimed :
  let env := scripted_env [] (Raise decode_error) in
  service_down env
  /\ (exists d,
        fst (generate_job_details env (PStr "Professor") (PInt 90000)
               fresh_world)
        = Return (PDict d)
        /\ d = [("status", PStr "error");
                ("error",
                 PStr "Error generating job details: 503 Service Unavailable")]
        /\ Forall (fun key => Py.lookup key d = None) job_fields)
  /\ (exists d,
        fst (parse_resume env "Python developer" fresh_world) = Return (PDict d)
        /\ d = [("education",
                 PList [PDict [("degree", PStr "Not Specified");
                               ("institution", PStr "Not Specified");
                               ("year", PStr "Not Specified")]]);
                ("skills", PList [PStr "General Skills"; PStr "python"]);
                ("experience",
                 PList [PDict [("title", PStr "Not Specified");
                               ("company", PStr "Not Specified");
                               ("duration", PStr "Not Specified");
                               ("responsibilities",
                                PList [PStr "Not Specified"])]]);
                ("projects",
                 PList [PDict [("name", PStr "Not Specified");
                               ("description", PStr "Not Specified");
                               ("technologies",
                                PList [PStr "Not Specified"])]])]
        /\ Py.lookup "parsing_error" d = None).
Proof.
  split; [|split].
  - intros n. cbn [scripted_env generate_content]. destruct n; eauto.
  - eexists. split; [vm_compute; reflexivity|].
    split; [reflexivity|]. repeat constructor.
  - eexists. split; [vm_compute; reflexivity|].
    split; reflexivity.
Qed.


(** X27. [process_application_submission] rejects a blank resume before
    it touches anything: no database call, no request to the model.  A
    resume for a job that the database does not return is refused after
    that one lookup, again without any request to the model. *)
Theorem submission_stops_before_any_request (env : Env) (services : Services)
    (application_id : pyval) (text : string) (job_id : pyval) (s : Desk) :
  (Str.blank text = true ->
   process_application_submission env services application_id text job_id s
   = (Return (error_result (PStr "Resume text is empty or invalid")), s))
  /\ (Str.blank text = false ->
      Py.truthy (get_job services job_id) = false ->
      process_application_submission env services application_id text job_id s
      = (Return (error_result
                   (PStr ("Job not found: " +:+ py_str env job_id))),
         {| agents := agents s; journal := journal s ++ [JobRead job_id] |})).
Proof.
  split; [apply submission_blank|apply submission_no_job].
Qed.

(** X28. When [parse_resume] returns its failure mapping, the
    orchestration reports "Resume parsing incomplete. Missing sections:
    education, skills, experience" and stops: the score is not computed,
    nothing is stored and nobody is mailed.  The minimal-score exit of
    [calculate_fit_score] for a failed parse is therefore never taken on
    this path. *)
Theorem failed_parse_is_reported_as_incomplete (env : Env)
    (services : Services) (application_id : pyval) (text : string)
    (job_id : pyval) (s : Desk) (e : exn) (w' : World) :
  Str.blank text = false ->
  Py.truthy (get_job services job_id) = true ->
  parse_body env text (agents s) = (Raise e, w') ->
  process_application_submission env services application_id text job_id s
  = (Return (error_result
               (PStr "Resume parsing incomplete. Missing sections: education, skills, experience")),
     {| agents := w'; journal := journal s ++ [JobRead job_id] |}).
Proof. apply submission_parse_failure. Qed.

Lemma failed_parse_is_reported_as_incomplete_witness :
  let env := scripted_env [Return "5"; Return "5"; Return "5"]
                          (Return (PInt 5)) in
  exists w',
    process_application_submission env demo_services (PStr "app-1")
      "Python developer" (PStr "job-1") empty_desk
    = (Return (error_result
                 (PStr "Resume parsing incomplete. Missing sections: education, skills, experience")),
       {| agents := w'; journal := [] ++ [JobRead (PStr "job-1")] |}).
Proof.
  intros env. eexists.
  eapply (failed_parse_is_reported_as_incomplete env demo_services
            (PStr "app-1") "Python developer" (PStr "job-1") empty_desk).
  - reflexivity.
  - reflexivity.
  - vm_compute. reflexivity.
Defined.

(** X29. Whenever [process_application_submission] reports success, the
    scores it returns are floats between 0 and 100, and the status it
    stored with [update_application_score] and returns is "selected"
    exactly when the overall score is at least 70 and the skill score at
    least 60, and "rejected" otherwise. *)
Theorem success_follows_the_selection_rule (env : Env) (services : Services)
    (application_id : pyval) (text : string) (job_id : pyval) (s s' : Desk)
    (r : list (string * pyval)) :
  process_application_submission env services application_id text job_id s
  = (Return (PDict r), s') ->
  Py.lookup "status" r = Some (PStr "success") ->
  decided application_id r s'.
Proof. apply submission_success. Qed.

Lemma success_follows_the_selection_rule_witness :
  let env := scripted_env [Return "{}"; Return "{}"]
               (Return (PDict [("skills", PList [PStr "Python"])])) in
  exists r s',
    process_application_submission env demo_services (PStr "app-1")
      "Python developer" (PStr "job-1") empty_desk
    = (Return (PDict r), s')
    /\ decided (PStr "app-1") r s'.
Proof.
  intros env.
  destruct (process_application_submission env demo_services (PStr "app-1")
              "Python developer" (PStr "job-1") empty_desk)
    as [[[| | | | | |r]|e] s'] eqn:Hrun;
    try (vm_compute in Hrun; discriminate Hrun).
  exists r, s'. split; [reflexivity|].
  apply (success_follows_the_selection_rule env demo_services (PStr "app-1")
           "Python developer" (PStr "job-1") empty_desk s' r Hrun).
  vm_compute in Hrun. injection Hrun as <- _. reflexivity.
Defined.

(** X30. When the model is unreachable (every request raises), a resume
    that is not blank, for a job that the database holds, is still
    processed to the end: the parse falls back on placeholders (with the
    skills found by the keyword scan), the four scores are all 10.0 or all
    15.0, and the applicant is stored with these scores and reported as
    "rejected". *)
Theorem unreachable_model_rejects_every_applicant (env : Env)
    (services : Services) (application_id : pyval) (text : string)
    (job_id : pyval) (s : Desk)
    (fields : pyval * pyval * pyval * pyval) :
  service_down env ->
  Str.blank text = false ->
  four_fields (get_job services job_id) = Return fields ->
  (forall a b c d,
      Py.truthy (update_application_score services a b c d) = true) ->
  exists r s' q reasoning,
    process_application_submission env services application_id text job_id s
    = (Return (PDict r), s')
    /\ Py.lookup "status" r = Some (PStr "success")
    /\ Py.lookup "parsed_resume" r
       = Some (PDict
                 [("education", PList [placeholder_education]);
                  ("skills",
                   PList (placeholder_skill
                          :: match found_skills
                                     (preprocess_resume_text env text) with
                             | [] => []
                             | found => map PStr (list_of_set env found)
                             end));
                  ("experience", PList [placeholder_experience]);
                  ("projects", PList [placeholder_project])])
    /\ (q = 10%Q \/ q = 15%Q)
    /\ Py.lookup "scores" r
       = Some (PDict [("skill_match_score", PFloat (FFin q));
                      ("experience_relevance_score", PFloat (FFin q));
                      ("education_alignment_score", PFloat (FFin q));
                      ("overall_fit_score", PFloat (FFin q));
                      ("reasoning", PStr reasoning)])
    /\ Py.lookup "application_status" r = Some (PStr "rejected")
    /\ In (ScoreStored application_id (PFloat (FFin q)) "rejected"
                       (flat_scores q reasoning))
          (journal s').
Proof. apply submission_when_down. Qed.

Lemma unreachable_model_rejects_every_applicant_witness :
  let env := scripted_env [] (Raise decode_error) in
  exists r s' q reasoning,
    process_application_submission env demo_services (PStr "app-1")
      "Python developer" (PStr "job-1") empty_desk
    = (Return (PDict r), s')
    /\ Py.lookup "status" r = Some (PStr "success")
    /\ Py.lookup "parsed_resume" r
       = Some (PDict
                 [("education", PList [placeholder_education]);
                  ("skills",
                   PList (placeholder_skill
                          :: match found_skills
                                     (preprocess_resume_text env
                                        "Python developer") with
                             | [] => []
                             | found => map PStr (list_of_set env found)
                             end));
                  ("experience", PList [placeholder_experience]);
                  ("projects", PList [placeholder_project])])
    /\ (q = 10%Q \/ q = 15%Q)
    /\ Py.lookup "scores" r
       = Some (PDict [("skill_match_score", PFloat (FFin q));
                      ("experience_relevance_score", PFloat (FFin q));
                      ("education_alignment_score", PFloat (FFin q));
                      ("overall_fit_score", PFloat (FFin q));
                      ("reasoning", PStr reasoning)])
    /\ Py.lookup "application_status" r = Some (PStr "rejected")
    /\ In (ScoreStored (PStr "app-1") (PFloat (FFin q)) "rejected"
                       (flat_scores q reasoning))
          (journal s').
Proof.
  intros env.
  apply (unreachable_model_rejects_every_applicant env demo_services
           (PStr "app-1") "Python developer" (PStr "job-1") empty_desk
           (PStr "Teaching and research", PList [PStr "Teach courses"],
            PList [PStr "Python"], PList [PStr "PhD"])).
  - intros n. unfold env, scripted_env. cbn [generate_content].
    destruct n; eexists; reflexivity.
  - reflexivity.
  - reflexivity.
  - intros a b c d. reflexivity.
Defined.
